(** * suporte-offshore: document validators, chat service and send pipeline

    A shallow embedding of [lib/utils.ts] (the validator and the masks), of
    [lib/chatService.ts] (the persistence and reply gateways), of the
    handlers and effects of [features/chat/ChatView.tsx], of the field rules
    of the onboarding forms and of [components/ui/Toaster.tsx], with the
    properties the specification states about them and others that the code
    shows.

    JavaScript strings are modelled by [string]: one [ascii] stands for one
    code unit.  The character classes the code tests ([\d], [\D], the white
    space of [trim]) are decided on the code units below 256.

    Asynchronous code is modelled by programs ([Prog]) over the requests it
    makes of its surroundings ([Eff]): the BaaS client, [fetch], the
    browser, the React state.  [exec] runs a program to its end in a world
    that answers the requests; [settle] and [resume] run it one task of the
    event loop at a time. *)

From Stdlib Require Import String Ascii List ZArith QArith Lia Bool Arith.
From Stdlib Require Import DecimalString Sorted Permutation.
Import ListNotations.
Open Scope string_scope.
Open Scope nat_scope.

(* ================================================================== *)
(** * Part I. Definitions                                              *)
(* ================================================================== *)

(** ** lib/utils.ts *)

(** The regular-expression class [\d]. *)
Definition is_digit (c : ascii) : bool :=
  let n := nat_of_ascii c in (48 <=? n) && (n <=? 57).

Fixpoint all_digits (s : string) : bool :=
  match s with
  | EmptyString => true
  | String c t => is_digit c && all_digits t
  end.

(** [s.replace(/[^\d]+/g, '')] and [s.replace(/\D/g, "")]: every code unit
    that is not a digit is dropped. *)
Fixpoint digits_only (s : string) : string :=
  match s with
  | EmptyString => EmptyString
  | String c t => if is_digit c then String c (digits_only t) else digits_only t
  end.

(** The numbers [validateCPF] computes with: integers, or [NaN]. *)
Inductive jsnum : Type :=
| NaN
| Int (z : Z).

Definition js_add (a b : jsnum) : jsnum :=
  match a, b with Int x, Int y => Int (x + y) | _, _ => NaN end.

Definition js_sub (a b : jsnum) : jsnum :=
  match a, b with Int x, Int y => Int (x - y) | _, _ => NaN end.

Definition js_mul (a b : jsnum) : jsnum :=
  match a, b with Int x, Int y => Int (x * y) | _, _ => NaN end.

(** [a % b]: the sign follows the dividend; [NaN] when [b] is zero. *)
Definition js_rem (a b : jsnum) : jsnum :=
  match a, b with
  | Int x, Int y => if (y =? 0)%Z then NaN else Int (Z.rem x y)
  | _, _ => NaN
  end.

(** [a == b] and [a != b] on numbers: [NaN] equals nothing. *)
Definition js_eq (a b : jsnum) : bool :=
  match a, b with Int x, Int y => (x =? y)%Z | _, _ => false end.

Definition js_neq (a b : jsnum) : bool := negb (js_eq a b).

(** [s.charAt(i)]: the empty string when [i] is out of range. *)
Definition charAt (s : string) (i : nat) : string :=
  match String.get i s with
  | Some c => String c EmptyString
  | None => EmptyString
  end.

(** [parseInt] on what [charAt] returns: the digit's value for a one-digit
    string, [NaN] for the empty string and for any other code unit. *)
Definition parseInt_char (s : string) : jsnum :=
  match s with
  | String c EmptyString =>
      if is_digit c then Int (Z.of_nat (nat_of_ascii c) - 48) else NaN
  | _ => NaN
  end.

(** [for (let i = 0; i < n; i++) add += parseInt(cpf.charAt(i)) * (top - i)] *)
Definition weighted_sum (cpf : string) (top : Z) (n : nat) : jsnum :=
  fold_left
    (fun add i =>
       js_add add (js_mul (parseInt_char (charAt cpf i)) (Int (top - Z.of_nat i))))
    (seq 0 n) (Int 0).

(** [let rev = 11 - (add % 11); if (rev == 10 || rev == 11) rev = 0;] *)
Definition check_digit (add : jsnum) : jsnum :=
  let rev := js_sub (Int 11) (js_rem add (Int 11)) in
  if js_eq rev (Int 10) || js_eq rev (Int 11) then Int 0 else rev.

Definition known_invalid : list string :=
  [ "00000000000"; "11111111111"; "22222222222"; "33333333333";
    "44444444444"; "55555555555"; "66666666666"; "77777777777";
    "88888888888"; "99999999999" ].

(** The two check-digit tests of [validateCPF], without the guards. *)
Definition checksum_ok (cpf : string) : bool :=
  if js_neq (check_digit (weighted_sum cpf 10 9)) (parseInt_char (charAt cpf 9))
  then false
  else if js_neq (check_digit (weighted_sum cpf 11 10)) (parseInt_char (charAt cpf 10))
  then false
  else true.

Definition validateCPF (cpf : string) : bool :=
  let cpf := digits_only cpf in
  if String.eqb cpf "" then false
  else if negb (String.length cpf =? 11) || existsb (String.eqb cpf) known_invalid
  then false
  else checksum_ok cpf.

(** [s] starts with three digits followed by a digit: where
    [/(\d{3})(\d)/] and [/(\d{3})(\d{1,2})/] match at the head. *)
Definition four_digits_here (s : string) : bool :=
  match s with
  | String a (String b (String c (String d _))) =>
      is_digit a && is_digit b && is_digit c && is_digit d
  | _ => false
  end.

(** [s.replace(/(\d{3})(\d)/, "$1" + sep + "$2")]: at the leftmost place
    where four digits stand in a row, [sep] goes after the third.  The
    same function serves [/(\d{3})(\d{1,2})/] with ["$1-$2"]: whether the
    second group takes one digit or two, the separator lands in the same
    place. *)
Fixpoint insert_after_three (sep : ascii) (s : string) : string :=
  match s with
  | EmptyString => EmptyString
  | String a t =>
      if four_digits_here s then
        match t with
        | String b (String c rest) => String a (String b (String c (String sep rest)))
        | _ => s
        end
      else String a (insert_after_three sep t)
  end.

(** Where [/(-\d{2})\d+?$/] matches at the head: a hyphen, two digits,
    then one or more digits up to the end of the string. *)
Definition dash_tail_here (s : string) : bool :=
  match s with
  | String h (String a (String b rest)) =>
      Ascii.eqb h "-" && is_digit a && is_digit b
      && negb (String.eqb rest "") && all_digits rest
  | _ => false
  end.

(** [s.replace(/(-\d{2})\d+?$/, "$1")] *)
Fixpoint cut_after_dash (s : string) : string :=
  match s with
  | EmptyString => EmptyString
  | String h t =>
      if dash_tail_here s then
        match t with
        | String a (String b _) => String h (String a (String b EmptyString))
        | _ => s
        end
      else String h (cut_after_dash t)
  end.

Definition maskCPF (value : string) : string :=
  cut_after_dash
    (insert_after_three "-"
       (insert_after_three "."
          (insert_after_three "." (digits_only value)))).

(** The string made of [n] copies of [c]. *)
Fixpoint repeat_char (c : ascii) (n : nat) : string :=
  match n with
  | O => EmptyString
  | S k => String c (repeat_char c k)
  end.

Set Warnings "-register-all".

(** ** Values *)

(** An [Error] object is known by its [message]. *)
Definition Error : Type := string.

(** What [response.json()] can yield.  TypeScript's [string] annotations are
    not checked at run time, so a reply taken from the webhook's body keeps
    whatever JSON value the body carried. *)
Inductive JSON : Type :=
| JNull
| JBool (b : bool)
| JNum (q : Q)
| JStr (s : string)
| JArr (items : list JSON)
| JObj (fields : list (string * JSON)).

(** JavaScript truthiness of a JSON value. *)
Definition truthy (v : JSON) : bool :=
  match v with
  | JNull => false
  | JBool b => b
  | JNum q => negb (Qeq_bool q 0)
  | JStr s => negb (String.eqb s "")
  | JArr _ => true
  | JObj _ => true
  end.

Fixpoint assoc (key : string) (fields : list (string * JSON)) : option JSON :=
  match fields with
  | [] => None
  | (k, v) :: rest => if String.eqb k key then Some v else assoc key rest
  end.

(** [data.key] for a [data] other than [null] and a [key] that no string,
    number, boolean or array carries ([reply] and [output] are such keys):
    [None] stands for [undefined]. *)
Definition member (data : JSON) (key : string) : option JSON :=
  match data with
  | JObj fields => assoc key fields
  | _ => None
  end.

(** [a || b] where [a] may be [undefined]. *)
Definition js_or (a : option JSON) (b : JSON) : JSON :=
  match a with
  | Some v => if truthy v then v else b
  | None => b
  end.

Record User : Type := { user_id : string; user_email : string }.

Record File : Type := { file_name : string; file_type : string; file_bytes : string }.

Inductive Role : Type := user | assistant.

(** [ChatMessage.attachment]; [attachmentInfo?: any] of [saveMessageToDb] is
    read at this shape by [loadChatHistory]. *)
Record Attachment : Type := {
  att_name : string;
  att_type : string;
  att_previewUrl : option string;
  att_url : option string
}.

Record ChatMessage : Type := {
  msg_id : string;
  msg_role : Role;
  msg_content : JSON;
  msg_timestamp : nat;
  msg_attachment : option Attachment
}.

(** A row of [conversations]; the [Conversation] interface names three of
    its four columns. *)
Record Conversation : Type := {
  conv_id : string;
  conv_user_id : string;
  conv_title : string;
  conv_updated_at : nat
}.

(** A row of [chat_messages]. *)
Record MessageRow : Type := {
  row_id : string;
  row_conversation_id : string;
  row_user_id : string;
  row_role : Role;
  row_content : JSON;
  row_attachment_info : option Attachment;
  row_created_at : nat
}.

Record Payload : Type := {
  p_user_id : string;
  p_message : string;
  p_conversation_id : string;
  p_file_content_base64 : option string;
  p_file_type : option string;
  p_file_name : option string
}.

(** A [fetch] response; [resp_json] is [None] when the body is not JSON. *)
Record Response : Type := {
  resp_ok : bool;
  resp_statusText : string;
  resp_json : option JSON
}.

Inductive ToastType : Type := toast_success | toast_error | toast_info.

(** ** The world the code runs in *)

(** The React state of [ChatView] that [handleSendMessage] reads or writes,
    and the [value] of the file input behind [fileInputRef] ([None] while the
    ref is not attached). *)
Record ChatState : Type := {
  messages : list ChatMessage;
  inputValue : string;
  isTyping : bool;
  selectedFile : option File;
  conversations : list Conversation;
  activeConversationId : option string;
  fileInputValue : option string
}.

(** Modelled from the spec: the client that [lib/supabase.ts] exports, which
    is not among the sources, and the BaaS collaborator of section 6 behind
    it: the session, the tables [conversations] and [chat_messages] in
    insertion order, the objects of the [chat-attachments] bucket, and a
    clock that every request advances, from which [created_at] is taken. *)
Record Backend : Type := {
  session : option User;
  conversations_tbl : list Conversation;
  chat_messages_tbl : list MessageRow;
  bucket : list (string * File);
  clock : nat
}.

(** What the code cannot decide: whether the backend accepts a request, the
    identifiers it generates, what the webhook answers.  Each choice may
    depend on the backend's state, hence on the time of the request. *)
Record Env : Type := {
  conv_insert_error : Backend -> string -> string -> option Error;
  conv_select_error : Backend -> string -> option Error;
  conv_delete_error : Backend -> string -> option Error;
  msg_select_error : Backend -> string -> option Error;
  msg_insert_error : Backend -> string -> Role -> JSON -> option Error;
  upload_error : Backend -> string -> File -> option Error;
  fresh_id : Backend -> string;
  public_url : string -> string;
  fetch_result : Backend -> string -> Payload -> Response + Error;
  data_url : File -> string + Error;
  object_url : Backend -> File -> string
}.

Record World : Type := {
  ui : ChatState;
  backend : Backend;
  env : Env
}.

(** ** Effects *)

(** The requests the code makes of its surroundings, each with the type of
    its answer.  A [{ data, error }] result is a sum; a promise that may
    reject answers [inr]. *)
Inductive Eff : Type -> Type :=
| GetSession : Eff (option User)
| InsertConversation (uid title : string) : Eff (Conversation + Error)
| SelectConversations (uid : string) : Eff (list Conversation + Error)
| DeleteConversation (id : string) : Eff (option Error)
| TouchConversation (id : string) (now : nat) : Eff unit
| SelectMessages (cid : string) : Eff (list MessageRow + Error)
| InsertMessage (cid uid : string) (role : Role) (content : JSON)
    (info : option Attachment) : Eff (option Error)
| StorageUpload (key : string) (file : File) : Eff (option Error)
| GetPublicUrl (key : string) : Eff string
| Fetch (url : string) (body : Payload) : Eff (Response + Error)
| ResponseJson (r : Response) : Eff (JSON + Error)
| ReadAsDataURL (file : File) : Eff (string + Error)
| DateNow : Eff nat
| CreateObjectURL (file : File) : Eff string
| ConsoleError (label : string) (e : Error) : Eff unit
| ConsoleLog (text : string) : Eff unit
| Toast (message : string) (kind : ToastType) : Eff unit
| ReadState : Eff ChatState
| SetMessages (f : list ChatMessage -> list ChatMessage) : Eff unit
| SetInputValue (s : string) : Eff unit
| SetSelectedFile (f : option File) : Eff unit
| ClearFileInput : Eff unit
| SetIsTyping (b : bool) : Eff unit
| SetActiveConversationId (id : option string) : Eff unit
| SetConversations (f : list Conversation -> list Conversation) : Eff unit.

(** The requests that suspend the caller until an answer arrives; the
    others complete within the running task. *)
Definition is_async {X : Type} (e : Eff X) : bool :=
  match e with
  | GetSession | InsertConversation _ _ | SelectConversations _
  | DeleteConversation _ | TouchConversation _ _ | SelectMessages _
  | InsertMessage _ _ _ _ _ | StorageUpload _ _ | Fetch _ _
  | ResponseJson _ | ReadAsDataURL _ => true
  | _ => false
  end.

(** One request together with its answer. *)
Inductive Event : Type :=
| Ev (X : Type) (e : Eff X) (x : X).

Arguments Ev {X} e x.

(** ** Programs *)

Inductive Prog (A : Type) : Type :=
| Ret (a : A)
| Throw (e : Error)
| Vis (X : Type) (e : Eff X) (k : X -> Prog A).

Arguments Ret {A} a.
Arguments Throw {A} e.
Arguments Vis {A X} e k.

Fixpoint bind {A B : Type} (p : Prog A) (f : A -> Prog B) : Prog B :=
  match p with
  | Ret a => f a
  | Throw e => Throw e
  | Vis e k => Vis e (fun x => bind (k x) f)
  end.

(** [try { p } catch (error) { h error }] *)
Fixpoint try_catch {A : Type} (p : Prog A) (h : Error -> Prog A) : Prog A :=
  match p with
  | Ret a => Ret a
  | Throw e => h e
  | Vis e k => Vis e (fun x => try_catch (k x) h)
  end.

(** [try { p } finally { q }] *)
Fixpoint finally {A : Type} (p : Prog A) (q : Prog unit) : Prog A :=
  match p with
  | Ret a => bind q (fun _ => Ret a)
  | Throw e => bind q (fun _ => Throw e)
  | Vis e k => Vis e (fun x => finally (k x) q)
  end.

Definition perform {X : Type} (e : Eff X) : Prog X := Vis e Ret.

(** [await] of a promise that may reject. *)
Definition await {X : Type} (e : Eff (X + Error)) : Prog X :=
  Vis e (fun r => match r with inl x => Ret x | inr err => Throw err end).

Declare Scope prog_scope.
Delimit Scope prog_scope with prog.
Notation "x <- p ;; q" := (bind p (fun x => q))
  (at level 100, p at next level, right associativity) : prog_scope.
Notation "p ;; q" := (bind p (fun _ => q))
  (at level 100, right associativity) : prog_scope.
Open Scope prog_scope.

(** ** How the world answers *)

Definition tick (b : Backend) : Backend :=
  {| session := session b;
     conversations_tbl := conversations_tbl b;
     chat_messages_tbl := chat_messages_tbl b;
     bucket := bucket b;
     clock := S (clock b) |}.

Definition with_conversations (l : list Conversation) (b : Backend) : Backend :=
  {| session := session b;
     conversations_tbl := l;
     chat_messages_tbl := chat_messages_tbl b;
     bucket := bucket b;
     clock := clock b |}.

Definition with_chat_messages (l : list MessageRow) (b : Backend) : Backend :=
  {| session := session b;
     conversations_tbl := conversations_tbl b;
     chat_messages_tbl := l;
     bucket := bucket b;
     clock := clock b |}.

Definition with_bucket (l : list (string * File)) (b : Backend) : Backend :=
  {| session := session b;
     conversations_tbl := conversations_tbl b;
     chat_messages_tbl := chat_messages_tbl b;
     bucket := l;
     clock := clock b |}.

Definition set_backend (b : Backend) (w : World) : World :=
  {| ui := ui w; backend := b; env := env w |}.

Definition set_ui (s : ChatState) (w : World) : World :=
  {| ui := s; backend := backend w; env := env w |}.

(** Stable insertion sort, for [.order(column, { ascending })]. *)
Fixpoint insert_by {A : Type} (le : A -> A -> bool) (x : A) (l : list A) : list A :=
  match l with
  | [] => [x]
  | y :: t => if le x y then x :: l else y :: insert_by le x t
  end.

Definition sort_by {A : Type} (le : A -> A -> bool) (l : list A) : list A :=
  fold_right (insert_by le) [] l.

Definition touch (id : string) (now : nat) (c : Conversation) : Conversation :=
  if String.eqb (conv_id c) id
  then {| conv_id := conv_id c; conv_user_id := conv_user_id c;
          conv_title := conv_title c; conv_updated_at := now |}
  else c.

(** The answer to a request and the world after it.  A state setter writes
    its field and nothing more: the effect that React re-runs when
    [activeConversationId] changes is the separate program [loadMessages],
    which [send_until_adopted] runs after a send; a run of a handler by
    itself says what that handler asked for, in [list_updates] for the
    message list. *)
Definition handle {X : Type} (e : Eff X) (w : World) : X * World :=
  let b := backend w in
  let s := ui w in
  match e in Eff X return X * World with
  | GetSession => (session b, set_backend (tick b) w)
  | InsertConversation uid title =>
      match conv_insert_error (env w) b uid title with
      | Some err => (inr err, set_backend (tick b) w)
      | None =>
          let row := {| conv_id := fresh_id (env w) b; conv_user_id := uid;
                        conv_title := title; conv_updated_at := clock b |} in
          (inl row,
           set_backend (tick (with_conversations (conversations_tbl b ++ [row]) b)) w)
      end
  | SelectConversations uid =>
      match conv_select_error (env w) b uid with
      | Some err => (inr err, set_backend (tick b) w)
      | None =>
          (inl (sort_by (fun x y => conv_updated_at y <=? conv_updated_at x)
                  (filter (fun c => String.eqb (conv_user_id c) uid)
                     (conversations_tbl b))),
           set_backend (tick b) w)
      end
  | DeleteConversation id =>
      match conv_delete_error (env w) b id with
      | Some err => (Some err, set_backend (tick b) w)
      | None =>
          (None,
           set_backend
             (tick (with_conversations
                      (filter (fun c => negb (String.eqb (conv_id c) id))
                         (conversations_tbl b)) b)) w)
      end
  | TouchConversation id now =>
      (tt, set_backend
             (tick (with_conversations (map (touch id now) (conversations_tbl b)) b)) w)
  | SelectMessages cid =>
      match msg_select_error (env w) b cid with
      | Some err => (inr err, set_backend (tick b) w)
      | None =>
          (inl (sort_by (fun x y => row_created_at x <=? row_created_at y)
                  (filter (fun m => String.eqb (row_conversation_id m) cid)
                     (chat_messages_tbl b))),
           set_backend (tick b) w)
      end
  | InsertMessage cid uid role content info =>
      match msg_insert_error (env w) b cid role content with
      | Some err => (Some err, set_backend (tick b) w)
      | None =>
          let row := {| row_id := fresh_id (env w) b; row_conversation_id := cid;
                        row_user_id := uid; row_role := role; row_content := content;
                        row_attachment_info := info; row_created_at := clock b |} in
          (None,
           set_backend (tick (with_chat_messages (chat_messages_tbl b ++ [row]) b)) w)
      end
  | StorageUpload key file =>
      match upload_error (env w) b key file with
      | Some err => (Some err, set_backend (tick b) w)
      | None => (None, set_backend (tick (with_bucket (bucket b ++ [(key, file)]) b)) w)
      end
  | GetPublicUrl key => (public_url (env w) key, w)
  | Fetch url body => (fetch_result (env w) b url body, set_backend (tick b) w)
  | ResponseJson r =>
      (match resp_json r with
       | Some j => inl j
       | None => inr "SyntaxError: Unexpected token in JSON"
       end, set_backend (tick b) w)
  | ReadAsDataURL file => (data_url (env w) file, set_backend (tick b) w)
  | DateNow => (clock b, w)
  | CreateObjectURL file => (object_url (env w) b file, w)
  | ConsoleError _ _ => (tt, w)
  | ConsoleLog _ => (tt, w)
  | Toast _ _ => (tt, w)
  | ReadState => (s, w)
  | SetMessages f =>
      (tt, set_ui {| messages := f (messages s); inputValue := inputValue s;
                     isTyping := isTyping s; selectedFile := selectedFile s;
                     conversations := conversations s;
                     activeConversationId := activeConversationId s;
                     fileInputValue := fileInputValue s |} w)
  | SetInputValue v =>
      (tt, set_ui {| messages := messages s; inputValue := v;
                     isTyping := isTyping s; selectedFile := selectedFile s;
                     conversations := conversations s;
                     activeConversationId := activeConversationId s;
                     fileInputValue := fileInputValue s |} w)
  | SetSelectedFile f =>
      (tt, set_ui {| messages := messages s; inputValue := inputValue s;
                     isTyping := isTyping s; selectedFile := f;
                     conversations := conversations s;
                     activeConversationId := activeConversationId s;
                     fileInputValue := fileInputValue s |} w)
  | ClearFileInput =>
      (tt, set_ui {| messages := messages s; inputValue := inputValue s;
                     isTyping := isTyping s; selectedFile := selectedFile s;
                     conversations := conversations s;
                     activeConversationId := activeConversationId s;
                     fileInputValue :=
                       match fileInputValue s with
                       | Some _ => Some ""
                       | None => None
                       end |} w)
  | SetIsTyping v =>
      (tt, set_ui {| messages := messages s; inputValue := inputValue s;
                     isTyping := v; selectedFile := selectedFile s;
                     conversations := conversations s;
                     activeConversationId := activeConversationId s;
                     fileInputValue := fileInputValue s |} w)
  | SetActiveConversationId id =>
      (tt, set_ui {| messages := messages s; inputValue := inputValue s;
                     isTyping := isTyping s; selectedFile := selectedFile s;
                     conversations := conversations s;
                     activeConversationId := id;
                     fileInputValue := fileInputValue s |} w)
  | SetConversations f =>
      (tt, set_ui {| messages := messages s; inputValue := inputValue s;
                     isTyping := isTyping s; selectedFile := selectedFile s;
                     conversations := f (conversations s);
                     activeConversationId := activeConversationId s;
                     fileInputValue := fileInputValue s |} w)
  end.

(** How a run ends. *)
Inductive Outcome (A : Type) : Type :=
| Returned (a : A)
| Thrown (e : Error).

Arguments Returned {A} a.
Arguments Thrown {A} e.

(** A run of [p] to its end, every request answered by [handle]: the
    outcome, the world left behind, and the requests made, in order. *)
Fixpoint exec {A : Type} (p : Prog A) (w : World) : Outcome A * World * list Event :=
  match p with
  | Ret a => (Returned a, w, [])
  | Throw e => (Thrown e, w, [])
  | Vis e k =>
      let (x, w1) := handle e w in
      let '(r, w2, t) := exec (k x) w1 in
      (r, w2, Ev e x :: t)
  end.

(** ** lib/chatService.ts *)

Definition WEBHOOK_URL : string :=
  "https://n8n-webhook.2yhtoy.easypanel.host/webhook/robo".

Definition no_text_reply : string := "Recebido, mas sem resposta de texto.".

Definition default_title : string := "Nova Conversa".

(** [s.split(sep)] *)
Fixpoint split_on (sep : ascii) (s : string) : list string :=
  match s with
  | EmptyString => [EmptyString]
  | String c t =>
      if Ascii.eqb c sep then EmptyString :: split_on sep t
      else match split_on sep t with
           | h :: r => String c h :: r
           | [] => [String c EmptyString]
           end
  end.

(** [Date.now().toString()] *)
Definition nat_to_string (n : nat) : string :=
  NilEmpty.string_of_uint (Nat.to_uint n).

Definition convertFileToBase64 (file : File) : Prog (option string) :=
  result <- await (ReadAsDataURL file) ;;
  Ret (nth_error (split_on "," result) 1).

Definition uploadChatAttachment (file : File) : Prog (option string) :=
  try_catch
    (session <- perform GetSession ;;
     match session with
     | None => Throw "Usuário não autenticado"
     | Some u =>
         now <- perform DateNow ;;
         let fileName := user_id u ++ "/" ++ nat_to_string now ++ "_" ++ file_name file in
         uploadError <- perform (StorageUpload fileName file) ;;
         match uploadError with
         | Some err =>
             perform (ConsoleError "Erro no upload:" err) ;;
             Throw err
         | None =>
             publicUrl <- perform (GetPublicUrl fileName) ;;
             Ret (Some publicUrl)
         end
     end)
    (fun err =>
       perform (ConsoleError "Erro ao fazer upload do anexo:" err) ;;
       Ret None).

(** [data.reply || data.output ||
     (typeof data === 'string' ? data : "Recebido, mas sem resposta de texto.")];
    reading a property of [null] throws a [TypeError], known here by its
    message. *)
Definition reply_text (data : JSON) : Prog JSON :=
  match data with
  | JNull => Throw "Cannot read properties of null (reading 'reply')"
  | _ =>
      Ret (js_or (member data "reply")
             (js_or (member data "output")
                (match data with
                 | JStr _ => data
                 | _ => JStr no_text_reply
                 end)))
  end.

Definition sendMessageToWebhook
    (message : string) (conversationId : string) (file : option File) : Prog JSON :=
  try_catch
    (session <- perform GetSession ;;
     let userId :=
       match session with
       | Some u => if String.eqb (user_id u) "" then "anonymous" else user_id u
       | None => "anonymous"
       end in
     encoded <-
       match file with
       | Some f =>
           fileContentBase64 <- convertFileToBase64 f ;;
           Ret (fileContentBase64, Some (file_type f), Some (file_name f))
       | None => Ret (None, None, None)
       end ;;
     let '(fileContentBase64, fileType, fileName) := encoded in
     let payload :=
       {| p_user_id := userId;
          p_message := message;
          p_conversation_id := conversationId;
          p_file_content_base64 := fileContentBase64;
          p_file_type := fileType;
          p_file_name := fileName |} in
     response <- await (Fetch WEBHOOK_URL payload) ;;
     if negb (resp_ok response)
     then Throw ("Erro na comunicação com o servidor: " ++ resp_statusText response)
     else
       data <- await (ResponseJson response) ;;
       reply_text data)
    (fun err =>
       perform (ConsoleError "Erro ao enviar mensagem:" err) ;;
       Throw err).

(** [title.substring(0, 30) || "Nova Conversa"] *)
Definition cleanTitle (title : string) : string :=
  let t := String.substring 0 30 title in
  if String.eqb t "" then default_title else t.

Definition createConversation (title : string) : Prog (option Conversation) :=
  session <- perform GetSession ;;
  match session with
  | None => Ret None
  | Some u =>
      res <- perform (InsertConversation (user_id u) (cleanTitle title)) ;;
      match res with
      | inr err =>
          perform (ConsoleError "Erro ao criar conversa:" err) ;;
          Ret None
      | inl data => Ret (Some data)
      end
  end.

Definition getConversations : Prog (list Conversation) :=
  session <- perform GetSession ;;
  match session with
  | None => Ret []
  | Some u =>
      res <- perform (SelectConversations (user_id u)) ;;
      match res with
      | inr err =>
          perform (ConsoleError "Erro ao buscar conversas:" err) ;;
          Ret []
      | inl data => Ret data
      end
  end.

Definition deleteConversation (conversationId : string) : Prog bool :=
  err <- perform (DeleteConversation conversationId) ;;
  match err with
  | Some e =>
      perform (ConsoleError "Erro ao deletar conversa:" e) ;;
      Ret false
  | None => Ret true
  end.

(** The [ChatMessage] that [loadChatHistory] builds from a row. *)
Definition message_of_row (msg : MessageRow) : ChatMessage :=
  {| msg_id := row_id msg;
     msg_role := row_role msg;
     msg_content := row_content msg;
     msg_timestamp := row_created_at msg;
     msg_attachment :=
       match row_attachment_info msg with
       | Some a =>
           Some {| att_name := att_name a;
                   att_type := att_type a;
                   att_previewUrl := att_previewUrl a;
                   att_url := att_url a |}
       | None => None
       end |}.

Definition loadChatHistory (conversationId : string) : Prog (list ChatMessage) :=
  session <- perform GetSession ;;
  match session with
  | None => Ret []
  | Some _ =>
      res <- perform (SelectMessages conversationId) ;;
      match res with
      | inr err =>
          perform (ConsoleError "Erro ao carregar histórico:" err) ;;
          Ret []
      | inl data => Ret (map message_of_row data)
      end
  end.

Definition saveMessageToDb
    (conversationId : string) (role : Role) (content : JSON)
    (attachmentInfo : option Attachment) : Prog unit :=
  session <- perform GetSession ;;
  match session with
  | None => Ret tt
  | Some u =>
      if String.eqb conversationId ""
      then perform (ConsoleError "Tentativa de salvar mensagem sem ID de conversa." "")
      else
        err <- perform (InsertMessage conversationId (user_id u) role content attachmentInfo) ;;
        match err with
        | Some e => perform (ConsoleError "Erro ao salvar mensagem no banco:" e)
        | None =>
            now <- perform DateNow ;;
            perform (TouchConversation conversationId now)
        end
  end.

(** ** features/chat/ChatView.tsx *)

(** White space as [trim] sees it. *)
Definition is_space (c : ascii) : bool :=
  let n := nat_of_ascii c in
  ((9 <=? n) && (n <=? 13)) || (n =? 32) || (n =? 160).

Fixpoint trim_start (s : string) : string :=
  match s with
  | EmptyString => EmptyString
  | String c t => if is_space c then trim_start t else s
  end.

Fixpoint trim_end (s : string) : string :=
  match s with
  | EmptyString => EmptyString
  | String c t =>
      match trim_end t with
      | EmptyString => if is_space c then EmptyString else String c EmptyString
      | r => String c r
      end
  end.

Definition trim (s : string) : string := trim_end (trim_start s).

(** [!id] for an id of type [string | null]. *)
Definition no_id (id : option string) : bool :=
  match id with
  | None => true
  | Some s => String.eqb s ""
  end.

Definition is_some {A : Type} (o : option A) : bool :=
  match o with Some _ => true | None => false end.

(** The guard of [handleSendMessage]:
    [(!inputValue.trim() && !selectedFile) || isTyping]. *)
Definition send_refused (st : ChatState) : bool :=
  (String.eqb (trim (inputValue st)) "" && negb (is_some (selectedFile st)))
  || isTyping st.

Definition creation_failed : Error := "Falha ao criar nova conversa no banco.".

Definition null_id : Error := "ID da conversa é nulo.".

(** STEP 1 of the [try] block: ensure the conversation exists.  The result
    is [currentId]. *)
Definition ensure_conversation
    (activeId : option string) (contentToSend : string) : Prog (option string) :=
  if no_id activeId then
    perform (ConsoleLog "Criando nova conversa...") ;;
    newConversation <- createConversation contentToSend ;;
    match newConversation with
    | Some c =>
        perform (SetActiveConversationId (Some (conv_id c))) ;;
        perform (SetConversations (fun prev => c :: prev)) ;;
        Ret (Some (conv_id c))
    | None => Throw creation_failed
    end
  else Ret activeId.

(** STEP 2: upload the file, if any.  The result is [publicAttachmentUrl]. *)
Definition upload_file (fileToSend : option File) : Prog (option string) :=
  match fileToSend with
  | Some f =>
      url <- uploadChatAttachment f ;;
      match url with
      | Some u => if String.eqb u "" then Ret None else Ret (Some u)
      | None => Ret None
      end
  | None => Ret None
  end.

Definition dbAttachmentInfo
    (fileToSend : option File) (publicAttachmentUrl : option string)
  : option Attachment :=
  match fileToSend with
  | Some f =>
      Some {| att_name := file_name f;
              att_type := file_type f;
              att_previewUrl := None;
              att_url := publicAttachmentUrl |}
  | None => None
  end.

(** STEPS 4 to 6: ask the webhook, show its reply, save the reply. *)
Definition reply_steps
    (currentId : string) (contentToSend : string) (fileToSend : option File)
  : Prog unit :=
  responseText <- sendMessageToWebhook contentToSend currentId fileToSend ;;
  now <- perform DateNow ;;
  stamp <- perform DateNow ;;
  let aiMessage :=
    {| msg_id := nat_to_string (now + 1);
       msg_role := assistant;
       msg_content := responseText;
       msg_timestamp := stamp;
       msg_attachment := None |} in
  perform (SetMessages (fun prev => (prev ++ [aiMessage])%list)) ;;
  saveMessageToDb currentId assistant responseText None.

(** The [try] block of [handleSendMessage]. *)
Definition send_steps
    (activeId : option string) (contentToSend : string) (fileToSend : option File)
  : Prog unit :=
  currentId <- ensure_conversation activeId contentToSend ;;
  match currentId with
  | None => Throw null_id
  | Some currentId =>
      if String.eqb currentId "" then Throw null_id
      else
        publicAttachmentUrl <- upload_file fileToSend ;;
        saveMessageToDb currentId user (JStr contentToSend)
          (dbAttachmentInfo fileToSend publicAttachmentUrl) ;;
        reply_steps currentId contentToSend fileToSend
  end.

(** The message shown at once, before any request is made. *)
Definition optimistic_message
    (id : string) (content : string) (stamp : nat)
    (file : option File) (preview : option string) : ChatMessage :=
  {| msg_id := id;
     msg_role := user;
     msg_content := JStr content;
     msg_timestamp := stamp;
     msg_attachment :=
       match file with
       | Some f =>
           Some {| att_name := file_name f;
                   att_type := file_type f;
                   att_previewUrl := preview;
                   att_url := None |}
       | None => None
       end |}.

(** STEP 0: the optimistic update, up to the reset of the file input. *)
Definition show_optimistic (contentToSend : string) (fileToSend : option File)
  : Prog unit :=
  now <- perform DateNow ;;
  let tempUserMsgId := nat_to_string now in
  localPreviewUrl <-
    match fileToSend with
    | Some f =>
        if String.prefix "image/" (file_type f)
        then url <- perform (CreateObjectURL f) ;; Ret (Some url)
        else Ret None
    | None => Ret None
    end ;;
  stamp <- perform DateNow ;;
  let optimisticMessage :=
    optimistic_message tempUserMsgId contentToSend stamp fileToSend localPreviewUrl in
  perform (SetMessages (fun prev => (prev ++ [optimisticMessage])%list)) ;;
  perform (SetInputValue "") ;;
  perform (SetSelectedFile None) ;;
  perform ClearFileInput.

(** The [catch] block of [handleSendMessage]. *)
Definition report (err : Error) : Prog unit :=
  perform (ConsoleError "" err) ;;
  perform (Toast ("Erro ao processar mensagem: " ++ err) toast_error).

(** [handleSendMessage]; the call of [preventDefault] on the DOM event is
    left out.  [ReadState] gives the values the handler's closure holds. *)
Definition handleSendMessage : Prog unit :=
  st <- perform ReadState ;;
  if send_refused st then Ret tt
  else
    let contentToSend := inputValue st in
    let fileToSend := selectedFile st in
    show_optimistic contentToSend fileToSend ;;
    perform (SetIsTyping true) ;;
    finally
      (try_catch
         (send_steps (activeConversationId st) contentToSend fileToSend)
         report)
      (perform (SetIsTyping false)).

(** ** What a run shows *)

(** The requests of a run that the properties below speak about. *)
Inductive Mark : Type :=
| Created (c : Conversation)
| CreateRejected
| Deleted (id : string)
| Wrote (cid : string) (role : Role) (info : option Attachment) (accepted : bool)
| Stored (key : string) (accepted : bool)
| FileRead
| Requested (body : Payload) (answer : Response + Error)
| Logged (label : string)
| Toasted (message : string) (kind : ToastType).

Definition digest (ev : Event) : option Mark :=
  match ev with
  | Ev e x =>
      match e in Eff X return X -> option Mark with
      | InsertConversation _ _ =>
          fun r => match r with
                   | inl c => Some (Created c)
                   | inr _ => Some CreateRejected
                   end
      | DeleteConversation id => fun _ => Some (Deleted id)
      | InsertMessage cid _ role _ info =>
          fun r => Some (Wrote cid role info (negb (is_some r)))
      | StorageUpload key _ => fun r => Some (Stored key (negb (is_some r)))
      | ReadAsDataURL _ => fun _ => Some FileRead
      | Fetch _ body => fun r => Some (Requested body r)
      | ConsoleError label _ => fun _ => Some (Logged label)
      | Toast message kind => fun _ => Some (Toasted message kind)
      | _ => fun _ => None
      end x
  end.

Fixpoint marks (t : list Event) : list Mark :=
  match t with
  | [] => []
  | ev :: rest =>
      match digest ev with
      | Some m => m :: marks rest
      | None => marks rest
      end
  end.

(** The labels under which the chat service logs its failures. *)
Definition upload_label : string := "Erro ao fazer upload do anexo:".
Definition webhook_label : string := "Erro ao enviar mensagem:".
Definition save_label : string := "Erro ao salvar mensagem no banco:".
Definition no_id_label : string := "Tentativa de salvar mensagem sem ID de conversa.".
Definition create_label : string := "Erro ao criar conversa:".

Definition is_logged (label : string) (m : Mark) : bool :=
  match m with Logged l => String.eqb l label | _ => false end.

(** [console.error(label, ...)] was called during the run. *)
Definition logged (label : string) (t : list Event) : bool :=
  existsb (is_logged label) (marks t).

(** [sendMessageToWebhook] threw: its [catch] block is the one place that
    logs under this label. *)
Definition webhook_failed (t : list Event) : bool :=
  logged webhook_label t.

(** [uploadChatAttachment] failed: its [catch] block is the one place that
    logs under this label. *)
Definition upload_failed (t : list Event) : bool :=
  logged upload_label t.

(** A message insert for [role] was requested and the backend refused it. *)
Definition is_refused_write (role : Role) (m : Mark) : bool :=
  match m with
  | Wrote _ user _ false => match role with user => true | assistant => false end
  | Wrote _ assistant _ false => match role with user => false | assistant => true end
  | _ => false
  end.

Definition write_refused (role : Role) (t : list Event) : bool :=
  existsb (is_refused_write role) (marks t).

Definition is_error_toast (m : Mark) : bool :=
  match m with Toasted _ toast_error => true | _ => false end.

(** An error was reported to the user. *)
Definition error_shown (t : list Event) : bool :=
  existsb is_error_toast (marks t).

Definition is_request (m : Mark) : bool :=
  match m with Requested _ _ => true | FileRead => true | _ => false end.

(** The reply gateway was entered with its inputs: the POST to the webhook
    was issued, or the file to inline in it was being read. *)
Definition reply_requested (t : list Event) : bool :=
  existsb is_request (marks t).

Definition is_create (m : Mark) : bool :=
  match m with Created _ => true | CreateRejected => true | _ => false end.

(** The conversation ids under which message inserts were requested. *)
Definition writes_of (m : list Mark) : list string :=
  flat_map (fun x => match x with Wrote cid _ _ _ => [cid] | _ => [] end) m.

Definition written_ids (t : list Event) : list string := writes_of (marks t).

(** The step of the send pipeline a mark comes from. *)
Inductive Step : Type :=
| AtCreate | AtUpload | AtSave | AtReply | AtCatch | Elsewhere.

Definition step_of (m : Mark) : Step :=
  match m with
  | Created _ => AtCreate
  | CreateRejected => AtCreate
  | Deleted _ => Elsewhere
  | Wrote _ _ _ _ => AtSave
  | Stored _ _ => AtUpload
  | FileRead => AtReply
  | Requested _ _ => AtReply
  | Toasted _ _ => AtCatch
  | Logged l =>
      if String.eqb l create_label then AtCreate
      else if String.eqb l "Erro no upload:" || String.eqb l upload_label then AtUpload
      else if String.eqb l no_id_label || String.eqb l save_label then AtSave
      else if String.eqb l webhook_label then AtReply
      else if String.eqb l "" then AtCatch
      else Elsewhere
  end.

Definition step_eqb (a b : Step) : bool :=
  match a, b with
  | AtCreate, AtCreate | AtUpload, AtUpload | AtSave, AtSave
  | AtReply, AtReply | AtCatch, AtCatch | Elsewhere, Elsewhere => true
  | _, _ => false
  end.

(** Every mark of [m] comes from step [s]. *)
Definition all_at (s : Step) (m : list Mark) : Prop :=
  forallb (fun x => step_eqb (step_of x) s) m = true.

(** The backend after a run holds what it held before, and more: [convs]
    are the ids of the conversations added, [rows] the messages added,
    [objs] the objects added, each in order. *)
Record grows (w w' : World)
    (convs : list string) (rows : list MessageRow) (objs : list (string * File))
  : Prop := Grows {
  grows_env : env w' = env w;
  grows_session : session (backend w') = session (backend w);
  grows_conversations :
    map conv_id (conversations_tbl (backend w')) =
    (map conv_id (conversations_tbl (backend w)) ++ convs)%list;
  grows_messages :
    chat_messages_tbl (backend w') = (chat_messages_tbl (backend w) ++ rows)%list;
  grows_bucket : bucket (backend w') = (bucket (backend w) ++ objs)%list;
  grows_clock : clock (backend w) <= clock (backend w')
}.

(** ** The outcomes of the gateways *)

(** The ways [createConversation title] can end in [w]: the value returned,
    the ids added to [conversations], and the marks of the run. *)
Inductive creation (title : string) (w : World)
  : option Conversation -> list string -> list Mark -> Prop :=
| creation_no_session :
    session (backend w) = None ->
    creation title w None [] []
| creation_rejected (u : User) :
    session (backend w) = Some u ->
    creation title w None [] [CreateRejected; Logged create_label]
| creation_done (u : User) (c : Conversation) :
    session (backend w) = Some u ->
    conv_user_id c = user_id u ->
    conv_title c = cleanTitle title ->
    creation title w (Some c) [conv_id c] [Created c].

(** The ways [uploadChatAttachment file] can end in [w]: the value
    returned, the objects added to the bucket, and the marks of the run. *)
Inductive upload (file : File) (w : World)
  : option string -> list (string * File) -> list Mark -> Prop :=
| upload_no_session :
    session (backend w) = None ->
    upload file w None [] [Logged upload_label]
| upload_rejected (u : User) (key : string) :
    session (backend w) = Some u ->
    upload file w None []
      [Stored key false; Logged "Erro no upload:"; Logged upload_label]
| upload_done (u : User) (key : string) :
    session (backend w) = Some u ->
    upload file w (Some (public_url (env w) key)) [(key, file)] [Stored key true].

(** The ways [saveMessageToDb cid role content info] can end in [w]: the
    rows added to [chat_messages] and the marks of the run. *)
Inductive saving (cid : string) (role : Role) (content : JSON)
    (info : option Attachment) (w : World)
  : list MessageRow -> list Mark -> Prop :=
| saving_no_session :
    session (backend w) = None ->
    saving cid role content info w [] []
| saving_no_id (u : User) :
    session (backend w) = Some u ->
    cid = "" ->
    saving cid role content info w [] [Logged no_id_label]
| saving_refused (u : User) :
    session (backend w) = Some u ->
    cid <> "" ->
    saving cid role content info w []
      [Wrote cid role info false; Logged save_label]
| saving_done (u : User) (row : MessageRow) :
    session (backend w) = Some u ->
    cid <> "" ->
    row_conversation_id row = cid ->
    row_user_id row = user_id u ->
    row_role row = role ->
    row_content row = content ->
    row_attachment_info row = info ->
    saving cid role content info w [row] [Wrote cid role info true].

(** The reply the claim words describe: the [reply] field if the body has
    one, else the [output] field if it has one, else the body if it is a
    string, else the fixed sentence. *)
Definition first_present_reply (data : JSON) : JSON :=
  match member data "reply" with
  | Some v => v
  | None =>
      match member data "output" with
      | Some v => v
      | None =>
          match data with
          | JStr _ => data
          | _ => JStr no_text_reply
          end
      end
  end.

(** [Some v] when [v] is a truthy value of the field [key] of [data]. *)
Definition truthy_member (data : JSON) (key : string) : option JSON :=
  match member data key with
  | Some v => if truthy v then Some v else None
  | None => None
  end.

(** The reply the code returns for a body other than [null]: the first
    truthy one of the fields [reply] and [output], else the body if it is a
    string, else the fixed sentence. *)
Definition first_truthy_reply (data : JSON) : JSON :=
  match truthy_member data "reply" with
  | Some v => v
  | None =>
      match truthy_member data "output" with
      | Some v => v
      | None => match data with JStr _ => data | _ => JStr no_text_reply end
      end
  end.

(** The marks that [sendMessageToWebhook] leaves before it returns or
    enters its [catch] block. *)
Definition gateway_marks (pre : list Mark) : Prop :=
  pre <> [] /\ forallb is_request pre = true.

(** ** The runs of the send pipeline *)

(** [publicAttachmentUrl] as STEP 2 leaves it: the uploaded object's URL
    when there is one and it is not empty. *)
Definition kept_url (url : option string) : option string :=
  match url with
  | Some u => if String.eqb u "" then None else Some u
  | None => None
  end.

(** The chat state once a newly created conversation is adopted. *)
Definition adopt (created : option Conversation) (st : ChatState) : ChatState :=
  match created with
  | Some c =>
      {| messages := messages st; inputValue := inputValue st;
         isTyping := isTyping st; selectedFile := selectedFile st;
         conversations := c :: conversations st;
         activeConversationId := Some (conv_id c);
         fileInputValue := fileInputValue st |}
  | None => st
  end.

Definition new_ids (created : option Conversation) : list string :=
  match created with
  | Some c => [conv_id c]
  | None => []
  end.

Definition append_messages (l : list ChatMessage) (st : ChatState) : ChatState :=
  {| messages := (messages st ++ l)%list; inputValue := inputValue st;
     isTyping := isTyping st; selectedFile := selectedFile st;
     conversations := conversations st;
     activeConversationId := activeConversationId st;
     fileInputValue := fileInputValue st |}.

Definition set_typing (b : bool) (st : ChatState) : ChatState :=
  {| messages := messages st; inputValue := inputValue st;
     isTyping := b; selectedFile := selectedFile st;
     conversations := conversations st;
     activeConversationId := activeConversationId st;
     fileInputValue := fileInputValue st |}.

(** The chat state when the [try] block is entered: the optimistic message
    shown, the input cleared, the busy flag set. *)
Definition started (st : ChatState) (opt : ChatMessage) : ChatState :=
  {| messages := (messages st ++ [opt])%list; inputValue := "";
     isTyping := true; selectedFile := None;
     conversations := conversations st;
     activeConversationId := activeConversationId st;
     fileInputValue :=
       match fileInputValue st with
       | Some _ => Some ""
       | None => None
       end |}.

(** [m] is an optimistic message of a send from [st]. *)
Definition optimistic (st : ChatState) (m : ChatMessage) : Prop :=
  exists id stamp preview,
    m = optimistic_message id (inputValue st) stamp (selectedFile st) preview.

(** How STEP 1 settles [currentId]: the active conversation, or one
    created now. *)
Inductive resolution (activeId : option string) (content : string) (w : World)
  : string -> option Conversation -> list Mark -> Prop :=
| resolution_active (cur : string) :
    activeId = Some cur ->
    cur <> "" ->
    resolution activeId content w cur None []
| resolution_created (u : User) (c : Conversation) :
    no_id activeId = true ->
    session (backend w) = Some u ->
    conv_user_id c = user_id u ->
    conv_title c = cleanTitle content ->
    resolution activeId content w (conv_id c) (Some c) [Created c].

(** How STEP 2 ends. *)
Inductive attaching (file : option File) (w : World)
  : option string -> list (string * File) -> list Mark -> Prop :=
| attaching_nothing :
    file = None ->
    attaching file w None [] []
| attaching_file (f : File) (r : option string) objs m :
    file = Some f ->
    upload f w r objs m ->
    attaching file w (kept_url r) objs m.

(** The exit paths of the [try] block run in [w]: how it ends, the world
    it leaves, and the marks of the run. *)
Inductive steps_run (activeId : option string) (content : string)
    (file : option File) (w : World)
  : Outcome unit -> World -> list Mark -> Prop :=
| steps_creation_failed w2 pre :
    no_id activeId = true ->
    creation content w None [] pre ->
    ui w2 = ui w ->
    grows w w2 [] [] [] ->
    steps_run activeId content file w (Thrown creation_failed) w2 pre
| steps_null_id w2 created pre :
    resolution activeId content w "" created pre ->
    ui w2 = adopt created (ui w) ->
    grows w w2 (new_ids created) [] [] ->
    steps_run activeId content file w (Thrown null_id) w2 pre
| steps_webhook_failed w2 cur created pre url objs um urows sm gm err :
    resolution activeId content w cur created pre ->
    cur <> "" ->
    attaching file w url objs um ->
    saving cur user (JStr content) (dbAttachmentInfo file url) w urows sm ->
    gateway_marks gm ->
    ui w2 = adopt created (ui w) ->
    grows w w2 (new_ids created) urows objs ->
    steps_run activeId content file w (Thrown err) w2
      (pre ++ um ++ sm ++ gm ++ [Logged webhook_label])
| steps_completed w2 cur created pre url objs um urows sm gm ai arows am :
    resolution activeId content w cur created pre ->
    cur <> "" ->
    attaching file w url objs um ->
    saving cur user (JStr content) (dbAttachmentInfo file url) w urows sm ->
    gateway_marks gm ->
    msg_role ai = assistant ->
    msg_attachment ai = None ->
    saving cur assistant (msg_content ai) None w arows am ->
    ui w2 = append_messages [ai] (adopt created (ui w)) ->
    grows w w2 (new_ids created) (urows ++ arows) objs ->
    steps_run activeId content file w (Returned tt) w2
      (pre ++ um ++ sm ++ gm ++ am).

(** What the [catch] block adds to the marks of a run. *)
Definition reported (r : Outcome unit) : list Mark :=
  match r with
  | Returned _ => []
  | Thrown err =>
      [Logged ""; Toasted ("Erro ao processar mensagem: " ++ err) toast_error]
  end.

(** ** Saving and loading a history *)

(** What [saveMessageToDb] is given besides the conversation id. *)
Definition Item : Type := (Role * JSON * option Attachment)%type.

(** The calls [saveMessageToDb cid ...] for [items], one after the other. *)
Fixpoint save_all (cid : string) (items : list Item) : Prog unit :=
  match items with
  | [] => Ret tt
  | (role, content, info) :: rest =>
      saveMessageToDb cid role content info ;;
      save_all cid rest
  end.

(** What of a loaded message was supplied when it was saved. *)
Definition item_of (m : ChatMessage) : Item :=
  (msg_role m, msg_content m, msg_attachment m).

(** The rows of [chat_messages] stand in the order of their [created_at],
    none of which is ahead of the clock. *)
Definition settled (b : Backend) : Prop :=
  StronglySorted (fun x y => row_created_at x <= row_created_at y)
    (chat_messages_tbl b) /\
  Forall (fun x => row_created_at x <= clock b) (chat_messages_tbl b).

(** ** Sends in flight *)

(** The requests that set the busy flag. *)
Definition writes_busy {X : Type} (e : Eff X) : bool :=
  match e with
  | SetIsTyping _ => true
  | _ => false
  end.

Definition ended {A : Type} (p : Prog A) : bool :=
  match p with
  | Vis _ _ => false
  | _ => true
  end.

(** [p] never sets the busy flag. *)
Inductive quiet {A : Type} : Prog A -> Prop :=
| quiet_ret (a : A) : quiet (Ret a)
| quiet_throw (e : Error) : quiet (Throw e)
| quiet_vis (X : Type) (e : Eff X) (k : X -> Prog A) :
    writes_busy e = false ->
    (forall x, quiet (k x)) ->
    quiet (Vis e k).

(** [p] holds the busy flag: it does not set it before its last request,
    which clears it. *)
Inductive holding {A : Type} : Prog A -> Prop :=
| holding_vis (X : Type) (e : Eff X) (k : X -> Prog A) :
    writes_busy e = false ->
    (forall x, holding (k x)) ->
    holding (Vis e k)
| holding_clear (k : unit -> Prog A) :
    (forall x, ended (k x) = true) ->
    holding (Vis (SetIsTyping false) k).

(** [p] runs to its end in one task, without setting the busy flag. *)
Inductive instant {A : Type} : Prog A -> Prop :=
| instant_ret (a : A) : instant (Ret a)
| instant_throw (e : Error) : instant (Throw e)
| instant_vis (X : Type) (e : Eff X) (k : X -> Prog A) :
    is_async e = false ->
    writes_busy e = false ->
    (forall x, instant (k x)) ->
    instant (Vis e k).

(** [p] has not suspended yet: it ends without setting the busy flag, or
    raises the flag and goes on holding it. *)
Inductive arming {A : Type} : Prog A -> Prop :=
| arming_ret (a : A) : arming (Ret a)
| arming_throw (e : Error) : arming (Throw e)
| arming_vis (X : Type) (e : Eff X) (k : X -> Prog A) :
    is_async e = false ->
    writes_busy e = false ->
    (forall x, arming (k x)) ->
    arming (Vis e k)
| arming_set (k : unit -> Prog A) :
    (forall x, holding (k x)) ->
    arming (Vis (SetIsTyping true) k).

(** One task of the event loop: [p] runs until it ends or reaches a request
    that suspends it. *)
Fixpoint settle {A : Type} (p : Prog A) (w : World) : Prog A * World :=
  match p with
  | Vis e k =>
      if is_async e then (p, w)
      else let (x, w1) := handle e w in settle (k x) w1
  | _ => (p, w)
  end.

(** The task that runs when the answer to the request of a suspended [p]
    arrives. *)
Definition resume {A : Type} (p : Prog A) (w : World) : Prog A * World :=
  match p with
  | Vis e k => let (x, w1) := handle e w in settle (k x) w1
  | _ => (p, w)
  end.

Definition keep {A : Type} (p : Prog A) : list (Prog A) :=
  if ended p then [] else [p].

(** The view and the sends suspended on a request. *)
Record System : Type := {
  world : World;
  in_flight : list (Prog unit)
}.

(** What can happen next: the user invokes the send action; a suspended
    send receives its answer; or anything else changes the world, none of
    which touches the busy flag ([setIsTyping] is called nowhere but in
    [handleSendMessage]).  Each task runs to its end or to its next
    suspension before another starts, and the handler invoked is the one of
    the latest render, so that it reads the state as it then is. *)
Inductive sys_step : System -> System -> Prop :=
| step_send (w : World) (ps : list (Prog unit)) :
    sys_step {| world := w; in_flight := ps |}
      {| world := snd (settle handleSendMessage w);
         in_flight := (keep (fst (settle handleSendMessage w)) ++ ps)%list |}
| step_answer (w : World) (ps1 : list (Prog unit)) (p : Prog unit)
    (ps2 : list (Prog unit)) :
    sys_step {| world := w; in_flight := (ps1 ++ p :: ps2)%list |}
      {| world := snd (resume p w);
         in_flight := (ps1 ++ keep (fst (resume p w)) ++ ps2)%list |}
| step_other (w w' : World) (ps : list (Prog unit)) :
    isTyping (ui w') = isTyping (ui w) ->
    sys_step {| world := w; in_flight := ps |} {| world := w'; in_flight := ps |}.

(** The states the view can reach from [w0] with no send in flight. *)
Inductive reachable (w0 : World) : System -> Prop :=
| reach_start : reachable w0 {| world := w0; in_flight := [] |}
| reach_step (s s' : System) :
    reachable w0 s -> sys_step s s' -> reachable w0 s'.

(** While the view runs, the busy flag is up exactly when a send is in
    flight, there is never more than one, and it holds the flag. *)
Definition guarded (s : System) : Prop :=
  Forall holding (in_flight s) /\
  length (in_flight s) <= 1 /\
  (isTyping (ui (world s)) = true <-> in_flight s <> []).

(** The state after the send action is invoked once from [w]. *)
Definition after_send (s : System) : System :=
  {| world := snd (settle handleSendMessage (world s));
     in_flight := (keep (fst (settle handleSendMessage (world s))) ++ in_flight s)%list |}.

Definition idle (w : World) : System := {| world := w; in_flight := [] |}.

(** ** Sample worlds *)

(** A body whose [reply] field is the empty string. *)
Definition body_empty_reply : JSON := JObj [("reply", JStr ""); ("output", JStr "ok")].

(** A backend that accepts every request, and a webhook that always gives
    the same [answer]. *)
Definition quiet_env (answer : Response + Error) : Env :=
  {| conv_insert_error := fun _ _ _ => None;
     conv_select_error := fun _ _ => None;
     conv_delete_error := fun _ _ => None;
     msg_select_error := fun _ _ => None;
     msg_insert_error := fun _ _ _ _ => None;
     upload_error := fun _ _ _ => None;
     fresh_id := fun b => "id" ++ nat_to_string (clock b);
     public_url := fun key => "https://storage/" ++ key;
     fetch_result := fun _ _ _ => answer;
     data_url := fun f => inl ("data:" ++ file_type f ++ ";base64," ++ file_bytes f);
     object_url := fun _ f => "blob:" ++ file_name f |}.

Definition empty_chat : ChatState :=
  {| messages := []; inputValue := ""; isTyping := false; selectedFile := None;
     conversations := []; activeConversationId := None; fileInputValue := None |}.

Definition empty_backend (s : option User) : Backend :=
  {| session := s; conversations_tbl := []; chat_messages_tbl := [];
     bucket := []; clock := 0 |}.

Definition ok_response (data : JSON) : Response :=
  {| resp_ok := true; resp_statusText := "OK"; resp_json := Some data |}.

Definition world_of (st : ChatState) (s : option User) (answer : Response + Error) : World :=
  {| ui := st; backend := empty_backend s; env := quiet_env answer |}.

Definition alice : User := {| user_id := "u1"; user_email := "alice@example.com" |}.

Definition plain_payload : Payload :=
  {| p_user_id := "u1"; p_message := "oi"; p_conversation_id := "c1";
     p_file_content_base64 := None; p_file_type := None; p_file_name := None |}.


(** The same surroundings, with a bucket that refuses every upload. *)
Definition refusing_uploads (e : Env) : Env :=
  {| conv_insert_error := conv_insert_error e;
     conv_select_error := conv_select_error e;
     conv_delete_error := conv_delete_error e;
     msg_select_error := msg_select_error e;
     msg_insert_error := msg_insert_error e;
     upload_error := fun _ _ _ => Some "Payload too large";
     fresh_id := fresh_id e;
     public_url := public_url e;
     fetch_result := fetch_result e;
     data_url := data_url e;
     object_url := object_url e |}.

(** A chat about to send [text] with [file] in the conversation [active]. *)
Definition chat_with (text : string) (file : option File) (active : option string)
  : ChatState :=
  {| messages := []; inputValue := text; isTyping := false; selectedFile := file;
     conversations := []; activeConversationId := active;
     fileInputValue := Some "extrato.png" |}.

Definition photo : File :=
  {| file_name := "extrato.png"; file_type := "image/png"; file_bytes := "iVBORw0KGgo=" |}.

Definition greeting : JSON := JObj [("reply", JStr "Como posso ajudar?")].

(** A signed-in user's first message, to a webhook that is unreachable. *)
Definition world_offline : World :=
  world_of (chat_with "oi" None None) (Some alice) (inr "Failed to fetch").


(** A signed-in user's first message, to a webhook that answers. *)
Definition world_first_message : World :=
  world_of (chat_with "oi" None None) (Some alice) (inl (ok_response greeting)).

(** A message with a file, to a bucket that refuses it. *)
Definition world_upload_refused : World :=
  {| ui := chat_with "segue o extrato" (Some photo) (Some "c1");
     backend := empty_backend (Some alice);
     env := refusing_uploads (quiet_env (inl (ok_response greeting))) |}.

(** A message with a file in an open conversation after the session has
    gone. *)
Definition world_upload_signed_out : World :=
  world_of (chat_with "segue o extrato" (Some photo) (Some "c1")) None
    (inl (ok_response greeting)).

Definition world_signed_in : World :=
  world_of empty_chat (Some alice) (inr "Failed to fetch").


(* ================================================================== *)
(** * Part I, continued. The rest of the code                          *)
(* ================================================================== *)

(** ** lib/utils.ts: the other masks *)

(** [value.replace(/^(\d{2})(\d)/g, "($1) $2")]: anchored at the start, the
    pattern matches once at most. *)
Definition paren_area_code (s : string) : string :=
  match s with
  | String a (String b (String c rest)) =>
      if is_digit a && is_digit b && is_digit c
      then String "(" (String a (String b (String ")" (String " " (String c rest)))))
      else s
  | _ => s
  end.

(** Where [/(\d)(\d{4})$/] matches at the head: five digits, and then the
    end of the string. *)
Definition five_digits_left (s : string) : bool :=
  match s with
  | String a t => is_digit a && (String.length t =? 4) && all_digits t
  | EmptyString => false
  end.

(** [s.replace(/(\d)(\d{4})$/, "$1-$2")] *)
Fixpoint dash_before_last_four (s : string) : string :=
  match s with
  | EmptyString => EmptyString
  | String a t =>
      if five_digits_left s then String a (String "-" t)
      else String a (dash_before_last_four t)
  end.

Definition maskPhone (value : string) : string :=
  dash_before_last_four (paren_area_code (digits_only value)).

(** [s.replace(/^(\d{5})(\d)/, "$1-$2")] *)
Definition dash_after_five (s : string) : string :=
  match s with
  | String a (String b (String c (String d (String e (String f rest))))) =>
      if is_digit a && is_digit b && is_digit c && is_digit d && is_digit e
         && is_digit f
      then String a (String b (String c (String d (String e
             (String "-" (String f rest))))))
      else s
  | _ => s
  end.

(** [substr(0, 9)] closes the chain. *)
Definition maskCEP (value : string) : string :=
  String.substring 0 9 (dash_after_five (digits_only value)).

Definition maskNumbersOnly (value : string) : string := digits_only value.

(** ** features/onboarding/Step2Address.tsx *)

(** The guard of [handleCepBlur]: [rawCep && rawCep.length === 8], for
    [rawCep = cepValue?.replace(/\D/g, '')]; [None] is an unset field. *)
Definition cep_lookup_due (cepValue : option string) : bool :=
  match cepValue with
  | None => false
  | Some v =>
      let rawCep := digits_only v in
      negb (String.eqb rawCep "") && (String.length rawCep =? 8)
  end.

(** ** features/onboarding/OnboardingWizard.tsx: the rules of the schemas
    on the masked fields ([z.string().min(n)] counts code units) *)

(** [phone: z.string().min(14, ...)] *)
Definition step1Schema_phone (phone : string) : bool :=
  14 <=? String.length phone.

(** [cpf: z.string().min(11, ...).refine(validateCPF, ...)] *)
Definition step1Schema_cpf (cpf : string) : bool :=
  (11 <=? String.length cpf) && validateCPF cpf.

(** [cep: z.string().min(9, ...)] *)
Definition step2Schema_cep (cep : string) : bool :=
  9 <=? String.length cep.

(** [const cpfLimpo = data.cpf.replace(/\D/g, '')] of [onSubmit]: what is
    sent to the duplicate check and stored in the profile. *)
Definition cpfLimpo (cpf : string) : string := digits_only cpf.

(** ** features/chat/ChatView.tsx: the other handlers and the effects *)

Definition welcome_text : string :=
  "Olá! Sou seu assistente virtual da Suporte Offshore. Como posso ajudar você hoje com seus investimentos?".

Definition welcome (stamp : nat) : ChatMessage :=
  {| msg_id := "welcome";
     msg_role := assistant;
     msg_content := JStr welcome_text;
     msg_timestamp := stamp;
     msg_attachment := None |}.

(** The second effect, run once when the view mounts. *)
Definition fetchConversations : Prog unit :=
  list <- getConversations ;;
  perform (SetConversations (fun _ => list)).

(** The third effect, run whenever [activeConversationId] changes, with the
    value of the render that scheduled it. *)
Definition loadMessages (activeId : option string) : Prog unit :=
  match activeId with
  | Some id =>
      if String.eqb id ""
      then stamp <- perform DateNow ;; perform (SetMessages (fun _ => [welcome stamp]))
      else
        history <- loadChatHistory id ;;
        perform (SetMessages (fun _ => history))
  | None =>
      stamp <- perform DateNow ;;
      perform (SetMessages (fun _ => [welcome stamp]))
  end.

(** [handleFileSelect], given [e.target.files]: [None] for [null]. *)
Definition handleFileSelect (files : option (list File)) : Prog unit :=
  match files with
  | Some (f :: _) => perform (SetSelectedFile (Some f))
  | _ => Ret tt
  end.

(** [handleNewConversation]; the sidebar it also closes is not part of
    [ChatState]. *)
Definition handleNewConversation : Prog unit :=
  perform (SetActiveConversationId None).

(** [activeConversationId === id] *)
Definition is_active (activeId : option string) (id : string) : bool :=
  match activeId with
  | Some a => String.eqb a id
  | None => false
  end.

(** [handleDeleteConversation]; the call of [stopPropagation] on the DOM
    event is left out.  [ReadState] gives the [activeConversationId] the
    handler's closure holds. *)
Definition handleDeleteConversation (id : string) : Prog unit :=
  st <- perform ReadState ;;
  success <- deleteConversation id ;;
  if success then
    perform (SetConversations
               (fun prev => filter (fun c => negb (String.eqb (conv_id c) id)) prev)) ;;
    (if is_active (activeConversationId st) id
     then perform (SetActiveConversationId None)
     else Ret tt) ;;
    perform (Toast "Conversa excluída." toast_info)
  else perform (Toast "Erro ao excluir conversa." toast_error).

(** ** components/ui/Toaster.tsx *)

Record ToastItem : Type := {
  toast_message : string;
  toast_type : ToastType;
  toast_id : nat
}.

(** The list of toasts shown, and the timers armed, each with the [id] its
    callback closes over. *)
Record Toasts : Type := {
  toasts : list ToastItem;
  timers : list nat
}.

(** [handleToast], for an event with [detail = { message, type }] that
    arrives when [Date.now()] is [now]. *)
Definition handleToast (message : string) (type : ToastType) (now : nat)
    (s : Toasts) : Toasts :=
  let newToast := {| toast_message := message; toast_type := type; toast_id := now |} in
  {| toasts := (toasts s ++ [newToast])%list;
     timers := (timers s ++ [now])%list |}.

(** The callback of [setTimeout], for the timer at position [i]. *)
Definition expire (i : nat) (s : Toasts) : Toasts :=
  match nth_error (timers s) i with
  | Some id =>
      {| toasts := filter (fun t => negb (toast_id t =? id)) (toasts s);
         timers := (firstn i (timers s) ++ skipn (S i) (timers s))%list |}
  | None => s
  end.

(** What happens to the [Toaster] once mounted. *)
Inductive toaster_step : Toasts -> Toasts -> Prop :=
| toaster_shows (message : string) (type : ToastType) (now : nat) (s : Toasts) :
    toaster_step s (handleToast message type now s)
| toaster_expires (i : nat) (s : Toasts) :
    i < length (timers s) ->
    toaster_step s (expire i s).

Inductive toaster_reaches : Toasts -> Prop :=
| toaster_mounted : toaster_reaches {| toasts := []; timers := [] |}
| toaster_next (s s' : Toasts) :
    toaster_reaches s -> toaster_step s s' -> toaster_reaches s'.

(** ** Observations on the gateways *)

Fixpoint contains_char (c : ascii) (s : string) : bool :=
  match s with
  | EmptyString => false
  | String a t => Ascii.eqb a c || contains_char c t
  end.

Definition is_post (m : Mark) : bool :=
  match m with Requested _ _ => true | _ => false end.

Definition history_label : string := "Erro ao carregar histórico:".
Definition list_label : string := "Erro ao buscar conversas:".
Definition delete_label : string := "Erro ao deletar conversa:".

(** ** More sample worlds *)

Definition thread (id title : string) (updated : nat) : Conversation :=
  {| conv_id := id; conv_user_id := "u1"; conv_title := title;
     conv_updated_at := updated |}.

Definition stored (id cid : string) (role : Role) (text : string) (created : nat)
  : MessageRow :=
  {| row_id := id; row_conversation_id := cid; row_user_id := "u1";
     row_role := role; row_content := JStr text; row_attachment_info := None;
     row_created_at := created |}.

(** A signed-in user with two conversations, the first of them open. *)
Definition world_two_threads : World :=
  {| ui :=
       {| messages := [message_of_row (stored "m1" "c1" user "oi" 2)];
          inputValue := ""; isTyping := false; selectedFile := None;
          conversations := [thread "c2" "Fundos" 5; thread "c1" "oi" 3];
          activeConversationId := Some "c1"; fileInputValue := None |};
     backend :=
       {| session := Some alice;
          conversations_tbl := [thread "c1" "oi" 3; thread "c2" "Fundos" 5];
          chat_messages_tbl :=
            [stored "m1" "c1" user "oi" 2;
             stored "m2" "c1" assistant "Como posso ajudar?" 3;
             stored "m3" "c2" user "Fundos" 5];
          bucket := []; clock := 10 |};
     env := quiet_env (inl (ok_response greeting)) |}.

(** ** Sends in which nothing fails *)

(** Surroundings in which nothing fails: the backend accepts every insert
    and upload and issues ids that are not empty, files can be read, and
    the webhook answers every post with a success whose body is JSON
    other than [null]. *)
Record accepting (e : Env) : Prop := Accepting {
  accepts_conversations : forall b uid title, conv_insert_error e b uid title = None;
  accepts_messages : forall b cid r c, msg_insert_error e b cid r c = None;
  accepts_uploads : forall b key f, upload_error e b key f = None;
  issues_ids : forall b, fresh_id e b <> "";
  reads_files : forall f, exists d, data_url e f = inl d;
  answers_posts : forall b url body, exists resp data,
      fetch_result e b url body = inl resp /\
      resp_ok resp = true /\ resp_json resp = Some data /\ data <> JNull
}.

(** STEPS 2 to 6 of the [try] block, once [currentId] is settled. *)
Definition remaining_steps
    (currentId : string) (contentToSend : string) (fileToSend : option File)
  : Prog unit :=
  publicAttachmentUrl <- upload_file fileToSend ;;
  saveMessageToDb currentId user (JStr contentToSend)
    (dbAttachmentInfo fileToSend publicAttachmentUrl) ;;
  reply_steps currentId contentToSend fileToSend.

(** A send suspended after STEP 1. *)
Definition send_after_conversation
    (currentId : string) (contentToSend : string) (fileToSend : option File)
  : Prog unit :=
  finally
    (try_catch (remaining_steps currentId contentToSend fileToSend) report)
    (perform (SetIsTyping false)).

(** The first three tasks of a send: up to the first request, then the
    answers to the two requests of [createConversation]. *)
Definition send_until_adopted (w : World) : Prog unit * World :=
  let (p1, w1) := settle handleSendMessage w in
  let (p2, w2) := resume p1 w1 in
  resume p2 w2.

(** ** The guard of the send action *)

(** Every code unit of [s] is white space. *)
Fixpoint all_space (s : string) : bool :=
  match s with
  | EmptyString => true
  | String c t => is_space c && all_space t
  end.

(** ** App.tsx *)

Inductive ViewState : Type :=
| login | onboarding | success | home | forgot_password | update_password | chat.

(** The callbacks [App] hands to the view it renders, and the
    [PASSWORD_RECOVERY] event of the auth listener. *)
Inductive AppEvent : Type :=
| onRegisterClick | onLoginSuccess | onForgotPasswordClick
| onBack | onSuccess | onCancel | onLogin | onNewRegister | onLogout
| passwordRecovery.

(** [currentView] after an event: [None] when the view rendered has no
    such callback.  [onLogout] stands for [handleLogout] once its sign-out
    has resolved. *)
Definition app_step (currentView : ViewState) (e : AppEvent) : option ViewState :=
  match e, currentView with
  | passwordRecovery, _ => Some update_password
  | onRegisterClick, login => Some onboarding
  | onLoginSuccess, login => Some chat
  | onForgotPasswordClick, login => Some forgot_password
  | onBack, forgot_password => Some login
  | onSuccess, update_password => Some login
  | onSuccess, onboarding => Some success
  | onCancel, onboarding => Some login
  | onLogin, success => Some login
  | onNewRegister, success => Some onboarding
  | onLogout, home => Some login
  | onLogout, chat => Some login
  | _, _ => None
  end.

(** The view after the events [es], from [v]; an event the view has no
    callback for is dropped.  The first render shows [login], or
    [update_password] when the location's hash asks for it. *)
Fixpoint app_run (v : ViewState) (es : list AppEvent) : ViewState :=
  match es with
  | [] => v
  | e :: rest =>
      app_run (match app_step v e with Some v' => v' | None => v end) rest
  end.

(** ** features/onboarding/OnboardingWizard.tsx: [onSubmit] *)

Record OnboardingFormData : Type := {
  email : string; password : string; firstName : string; lastName : string;
  dob : string; phone : string; cpf : string; rg : string;
  issuingAuthority : string;
  cep : string; street : string; number : string; complement : option string;
  neighborhood : string; city : string; state : string
}.

Record ProfilePayload : Type := {
  pp_id : string; pp_nome : string; pp_sobrenome : string;
  pp_data_nascimento : option string; pp_telefone : string; pp_cpf : string;
  pp_rg : string; pp_orgao_emissor : string; pp_cep : string; pp_rua : string;
  pp_numero : string; pp_complemento : option string; pp_bairro : string;
  pp_municipio : string; pp_uf : string
}.

(** [x || null] for an optional string. *)
Definition or_null (x : option string) : option string :=
  match x with
  | Some s => if String.eqb s "" then None else Some s
  | None => None
  end.

Definition profilePayload (id : string) (data : OnboardingFormData) : ProfilePayload :=
  {| pp_id := id;
     pp_nome := firstName data;
     pp_sobrenome := lastName data;
     pp_data_nascimento := or_null (Some (dob data));
     pp_telefone := digits_only (phone data);
     pp_cpf := cpfLimpo (cpf data);
     pp_rg := digits_only (rg data);
     pp_orgao_emissor := issuingAuthority data;
     pp_cep := digits_only (cep data);
     pp_rua := street data;
     pp_numero := number data;
     pp_complemento := or_null (complement data);
     pp_bairro := neighborhood data;
     pp_municipio := city data;
     pp_uf := state data |}.

(** What a call of the BaaS client resolves to: [{ data, error: null }],
    [{ error }] with the error's [message] and [details], or a rejected
    promise. *)
Inductive Answer (A : Type) : Type :=
| Data (a : A)
| Failed (message : string) (details : option string)
| Rejected (e : Error).

Arguments Data {A} a.
Arguments Failed {A} message details.
Arguments Rejected {A} e.

(** The answers [onSubmit] gets: whether the CPF exists, the id of the
    user signed up ([None] for a missing user or id), the profile
    insert. *)
Record SubmitAnswers : Type := {
  duplicate_check : Answer bool;
  sign_up : Answer (option string);
  profile_insert : Answer unit
}.

(** What [onSubmit] does that can be seen from outside; its calls of
    [console.log] are left out. *)
Inductive SubmitAction : Type :=
| SetIsSubmitting (b : bool)
| CheckDuplicate (cpf_input : string)
| SignUp (email password first_name last_name : string)
| InsertProfile (payload : ProfilePayload)
| ErrorLogged (label : string)
| ShowToast (message : string) (kind : ToastType)
| OnSuccess.

(** [haystack.includes(needle)] *)
Fixpoint includes (needle haystack : string) : bool :=
  String.prefix needle haystack ||
  match haystack with
  | EmptyString => false
  | String _ rest => includes needle rest
  end.

(** How a block ends: normally, by [return], or by a [throw]. *)
Inductive Exit : Type :=
| Done
| Returns
| Throws (e : Error).

(** The [try] block of [onSubmit], after the duplicate check. *)
Definition after_check (data : OnboardingFormData) (ans : SubmitAnswers)
  : list SubmitAction * Exit :=
  let request :=
    SignUp (email data) (password data) (firstName data) (lastName data) in
  match sign_up ans with
  | Rejected e => ([request], Throws e)
  | Failed message _ =>
      ([request],
       Throws (if includes "already registered" message
               then "Este e-mail já está cadastrado."
               else message))
  | Data None =>
      ([request], Throws "Erro crítico: ID do usuário não retornado pelo Auth.")
  | Data (Some id) =>
      if String.eqb id ""
      then ([request], Throws "Erro crítico: ID do usuário não retornado pelo Auth.")
      else
        let insert := InsertProfile (profilePayload id data) in
        match profile_insert ans with
        | Rejected e => ([request; insert], Throws e)
        | Failed message details =>
            let errorMsg := if String.eqb message "" then "Erro desconhecido" else message in
            let errorDetails :=
              match or_null details with
              | Some d => " (" ++ d ++ ")"
              | None => ""
              end in
            ([request; insert;
              ErrorLogged "ERRO COMPLETO DO SUPABASE (Profile Insert):"],
             Throws ("Erro ao salvar dados: " ++ errorMsg ++ errorDetails))
        | Data _ =>
            ([request; insert;
              ShowToast "Cadastro realizado com sucesso!" toast_success; OnSuccess],
             Done)
        end
  end.

(** The [try] block of [onSubmit]. *)
Definition submit_steps (data : OnboardingFormData) (ans : SubmitAnswers)
  : list SubmitAction * Exit :=
  let check := CheckDuplicate (cpfLimpo (cpf data)) in
  match duplicate_check ans with
  | Rejected e => ([check], Throws e)
  | Failed message _ =>
      ([check], Throws ("Erro na verificação de documentos: " ++ message))
  | Data true =>
      ([check;
        ShowToast "Este CPF já possui cadastro em nosso sistema." toast_error;
        SetIsSubmitting false],
       Returns)
  | Data false =>
      let (acts, exit) := after_check data ans in (check :: acts, exit)
  end.

(** [onSubmit]: the [try] block, the [catch] block when it throws, and
    the [finally] block on every way out. *)
Definition onSubmit (data : OnboardingFormData) (ans : SubmitAnswers)
  : list SubmitAction :=
  let (acts, exit) := submit_steps data ans in
  (SetIsSubmitting true :: acts ++
   match exit with
   | Throws e =>
       [ErrorLogged "Erro capturado no submit:";
        ShowToast (if String.eqb e "" then "Ocorreu um erro inesperado." else e)
          toast_error]
   | _ => []
   end ++
   [SetIsSubmitting false])%list.

(** What the properties of [onSubmit] speak about. *)
Definition is_toast (a : SubmitAction) : bool :=
  match a with ShowToast _ _ => true | _ => false end.

Definition is_success_toast (a : SubmitAction) : bool :=
  match a with ShowToast _ toast_success => true | _ => false end.

Definition is_sign_up (a : SubmitAction) : bool :=
  match a with SignUp _ _ _ _ => true | _ => false end.

Definition is_insert (a : SubmitAction) : bool :=
  match a with InsertProfile _ => true | _ => false end.

Definition is_on_success (a : SubmitAction) : bool :=
  match a with OnSuccess => true | _ => false end.

(** A form filled in through the masks. *)
Definition ana : OnboardingFormData :=
  {| email := "ana@example.com"; password := "segredo"; firstName := "Ana";
     lastName := "Lima"; dob := "1990-01-31"; phone := maskPhone "11987654321";
     cpf := maskCPF "52998224725"; rg := "12.345.678-9"; issuingAuthority := "SSP";
     cep := maskCEP "01310100"; street := "Av. Paulista"; number := "1000";
     complement := None; neighborhood := "Bela Vista"; city := "São Paulo";
     state := "SP" |}.

(** ** lib/loggingService.ts *)

Record IpWhoIsResponse : Type := {
  ip_success : bool;
  ip_message : option string;
  ip : string;
  ip_city : string;
  region_code : string;
  country_code : string
}.

(** What the lookup at [ipwho.is] comes to: [fetch] rejects, the response
    is not a success, reading its body throws, or a body is read. *)
Inductive IpAnswer : Type :=
| IpRejected (e : Error)
| IpNotOk
| IpUnreadable (e : Error)
| IpBody (data : IpWhoIsResponse).

Record AccessLog : Type := {
  log_user_id : string;
  device_type : string;
  browser : string;
  ip_address : string;
  location : string
}.

Inductive LogAction : Type :=
| AccessWarned (label : string)
| AccessInserted (row : AccessLog)
| AccessFailed (label : string)
| AccessNoted (label : string).

(** ASCII letters in lower case, for the [i] flag. *)
Definition lower (c : ascii) : ascii :=
  let n := nat_of_ascii c in
  if (65 <=? n) && (n <=? 90) then ascii_of_nat (n + 32) else c.

Fixpoint lower_string (s : string) : string :=
  match s with
  | EmptyString => EmptyString
  | String c t => String (lower c) (lower_string t)
  end.

(** [/Android|webOS|iPhone|iPad|iPod|BlackBerry|IEMobile|Opera Mini/i.test(userAgent)] *)
Definition isMobile (userAgent : string) : bool :=
  existsb (fun word => includes (lower_string word) (lower_string userAgent))
    ["Android"; "webOS"; "iPhone"; "iPad"; "iPod"; "BlackBerry"; "IEMobile";
     "Opera Mini"].

Definition browserName (userAgent : string) : string :=
  if includes "Firefox" userAgent then "Mozilla Firefox"
  else if includes "SamsungBrowser" userAgent then "Samsung Internet"
  else if includes "Opera" userAgent || includes "OPR" userAgent then "Opera"
  else if includes "Trident" userAgent then "Microsoft Internet Explorer"
  else if includes "Edge" userAgent then "Microsoft Edge"
  else if includes "Chrome" userAgent then "Google Chrome"
  else if includes "Safari" userAgent then "Apple Safari"
  else "Desconhecido".

(** The inner [try] of [registerAccessLog] with its [catch]: what is
    logged, and [ipAddress] and [location] as they are left. *)
Definition locate (lookup : IpAnswer) : list LogAction * (string * string) :=
  let unknown := ("0.0.0.0", "Desconhecido") in
  let warned :=
    [AccessWarned "Falha ao obter localização (provável AdBlock ou erro de rede):"] in
  match lookup with
  | IpRejected _ => (warned, unknown)
  | IpNotOk => ([], unknown)
  | IpUnreadable _ => (warned, unknown)
  | IpBody data =>
      if ip_success data
      then ([], (ip data,
                 ip_city data ++ ", " ++ region_code data ++ " - " ++ country_code data))
      else ([AccessWarned "API de IP retornou sucesso falso:"], unknown)
  end.

(** The outer [try] block of [registerAccessLog]. *)
Definition access_steps (userId userAgent : string) (lookup : IpAnswer)
    (insert : Answer unit) : list LogAction * Exit :=
  let (warnings, place) := locate lookup in
  let (ipAddress, loc) := place in
  let row :=
    {| log_user_id := userId;
       device_type := if isMobile userAgent then "Mobile" else "Desktop";
       browser := browserName userAgent;
       ip_address := ipAddress;
       location := loc |} in
  match insert with
  | Rejected e => ((warnings ++ [AccessInserted row])%list, Throws e)
  | Failed _ _ =>
      ((warnings ++ [AccessInserted row;
                     AccessFailed "Erro ao salvar log de acesso:"])%list, Done)
  | Data _ =>
      ((warnings ++ [AccessInserted row;
                     AccessNoted "Acesso registrado com sucesso:"])%list, Done)
  end.

Definition registerAccessLog (userId userAgent : string) (lookup : IpAnswer)
    (insert : Answer unit) : list LogAction * Exit :=
  let (acts, exit) := access_steps userId userAgent lookup insert in
  match exit with
  | Throws _ => ((acts ++ [AccessFailed "Erro geral no serviço de log:"])%list, Done)
  | _ => (acts, exit)
  end.

Definition is_access_insert (a : LogAction) : bool :=
  match a with AccessInserted _ => true | _ => false end.

(** The lookup gave a place. *)
Definition located (lookup : IpAnswer) : option IpWhoIsResponse :=
  match lookup with
  | IpBody data => if ip_success data then Some data else None
  | _ => None
  end.

(** ** What a run asks of the message list, the webhook and the session *)

(** The updates of the message list requested in a run, in order. *)
Definition list_update (ev : Event) : list (list ChatMessage -> list ChatMessage) :=
  match ev with
  | Ev e _ =>
      match e with
      | SetMessages f => [f]
      | _ => []
      end
  end.

Definition list_updates (t : list Event) : list (list ChatMessage -> list ChatMessage) :=
  flat_map list_update t.

(** [f] is [prev => [...prev, m]]. *)
Definition appends (m : ChatMessage) (f : list ChatMessage -> list ChatMessage) : Prop :=
  forall prev, f prev = (prev ++ [m])%list.

(** The POSTs to the webhook made in a run, each with its answer. *)
Definition posts (t : list Event) : list Mark := filter is_post (marks t).

(** [FileReader] can read the file to inline, if there is one. *)
Definition readable (e : Env) (file : option File) : bool :=
  match file with
  | Some f => match data_url e f with inl _ => true | inr _ => false end
  | None => true
  end.

(** The requests that show to the user or reach the webhook: updates of
    the message list, toasts, and the two requests of the reply gateway. *)
Definition notable {X : Type} (e : Eff X) : bool :=
  match e with
  | SetMessages _ | Toast _ _ | Fetch _ _ | ReadAsDataURL _ => true
  | _ => false
  end.

Definition noted (ev : Event) : bool :=
  match ev with Ev e _ => notable e end.

(** [p] makes none of these requests. *)
Inductive aside {A : Type} : Prog A -> Prop :=
| aside_ret (a : A) : aside (Ret a)
| aside_throw (e : Error) : aside (Throw e)
| aside_vis (X : Type) (e : Eff X) (k : X -> Prog A) :
    notable e = false ->
    (forall x, aside (k x)) ->
    aside (Vis e k).

(** [supabase.auth.getSession()] was called during the run. *)
Definition asks_session (t : list Event) : bool :=
  existsb (fun ev => match ev with
                     | Ev e _ => match e with GetSession => true | _ => false end
                     end) t.

(** ** Descriptors without a preview reference *)

(** [info] is absent or carries no [previewUrl]. *)
Definition no_preview (info : option Attachment) : Prop :=
  forall a, info = Some a -> att_previewUrl a = None.

(** ** Sample worlds with files that cannot be read *)

(** The same surroundings, with files that [FileReader] cannot read. *)
Definition unreadable_files (e : Env) : Env :=
  {| conv_insert_error := conv_insert_error e;
     conv_select_error := conv_select_error e;
     conv_delete_error := conv_delete_error e;
     msg_select_error := msg_select_error e;
     msg_insert_error := msg_insert_error e;
     upload_error := upload_error e;
     fresh_id := fresh_id e;
     public_url := public_url e;
     fetch_result := fetch_result e;
     data_url := fun _ => inr "NotReadableError";
     object_url := object_url e |}.

(** A message with a file that the bucket refuses and the browser cannot
    read. *)
Definition world_upload_unreadable : World :=
  {| ui := chat_with "segue o extrato" (Some photo) (Some "c1");
     backend := empty_backend (Some alice);
     env := unreadable_files (refusing_uploads (quiet_env (inl (ok_response greeting)))) |}.


(* ================================================================== *)
(** * Part II. Properties                                              *)
(* ================================================================== *)

Example maskCPF_full : maskCPF "52998224725" = "529.982.247-25".
Proof. reflexivity. Qed.

Example maskCPF_partial : maskCPF "1234567" = "123.456.7".
Proof. reflexivity. Qed.

Example maskCPF_overlong : maskCPF "12a34567890123" = "123.456.789-01".
Proof. reflexivity. Qed.

Example validateCPF_good : validateCPF "529.982.247-25" = true.
Proof. reflexivity. Qed.

Example validateCPF_bad : validateCPF "529.982.247-26" = false.
Proof. reflexivity. Qed.

(** ** Document validation *)

Lemma digits_only_all_digits (s : string) : all_digits (digits_only s) = true.
Proof.
  induction s as [|c t IH]; simpl; [reflexivity|].
  destruct (is_digit c) eqn:E; simpl; [rewrite E|]; exact IH.
Qed.

Lemma digits_only_fixed (s : string) : all_digits s = true -> digits_only s = s.
Proof.
  induction s as [|c t IH]; simpl; [reflexivity|].
  intros H. apply andb_prop in H. destruct H as [Hc Ht].
  rewrite Hc, (IH Ht). reflexivity.
Qed.

Lemma digits_only_idempotent (s : string) :
  digits_only (digits_only s) = digits_only s.
Proof. apply digits_only_fixed, digits_only_all_digits. Qed.

Lemma digit_not_dash (c : ascii) : is_digit c = true -> Ascii.eqb c "-" = false.
Proof.
  intros H. destruct (Ascii.eqb_spec c "-") as [->|]; [discriminate H|reflexivity].
Qed.

(** An 11-digit string is masked as [ddd.ddd.ddd-dd]; dropping the
    punctuation gives the digits back. *)
Lemma digits_only_maskCPF (d : string) :
  all_digits d = true -> String.length d = 11 ->
  digits_only (maskCPF d) = d.
Proof.
  intros Hd Hl.
  do 11 (destruct d as [|? d]; [discriminate Hl|]).
  destruct d; [|discriminate Hl].
  simpl in Hd.
  repeat match type of Hd with
         | (_ && _)%bool = true => apply andb_prop in Hd; destruct Hd as [? Hd]
         end.
  unfold maskCPF.
  repeat (simpl;
          repeat match goal with
                 | H : is_digit ?c = true |- context [is_digit ?c] => rewrite H
                 | H : is_digit ?c = true |- context [Ascii.eqb ?c "-"] =>
                     rewrite (digit_not_dash c H)
                 end).
  reflexivity.
Qed.

(** C9. For every digit [c], [validateCPF] rejects the string made of
    eleven copies of [c]; the rejection comes from the list of known
    invalid numbers, since each of these strings passes both check-digit
    tests. *)
Theorem validateCPF_rejects_repeated_digit (c : ascii) :
  is_digit c = true ->
  validateCPF (repeat_char c 11) = false /\ checksum_ok (repeat_char c 11) = true.
Proof.
  intros H.
  destruct c as [[] [] [] [] [] [] [] []];
    try discriminate H; split; vm_compute; reflexivity.
Qed.

Lemma validateCPF_rejects_repeated_digit_witness :
  is_digit "7" = true /\
  validateCPF "77777777777" = false /\ checksum_ok "77777777777" = true.
Proof.
  split; [reflexivity|].
  apply (validateCPF_rejects_repeated_digit "7"). reflexivity.
Defined.

(** C10. [validateCPF] looks only at the digits of its argument: it gives
    the same answer on [s] and on [s] with every other character removed.
    In particular the masked form that [maskCPF] produces from an 11-digit
    string is accepted exactly when the bare digits are. *)
Theorem validateCPF_digits_only :
  (forall s : string, validateCPF s = validateCPF (digits_only s)) /\
  (forall d : string,
      all_digits d = true -> String.length d = 11 ->
      validateCPF (maskCPF d) = validateCPF d).
Proof.
  assert (E : forall s, validateCPF s = validateCPF (digits_only s)).
  { intros s. unfold validateCPF. rewrite digits_only_idempotent. reflexivity. }
  split; [exact E|].
  intros d Hd Hl. rewrite (E (maskCPF d)), (digits_only_maskCPF d Hd Hl).
  reflexivity.
Qed.

Lemma validateCPF_digits_only_witness :
  all_digits "52998224725" = true /\ String.length "52998224725" = 11 /\
  validateCPF (maskCPF "52998224725") = validateCPF "52998224725".
Proof.
  split; [reflexivity|]. split; [reflexivity|].
  apply (proj2 validateCPF_digits_only); reflexivity.
Defined.

(** ** Running programs *)

Lemma exec_bind {A B : Type} (p : Prog A) (f : A -> Prog B) (w : World) :
  exec (bind p f) w =
  match exec p w with
  | (Returned a, w1, t1) =>
      let '(r, w2, t2) := exec (f a) w1 in (r, w2, (t1 ++ t2)%list)
  | (Thrown e, w1, t1) => (Thrown e, w1, t1)
  end.
Proof.
  revert w. induction p as [a|e|X e k IH]; intros w; simpl.
  - destruct (exec (f a) w) as [[r w2] t2]. reflexivity.
  - reflexivity.
  - destruct (handle e w) as [x w1]. rewrite IH.
    destruct (exec (k x) w1) as [[[a|err] w2] t1]; [|reflexivity].
    destruct (exec (f a) w2) as [[r w3] t2]. reflexivity.
Qed.

Lemma exec_try_catch {A : Type} (p : Prog A) (h : Error -> Prog A) (w : World) :
  exec (try_catch p h) w =
  match exec p w with
  | (Returned a, w1, t1) => (Returned a, w1, t1)
  | (Thrown e, w1, t1) =>
      let '(r, w2, t2) := exec (h e) w1 in (r, w2, (t1 ++ t2)%list)
  end.
Proof.
  revert w. induction p as [a|e|X e k IH]; intros w; simpl.
  - reflexivity.
  - destruct (exec (h e) w) as [[r w2] t2]. reflexivity.
  - destruct (handle e w) as [x w1]. rewrite IH.
    destruct (exec (k x) w1) as [[[a|err] w2] t1]; [reflexivity|].
    destruct (exec (h err) w2) as [[r w3] t2]. reflexivity.
Qed.

(** After [try { p } finally { q }] the world is the one [q] leaves, run
    from where [p] stopped, however [p] ended. *)
Lemma exec_finally {A : Type} (p : Prog A) (q : Prog unit) (w : World) :
  exec (finally p q) w =
  let '(r, w1, t1) := exec p w in
  let '(rq, w2, t2) := exec q w1 in
  (match rq with Returned _ => r | Thrown e => Thrown e end, w2, (t1 ++ t2)%list).
Proof.
  revert w. induction p as [a|e|X e k IH]; intros w; simpl.
  - rewrite exec_bind. destruct (exec q w) as [[[u|err] w2] t2]; simpl.
    + rewrite app_nil_r. reflexivity.
    + reflexivity.
  - rewrite exec_bind. destruct (exec q w) as [[[u|err] w2] t2]; simpl.
    + rewrite app_nil_r. reflexivity.
    + reflexivity.
  - destruct (handle e w) as [x w1]. rewrite IH.
    destruct (exec (k x) w1) as [[r w2] t1].
    destruct (exec q w2) as [[rq w3] t2]. reflexivity.
Qed.

(** ** Marks and growth *)

Lemma marks_app (t1 t2 : list Event) : marks (t1 ++ t2) = (marks t1 ++ marks t2)%list.
Proof.
  induction t1 as [|ev t1 IH]; simpl; [reflexivity|].
  destruct (digest ev); simpl; rewrite IH; reflexivity.
Qed.

Lemma grows_refl (w : World) : grows w w [] [] [].
Proof. constructor; rewrite ?app_nil_r; auto. Qed.

Lemma grows_trans (w w1 w2 : World) c1 c2 r1 r2 o1 o2 :
  grows w w1 c1 r1 o1 -> grows w1 w2 c2 r2 o2 ->
  grows w w2 (c1 ++ c2) (r1 ++ r2) (o1 ++ o2).
Proof.
  intros [E1 S1 C1 M1 B1 K1] [E2 S2 C2 M2 B2 K2]. constructor.
  - congruence.
  - congruence.
  - rewrite C2, C1, app_assoc. reflexivity.
  - rewrite M2, M1, app_assoc. reflexivity.
  - rewrite B2, B1, app_assoc. reflexivity.
  - lia.
Qed.

(** ** The gateways *)

Lemma touch_keeps_ids id now l : map conv_id (map (touch id now) l) = map conv_id l.
Proof.
  rewrite map_map. apply map_ext. intros c. unfold touch.
  destruct (String.eqb (conv_id c) id); reflexivity.
Qed.

(** Closes the fields of [grows] between two explicit worlds. *)
Ltac grows_now :=
  constructor; cbn;
  first [ reflexivity
        | symmetry; apply app_nil_r
        | rewrite map_app; reflexivity
        | rewrite touch_keeps_ids; symmetry; apply app_nil_r
        | auto with arith ].

Ltac finish_run :=
  cbn; do 3 eexists; split; [reflexivity|]; split; [reflexivity|]; split; [grows_now|].

Lemma saveMessageToDb_spec cid role content info w :
  exists rows w' t,
    exec (saveMessageToDb cid role content info) w = (Returned tt, w', t) /\
    ui w' = ui w /\ grows w w' [] rows [] /\
    saving cid role content info w rows (marks t).
Proof.
  unfold saveMessageToDb, perform. cbn.
  destruct (session (backend w)) as [u|] eqn:Hs.
  2:{ finish_run. constructor. exact Hs. }
  destruct (String.eqb_spec cid "") as [->|Hne].
  { finish_run. eapply saving_no_id; eauto. }
  cbn. destruct (msg_insert_error _ _ _ _ _) as [e|] eqn:Ins.
  { finish_run. eapply saving_refused; eauto. }
  finish_run. eapply saving_done; eauto.
Qed.

Lemma createConversation_spec title w :
  exists r convs w' t,
    exec (createConversation title) w = (Returned r, w', t) /\
    ui w' = ui w /\ grows w w' convs [] [] /\
    creation title w r convs (marks t) /\
    (forall c, r = Some c ->
       conversations_tbl (backend w') = (conversations_tbl (backend w) ++ [c])%list).
Proof.
  unfold createConversation, perform. cbn.
  destruct (session (backend w)) as [u|] eqn:Hs.
  2:{ cbn. do 4 eexists. split; [reflexivity|]. split; [reflexivity|].
      split; [grows_now|]. split; [constructor; exact Hs|discriminate]. }
  cbn. destruct (conv_insert_error _ _ _ _) as [e|] eqn:Ins.
  { cbn. do 4 eexists. split; [reflexivity|]. split; [reflexivity|].
    split; [grows_now|]. split; [eapply creation_rejected; eauto|discriminate]. }
  cbn. do 4 eexists. split; [reflexivity|]. split; [reflexivity|].
  split; [grows_now|].
  split; [eapply creation_done; eauto|].
  intros c E. injection E as <-. reflexivity.
Qed.

Lemma uploadChatAttachment_spec file w :
  exists r objs w' t,
    exec (uploadChatAttachment file) w = (Returned r, w', t) /\
    ui w' = ui w /\ grows w w' [] [] objs /\
    upload file w r objs (marks t).
Proof.
  unfold uploadChatAttachment, perform. cbn.
  destruct (session (backend w)) as [u|] eqn:Hs.
  2:{ cbn. do 4 eexists. split; [reflexivity|]. split; [reflexivity|].
      split; [grows_now|]. constructor; exact Hs. }
  cbn. destruct (upload_error _ _ _ _) as [e|] eqn:Up.
  { cbn. do 4 eexists. split; [reflexivity|]. split; [reflexivity|].
    split; [grows_now|]. eapply upload_rejected; eauto. }
  cbn. do 4 eexists. split; [reflexivity|]. split; [reflexivity|].
  split; [grows_now|]. eapply upload_done; eauto.
Qed.

Lemma js_or_first_truthy (data : JSON) :
  js_or (member data "reply")
    (js_or (member data "output")
       (match data with JStr _ => data | _ => JStr no_text_reply end)) =
  first_truthy_reply data.
Proof.
  unfold first_truthy_reply, truthy_member, js_or.
  destruct (member data "reply") as [v|]; [destruct (truthy v); [reflexivity|]|];
    (destruct (member data "output") as [v'|]; [destruct (truthy v'); reflexivity|reflexivity]).
Qed.

Lemma sendMessageToWebhook_spec message cid file w :
  exists r w' t pre,
    exec (sendMessageToWebhook message cid file) w = (r, w', t) /\
    ui w' = ui w /\ grows w w' [] [] [] /\ gateway_marks pre /\
    ((exists v, r = Returned v /\ marks t = pre) \/
     (exists e, r = Thrown e /\ marks t = (pre ++ [Logged webhook_label])%list)).
Proof.
  unfold sendMessageToWebhook, convertFileToBase64, perform, await. cbn.
  destruct file as [f|]; cbn.
  - destruct (data_url (env w) f) as [d|e] eqn:Hd; cbn.
    2:{ do 3 eexists. exists [FileRead]. split; [reflexivity|]. split; [reflexivity|].
        split; [grows_now|]. split; [split; [discriminate|reflexivity]|].
        right. eexists. split; reflexivity. }
    destruct (fetch_result _ _ _ _) as [resp|e] eqn:Hf; cbn.
    2:{ do 3 eexists. eexists [FileRead; Requested _ _]. split; [reflexivity|]. split; [reflexivity|].
        split; [grows_now|]. split; [split; [discriminate|reflexivity]|].
        right. eexists. split; reflexivity. }
    destruct (resp_ok resp) eqn:Hok; cbn.
    2:{ do 3 eexists. eexists [FileRead; Requested _ _]. split; [reflexivity|]. split; [reflexivity|].
        split; [grows_now|]. split; [split; [discriminate|reflexivity]|].
        right. eexists. split; reflexivity. }
    destruct (resp_json resp) as [data|] eqn:Hj; cbn.
    2:{ do 3 eexists. eexists [FileRead; Requested _ _]. split; [reflexivity|]. split; [reflexivity|].
        split; [grows_now|]. split; [split; [discriminate|reflexivity]|].
        right. eexists. split; reflexivity. }
    destruct data; cbn;
      (do 3 eexists; eexists [FileRead; Requested _ _]; split; [reflexivity|]; split; [reflexivity|];
       split; [grows_now|]; split; [split; [discriminate|reflexivity]|];
       first [ left; eexists; split; reflexivity | right; eexists; split; reflexivity ]).
  - destruct (fetch_result _ _ _ _) as [resp|e] eqn:Hf; cbn.
    2:{ do 3 eexists. eexists [Requested _ _]. split; [reflexivity|]. split; [reflexivity|].
        split; [grows_now|]. split; [split; [discriminate|reflexivity]|].
        right. eexists. split; reflexivity. }
    destruct (resp_ok resp) eqn:Hok; cbn.
    2:{ do 3 eexists. eexists [Requested _ _]. split; [reflexivity|]. split; [reflexivity|].
        split; [grows_now|]. split; [split; [discriminate|reflexivity]|].
        right. eexists. split; reflexivity. }
    destruct (resp_json resp) as [data|] eqn:Hj; cbn.
    2:{ do 3 eexists. eexists [Requested _ _]. split; [reflexivity|]. split; [reflexivity|].
        split; [grows_now|]. split; [split; [discriminate|reflexivity]|].
        right. eexists. split; reflexivity. }
    destruct data; cbn;
      (do 3 eexists; eexists [Requested _ _]; split; [reflexivity|]; split; [reflexivity|];
       split; [grows_now|]; split; [split; [discriminate|reflexivity]|];
       first [ left; eexists; split; reflexivity | right; eexists; split; reflexivity ]).
Qed.

Ltac pick_request H :=
  cbn in H;
  repeat match type of H with
         | _ \/ _ => destruct H as [H|H]
         | False => contradiction H
         | Logged _ = _ => discriminate H
         | FileRead = _ => discriminate H
         end;
  match type of H with
  | Requested _ _ = Requested _ _ => injection H as _ H
  end.

Lemma sendMessageToWebhook_reply message cid file w r w' t body resp data :
  exec (sendMessageToWebhook message cid file) w = (r, w', t) ->
  In (Requested body (inl resp)) (marks t) ->
  resp_ok resp = true -> resp_json resp = Some data -> data <> JNull ->
  r = Returned (first_truthy_reply data).
Proof.
  unfold sendMessageToWebhook, convertFileToBase64, perform, await. cbn.
  intros E HIn Hok Hj Hn. rewrite <- js_or_first_truthy.
  destruct file as [f|]; cbn in E.
  - destruct (data_url (env w) f) as [d|e]; cbn in E.
    2:{ inversion E; subst. pick_request HIn. }
    destruct (fetch_result _ _ _ _) as [resp'|e]; cbn in E.
    2:{ inversion E; subst. pick_request HIn. discriminate HIn. }
    destruct (resp_ok resp') eqn:Hok'; cbn in E.
    2:{ inversion E; subst. pick_request HIn. congruence. }
    destruct (resp_json resp') as [data'|] eqn:Hj'; cbn in E.
    2:{ inversion E; subst. pick_request HIn. congruence. }
    assert (data' = data) as ->.
    { destruct data'; cbn in E; inversion E; subst; pick_request HIn; congruence. }
    destruct data; cbn in E; inversion E; subst; first [reflexivity | contradiction Hn; reflexivity].
  - destruct (fetch_result _ _ _ _) as [resp'|e]; cbn in E.
    2:{ inversion E; subst. pick_request HIn. discriminate HIn. }
    destruct (resp_ok resp') eqn:Hok'; cbn in E.
    2:{ inversion E; subst. pick_request HIn. congruence. }
    destruct (resp_json resp') as [data'|] eqn:Hj'; cbn in E.
    2:{ inversion E; subst. pick_request HIn. congruence. }
    assert (data' = data) as ->.
    { destruct data'; cbn in E; inversion E; subst; pick_request HIn; congruence. }
    destruct data; cbn in E; inversion E; subst; first [reflexivity | contradiction Hn; reflexivity].
Qed.

(** ** The steps of the send pipeline *)

Lemma exec_perform {X : Type} (e : Eff X) (w : World) :
  exec (perform e) w =
  (Returned (fst (handle e w)), snd (handle e w), [Ev e (fst (handle e w))]).
Proof. unfold perform. simpl. destruct (handle e w). reflexivity. Qed.

Lemma saving_transfer cid role content info w1 w rows m :
  session (backend w1) = session (backend w) ->
  saving cid role content info w1 rows m -> saving cid role content info w rows m.
Proof.
  intros Hs H. destruct H; rewrite Hs in *;
    [ apply saving_no_session | eapply saving_no_id
    | eapply saving_refused | eapply saving_done ]; eauto.
Qed.

Lemma upload_transfer file w1 w r objs m :
  session (backend w1) = session (backend w) -> env w1 = env w ->
  upload file w1 r objs m -> upload file w r objs m.
Proof.
  intros Hs He H. destruct H; rewrite Hs, ?He in *;
    [ apply upload_no_session | eapply upload_rejected
    | eapply upload_done ]; eauto.
Qed.

Lemma ensure_conversation_spec activeId content w :
  exists r w' t,
    exec (ensure_conversation activeId content) w = (r, w', t) /\
    ((no_id activeId = true /\ r = Thrown creation_failed /\
      creation content w None [] (marks t) /\ ui w' = ui w /\ grows w w' [] [] [])
     \/
     (exists cur created,
        r = Returned (Some cur) /\
        resolution activeId content w cur created (marks t) /\
        ui w' = adopt created (ui w) /\ grows w w' (new_ids created) [] [])).
Proof.
  unfold ensure_conversation. destruct (no_id activeId) eqn:Hno.
  - rewrite exec_bind, exec_perform. cbn [handle fst snd].
    rewrite exec_bind.
    destruct (createConversation_spec content w)
      as (r & convs & w1 & t1 & E & Hui & Hg & Hc & Htbl).
    rewrite E. destruct r as [c|].
    + rewrite exec_bind, exec_perform. cbn [handle fst snd].
      rewrite exec_bind, exec_perform. cbn [handle fst snd exec].
      do 3 eexists. split; [reflexivity|]. right.
      exists (conv_id c), (Some c).
      inversion Hc; subst.
      split; [reflexivity|]. split.
      { cbn [app marks digest]. rewrite marks_app, app_nil_r.
        match goal with H : _ = marks t1 |- _ => rewrite <- H end.
        eapply resolution_created; eauto. }
      split.
      { cbn. rewrite Hui. reflexivity. }
      destruct Hg. constructor; cbn; auto.
    + cbn [exec]. do 3 eexists. split; [reflexivity|]. left.
      assert (convs = []) as -> by (inversion Hc; reflexivity).
      split; [reflexivity|]. split; [reflexivity|]. split.
      { cbn [app marks digest]. rewrite app_nil_r. exact Hc. }
      split; [exact Hui | exact Hg].
  - cbn [exec]. do 3 eexists. split; [reflexivity|]. right.
    destruct activeId as [cur|]; [|discriminate Hno].
    exists cur, None. split; [reflexivity|]. split.
    + cbn. apply resolution_active; [reflexivity|].
      intros ->. discriminate Hno.
    + split; [reflexivity|apply grows_refl].
Qed.

Lemma upload_file_spec file w :
  exists url objs w' t,
    exec (upload_file file) w = (Returned url, w', t) /\
    ui w' = ui w /\ grows w w' [] [] objs /\
    attaching file w url objs (marks t).
Proof.
  unfold upload_file. destruct file as [f|].
  - rewrite exec_bind.
    destruct (uploadChatAttachment_spec f w) as (r & objs & w1 & t1 & E & Hui & Hg & Hu).
    rewrite E.
    exists (kept_url r), objs, w1, t1. split.
    { destruct r as [u|]; cbn; [destruct (String.eqb u "")|]; cbn;
        rewrite app_nil_r; reflexivity. }
    split; [exact Hui|]. split; [exact Hg|].
    eapply attaching_file; eauto.
  - cbn. exists None, [], w, []. split; [reflexivity|]. split; [reflexivity|].
    split; [apply grows_refl|]. apply attaching_nothing. reflexivity.
Qed.

Lemma reply_steps_spec cur content file w :
  exists r w' t gm,
    exec (reply_steps cur content file) w = (r, w', t) /\
    gateway_marks gm /\
    ((exists err,
        r = Thrown err /\ ui w' = ui w /\ grows w w' [] [] [] /\
        marks t = (gm ++ [Logged webhook_label])%list)
     \/
     (exists ai arows am,
        r = Returned tt /\ msg_role ai = assistant /\ msg_attachment ai = None /\
        saving cur assistant (msg_content ai) None w arows am /\
        ui w' = append_messages [ai] (ui w) /\ grows w w' [] arows [] /\
        marks t = (gm ++ am)%list)).
Proof.
  unfold reply_steps. rewrite exec_bind.
  destruct (sendMessageToWebhook_spec content cur file w)
    as (r & w1 & t1 & gm & E & Hui & Hg & Hgm & Hr).
  rewrite E. destruct Hr as [(v & -> & Hm)|(err & -> & Hm)].
  - rewrite exec_bind, exec_perform. cbn [handle fst snd].
    rewrite exec_bind, exec_perform. cbn [handle fst snd].
    rewrite exec_bind, exec_perform. cbn [handle fst snd].
    set (ai := {| msg_id := nat_to_string (clock (backend w1) + 1);
                  msg_role := assistant; msg_content := v;
                  msg_timestamp := clock (backend w1); msg_attachment := None |}).
    match goal with
    | |- context [exec (saveMessageToDb cur assistant v None) ?w2] =>
        destruct (saveMessageToDb_spec cur assistant v None w2)
          as (arows & w3 & t3 & E3 & Hui3 & Hg3 & Hs3); rewrite E3
    end.
    exists (Returned tt), w3, (t1 ++ Ev DateNow (clock (backend w1)) ::
                                 Ev DateNow (clock (backend w1)) ::
                                 Ev (SetMessages (fun prev => (prev ++ [ai])%list)) tt :: t3)%list, gm.
    split; [reflexivity|]. split; [exact Hgm|]. right.
    exists ai, arows, (marks t3).
    split; [reflexivity|]. split; [reflexivity|]. split; [reflexivity|]. split.
    { eapply saving_transfer; [|exact Hs3]. cbn. apply Hg. }
    split.
    { rewrite Hui3. cbn. rewrite Hui. reflexivity. }
    split.
    { destruct Hg as [e1 s1 c1 m1 b1 k1], Hg3 as [e3 s3 c3 m3 b3 k3].
      cbn in *. constructor; try congruence.
      - rewrite c3, c1, !app_nil_r. reflexivity.
      - rewrite m3, m1, app_nil_r. reflexivity.
      - rewrite b3, b1, !app_nil_r. reflexivity.
      - lia. }
    rewrite marks_app, Hm. reflexivity.
  - exists (Thrown err), w1, t1, gm. split; [reflexivity|]. split; [exact Hgm|].
    left. exists err. auto.
Qed.

Lemma send_steps_spec activeId content file w :
  exists r w' t,
    exec (send_steps activeId content file) w = (r, w', t) /\
    steps_run activeId content file w r w' (marks t).
Proof.
  unfold send_steps. rewrite exec_bind.
  destruct (ensure_conversation_spec activeId content w) as (r1 & w1 & t1 & E1 & H1).
  rewrite E1.
  destruct H1 as [(Hno & -> & Hc & Hui1 & Hg1)|(cur & created & -> & Hres & Hui1 & Hg1)].
  { do 3 eexists. split; [reflexivity|].
    apply steps_creation_failed; assumption. }
  destruct (String.eqb_spec cur "") as [->|Hcur].
  { cbn [exec]. do 3 eexists. split; [reflexivity|].
    rewrite app_nil_r. eapply steps_null_id; eassumption. }
  rewrite exec_bind.
  destruct (upload_file_spec file w1) as (url & objs & w2 & t2 & E2 & Hui2 & Hg2 & Hat).
  rewrite E2. rewrite exec_bind.
  destruct (saveMessageToDb_spec cur user (JStr content) (dbAttachmentInfo file url) w2)
    as (urows & w3 & t3 & E3 & Hui3 & Hg3 & Hsv).
  rewrite E3.
  destruct (reply_steps_spec cur content file w3) as (r4 & w4 & t4 & gm & E4 & Hgm & H4).
  rewrite E4.
  assert (Hs1 : session (backend w1) = session (backend w)) by apply Hg1.
  assert (He1 : env w1 = env w) by apply Hg1.
  assert (Hs2 : session (backend w2) = session (backend w)).
  { rewrite <- Hs1. apply Hg2. }
  assert (Hs3 : session (backend w3) = session (backend w)).
  { rewrite <- Hs2. apply Hg3. }
  assert (Hat' : attaching file w url objs (marks t2)).
  { destruct Hat as [Hf|f r objs m Hf Hu].
    - apply attaching_nothing; exact Hf.
    - eapply attaching_file; [exact Hf|].
      exact (upload_transfer _ _ _ _ _ _ Hs1 He1 Hu). }
  assert (Hsv' : saving cur user (JStr content) (dbAttachmentInfo file url) w urows (marks t3)).
  { exact (saving_transfer _ _ _ _ _ _ _ _ Hs2 Hsv). }
  pose proof (grows_trans _ _ _ _ _ _ _ _ _ Hg1 Hg2) as G12.
  pose proof (grows_trans _ _ _ _ _ _ _ _ _ G12 Hg3) as G13.
  cbn [app] in G13. rewrite !app_nil_r in G13.
  destruct H4 as [(err & -> & Hui4 & Hg4 & Hm4)|
                  (ai & arows & am & -> & Hrole & Hatt & Hsa & Hui4 & Hg4 & Hm4)].
  - do 3 eexists. split; [reflexivity|].
    pose proof (grows_trans _ _ _ _ _ _ _ _ _ G13 Hg4) as G14.
    rewrite !app_nil_r in G14.
    rewrite !marks_app, Hm4.
    eapply steps_webhook_failed; eauto.
    congruence.
  - do 3 eexists. split; [reflexivity|].
    pose proof (grows_trans _ _ _ _ _ _ _ _ _ G13 Hg4) as G14.
    rewrite !app_nil_r in G14.
    rewrite !marks_app, Hm4.
    eapply steps_completed; eauto.
    + eapply saving_transfer; eauto.
    + rewrite Hui4, Hui3, Hui2, Hui1. reflexivity.
Qed.

Lemma show_optimistic_spec content file w :
  exists id stamp preview t,
    exec (show_optimistic content file) w =
    (Returned tt,
     set_ui {| messages :=
                 (messages (ui w) ++
                  [optimistic_message id content stamp file preview])%list;
               inputValue := "";
               isTyping := isTyping (ui w);
               selectedFile := None;
               conversations := conversations (ui w);
               activeConversationId := activeConversationId (ui w);
               fileInputValue :=
                 match fileInputValue (ui w) with
                 | Some _ => Some ""
                 | None => None
                 end |} w, t) /\
    marks t = [].
Proof.
  unfold show_optimistic, perform.
  destruct file as [f|]; [destruct (String.prefix "image/" (file_type f)) eqn:Hp|];
    cbn; rewrite ?Hp; cbn; do 4 eexists; split; reflexivity.
Qed.

Lemma handleSendMessage_run w :
  send_refused (ui w) = false ->
  exists opt r w2 t2 w' t,
    optimistic (ui w) opt /\
    steps_run (activeConversationId (ui w)) (inputValue (ui w)) (selectedFile (ui w))
      (set_ui (started (ui w) opt) w) r w2 (marks t2) /\
    exec handleSendMessage w = (Returned tt, w', t) /\
    w' = set_ui (set_typing false (ui w2)) w2 /\
    marks t = (marks t2 ++ reported r)%list.
Proof.
  intros Hgo. unfold handleSendMessage.
  rewrite exec_bind, exec_perform. cbn [handle fst snd]. rewrite Hgo.
  rewrite exec_bind.
  destruct (show_optimistic_spec (inputValue (ui w)) (selectedFile (ui w)) w)
    as (id & stamp & preview & t0 & E0 & Hm0).
  rewrite E0. rewrite exec_bind, exec_perform. cbn [handle fst snd ui set_ui isTyping
    messages inputValue selectedFile conversations activeConversationId fileInputValue
    backend env].
  rewrite exec_finally, exec_try_catch.
  set (opt := optimistic_message id (inputValue (ui w)) stamp (selectedFile (ui w)) preview).
  match goal with
  | |- context [exec (send_steps _ _ _) ?w1] =>
      change w1 with (set_ui (started (ui w) opt) w);
      destruct (send_steps_spec (activeConversationId (ui w)) (inputValue (ui w))
                  (selectedFile (ui w)) (set_ui (started (ui w) opt) w))
        as (r & w2 & t2 & E & Hrun)
  end.
  rewrite E.
  exists opt, r, w2, t2.
  destruct r as [[]|err].
  - rewrite exec_perform. cbn [handle fst snd].
    do 2 eexists. split; [do 3 eexists; reflexivity|]. split; [exact Hrun|].
    split; [reflexivity|]. split; [reflexivity|].
    rewrite !marks_app, Hm0. cbn. rewrite ?app_nil_r. reflexivity.
  - unfold report. rewrite exec_bind, exec_perform. cbn [handle fst snd].
    rewrite exec_perform. cbn [handle fst snd]. rewrite exec_perform. cbn [handle fst snd].
    do 2 eexists. split; [do 3 eexists; reflexivity|]. split; [exact Hrun|].
    split; [reflexivity|]. split; [reflexivity|].
    rewrite !marks_app, Hm0. cbn -[String.append]. rewrite ?app_nil_r. reflexivity.
Qed.

(** ** Where marks come from *)

(** A test that only marks of step [s'] pass finds nothing among marks of
    another step. *)
Lemma absent (f : Mark -> bool) (s s' : Step) (m : list Mark) :
  (forall x, f x = true -> step_of x = s') ->
  step_eqb s' s = false ->
  all_at s m -> existsb f m = false.
Proof.
  intros Hf Hne. unfold all_at. induction m as [|x m IH]; simpl; [reflexivity|].
  intros H. apply andb_prop in H. destruct H as [Hx Hm].
  rewrite (IH Hm), orb_false_r.
  destruct (f x) eqn:Fx; [|reflexivity].
  rewrite (Hf x Fx), Hne in Hx. discriminate Hx.
Qed.

Lemma no_writes (s : Step) (m : list Mark) :
  step_eqb AtSave s = false -> all_at s m -> writes_of m = [].
Proof.
  intros Hne. unfold all_at. induction m as [|x m IH]; simpl; [reflexivity|].
  intros H. apply andb_prop in H. destruct H as [Hx Hm].
  rewrite (IH Hm), app_nil_r.
  destruct x; try reflexivity.
  change (step_eqb AtSave s = true) in Hx. rewrite Hne in Hx. discriminate Hx.
Qed.

Lemma is_logged_step (l : string) (x : Mark) :
  is_logged l x = true -> step_of x = step_of (Logged l).
Proof.
  destruct x; simpl; try discriminate.
  intros H. apply String.eqb_eq in H. subst. reflexivity.
Qed.

Lemma is_request_step x : is_request x = true -> step_of x = AtReply.
Proof. destruct x; simpl; try discriminate; reflexivity. Qed.

Lemma is_create_step x : is_create x = true -> step_of x = AtCreate.
Proof. destruct x; simpl; try discriminate; reflexivity. Qed.

Lemma creation_step title w r ids m : creation title w r ids m -> all_at AtCreate m.
Proof. intros H; destruct H; reflexivity. Qed.

Lemma resolution_step a c w cur created m :
  resolution a c w cur created m -> all_at AtCreate m.
Proof. intros H; destruct H; reflexivity. Qed.

Lemma upload_step f w r objs m : upload f w r objs m -> all_at AtUpload m.
Proof. intros H; destruct H; reflexivity. Qed.

Lemma attaching_step file w url objs m : attaching file w url objs m -> all_at AtUpload m.
Proof. intros H; destruct H; [reflexivity|eapply upload_step; eauto]. Qed.

Lemma saving_step cid role content info w rows m :
  saving cid role content info w rows m -> all_at AtSave m.
Proof. intros H; destruct H; reflexivity. Qed.

Lemma gateway_step gm : gateway_marks gm -> all_at AtReply gm.
Proof.
  intros [_ H]. unfold all_at. induction gm as [|x gm IH]; simpl in *; [reflexivity|].
  apply andb_prop in H. destruct H as [Hx Hm]. rewrite (IH Hm), andb_true_r.
  rewrite (is_request_step x Hx). reflexivity.
Qed.

Lemma reported_step r : all_at AtCatch (reported r).
Proof. destruct r; reflexivity. Qed.

Lemma requests_only (f : Mark -> bool) (gm : list Mark) :
  (forall x, is_request x = true -> f x = false) ->
  forallb is_request gm = true -> existsb f gm = false.
Proof.
  intros Hf. induction gm as [|x gm IH]; simpl; [reflexivity|].
  intros H. apply andb_prop in H. destruct H as [Hx Hg].
  rewrite (Hf x Hx), (IH Hg). reflexivity.
Qed.

Lemma gateway_no_log (l : string) (gm : list Mark) :
  gateway_marks gm -> existsb (is_logged l) gm = false.
Proof.
  intros [_ H]. apply requests_only; [|exact H].
  intros x; destruct x; simpl; intros; try discriminate; reflexivity.
Qed.

Lemma no_log (l : string) (s : Step) (m : list Mark) :
  step_eqb (step_of (Logged l)) s = false ->
  all_at s m -> existsb (is_logged l) m = false.
Proof. intros Hne. apply (absent _ s _ m (is_logged_step l) Hne). Qed.

Lemma gateway_requested gm : gateway_marks gm -> existsb is_request gm = true.
Proof.
  intros [Hne H]. destruct gm as [|x gm]; [contradiction|].
  simpl in *. apply andb_prop in H. destruct H as [-> _]. reflexivity.
Qed.

Lemma handleSendMessage_refused w :
  send_refused (ui w) = true ->
  exec handleSendMessage w = (Returned tt, w, [Ev ReadState (ui w)]).
Proof.
  intros H. unfold handleSendMessage. rewrite exec_bind, exec_perform.
  cbn [handle fst snd]. rewrite H. reflexivity.
Qed.

Lemma grows_set_ui s1 s2 w w2 ids rows objs :
  grows (set_ui s1 w) w2 ids rows objs -> grows w (set_ui s2 w2) ids rows objs.
Proof. intros [a b c d e f]. constructor; assumption. Qed.


(** ** The reply gateway *)

(** C5, as amended.  When the webhook answers with an HTTP-success response
    whose body parses to a JSON value other than [null],
    [sendMessageToWebhook] returns the first truthy one of the body's
    [reply] and [output] fields; when neither is truthy it returns the body
    itself if the body is a string, and the fixed sentence otherwise. *)
Theorem reply_is_first_truthy message cid file w r w' t body resp data :
  exec (sendMessageToWebhook message cid file) w = (r, w', t) ->
  In (Requested body (inl resp)) (marks t) ->
  resp_ok resp = true -> resp_json resp = Some data -> data <> JNull ->
  r = Returned (first_truthy_reply data).
Proof. apply sendMessageToWebhook_reply. Qed.

Lemma reply_is_first_truthy_witness :
  let w := world_of empty_chat (Some alice) (inl (ok_response body_empty_reply)) in
  exists r w' t,
    exec (sendMessageToWebhook "oi" "c1" None) w = (r, w', t) /\
    In (Requested plain_payload (inl (ok_response body_empty_reply))) (marks t) /\
    resp_ok (ok_response body_empty_reply) = true /\
    resp_json (ok_response body_empty_reply) = Some body_empty_reply /\
    body_empty_reply <> JNull /\
    r = Returned (JStr "ok").
Proof.
  intros w.
  destruct (exec (sendMessageToWebhook "oi" "c1" None) w) as [[r w'] t] eqn:E.
  exists r, w', t.
  assert (HIn : In (Requested plain_payload (inl (ok_response body_empty_reply))) (marks t)).
  { vm_compute in E. injection E as <- <- <-. left. reflexivity. }
  split; [reflexivity|]. split; [exact HIn|].
  split; [reflexivity|]. split; [reflexivity|]. split; [discriminate|].
  exact (reply_is_first_truthy "oi" "c1" None w r w' t plain_payload
           (ok_response body_empty_reply) body_empty_reply E HIn
           eq_refl eq_refl ltac:(discriminate)).
Defined.

(** The claim as worded fails: with a [reply] field that is the empty
    string, the code passes over it and returns the [output] field. *)
Lemma reply_not_first_present :
  fst (fst (exec (sendMessageToWebhook "oi" "c1" None)
              (world_of empty_chat (Some alice) (inl (ok_response body_empty_reply)))))
  <> Returned (first_present_reply body_empty_reply).
Proof. vm_compute. discriminate. Qed.

(** A body that is [null] makes the property read throw. *)
Example reply_null_body_throws :
  fst (fst (exec (sendMessageToWebhook "oi" "c1" None)
              (world_of empty_chat (Some alice) (inl (ok_response JNull)))))
  = Thrown "Cannot read properties of null (reading 'reply')".
Proof. vm_compute. reflexivity. Qed.

(** ** The persistence gateway *)

Lemma substring_whole (s : string) (m : nat) :
  String.length s <= m -> String.substring 0 m s = s.
Proof.
  revert m. induction s as [|c s IH]; intros m H.
  - destruct m; reflexivity.
  - destruct m as [|m]; simpl in *; [lia|]. rewrite IH by lia. reflexivity.
Qed.

Lemma substring_length (s : string) (m : nat) :
  m <= String.length s -> String.length (String.substring 0 m s) = m.
Proof.
  revert m. induction s as [|c s IH]; intros m H.
  - destruct m; simpl in *; [reflexivity|lia].
  - destruct m as [|m]; simpl in *; [reflexivity|]. rewrite IH by lia. reflexivity.
Qed.

Lemma cleanTitle_cases (title : string) :
  (title = "" -> cleanTitle title = default_title) /\
  (title <> "" -> String.length title <= 30 -> cleanTitle title = title) /\
  (30 < String.length title ->
   cleanTitle title = String.substring 0 30 title /\
   String.length (cleanTitle title) = 30).
Proof.
  unfold cleanTitle. split; [|split].
  - intros ->. reflexivity.
  - intros Hne Hl. rewrite substring_whole by exact Hl.
    destruct (String.eqb_spec title ""); [contradiction|reflexivity].
  - intros Hl.
    assert (L : String.length (String.substring 0 30 title) = 30)
      by (apply substring_length; lia).
    destruct (String.eqb_spec (String.substring 0 30 title) "") as [E|_].
    + rewrite E in L. discriminate L.
    + split; [reflexivity|exact L].
Qed.

(** C7.  With a session and a backend that accepts the insert,
    [createConversation] adds one row to [conversations] and returns it.
    Its title is the placeholder ["Nova Conversa"] for the empty input, the
    input itself for a non-empty input of at most 30 characters, and the
    first 30 characters of an input longer than that. *)
Theorem createConversation_title (title : string) (w : World) (u : User) :
  session (backend w) = Some u ->
  (forall b uid t, conv_insert_error (env w) b uid t = None) ->
  exists c w' t,
    exec (createConversation title) w = (Returned (Some c), w', t) /\
    conversations_tbl (backend w') = (conversations_tbl (backend w) ++ [c])%list /\
    conv_user_id c = user_id u /\
    (title = "" -> conv_title c = default_title) /\
    (title <> "" -> String.length title <= 30 -> conv_title c = title) /\
    (30 < String.length title ->
     conv_title c = String.substring 0 30 title /\ String.length (conv_title c) = 30).
Proof.
  intros Hs Hok. unfold createConversation, perform. cbn.
  rewrite Hs. cbn. rewrite Hok. cbn.
  do 3 eexists. split; [reflexivity|]. cbn.
  split; [reflexivity|]. split; [reflexivity|]. apply cleanTitle_cases.
Qed.

Lemma createConversation_title_witness :
  let w := world_of empty_chat (Some alice) (inr "offline") in
  session (backend w) = Some alice /\
  (forall b uid t, conv_insert_error (env w) b uid t = None) /\
  exists c w' t,
    exec (createConversation "Quero investir em fundos offshore agora") w
    = (Returned (Some c), w', t) /\
    conv_title c = "Quero investir em fundos offsh".
Proof.
  intros w. split; [reflexivity|]. split; [reflexivity|].
  destruct (createConversation_title "Quero investir em fundos offshore agora" w alice
              eq_refl (fun _ _ _ => eq_refl))
    as (c & w' & t & E & _ & _ & _ & _ & Hlong).
  exists c, w', t. split; [exact E|].
  apply Hlong. vm_compute. lia.
Defined.

(** C8, as amended.  Without a session, [createConversation] returns
    [null], [getConversations] and [loadChatHistory] return the empty list
    and [saveMessageToDb] writes nothing; none of them throws.
    [deleteConversation], with or without a session, never asks for the
    session: it returns [false] exactly when the backend reports an error
    for the delete, and [true] otherwise. *)
Theorem gateway_without_session :
  (forall w, session (backend w) = None ->
     (forall title, exists w' t,
         exec (createConversation title) w = (Returned None, w', t) /\
         conversations_tbl (backend w') = conversations_tbl (backend w)) /\
     (exists w' t, exec getConversations w = (Returned [], w', t)) /\
     (forall cid, exists w' t, exec (loadChatHistory cid) w = (Returned [], w', t)) /\
     (forall cid role content info, exists w' t,
         exec (saveMessageToDb cid role content info) w = (Returned tt, w', t) /\
         chat_messages_tbl (backend w') = chat_messages_tbl (backend w) /\
         conversations_tbl (backend w') = conversations_tbl (backend w))) /\
  (forall w id, exists b w' t,
      exec (deleteConversation id) w = (Returned b, w', t) /\
      asks_session t = false /\
      (b = false <-> conv_delete_error (env w) (backend w) id <> None)).
Proof.
  split.
  - intros w Hs. repeat split.
    + intros title. unfold createConversation, perform. cbn. rewrite Hs.
      do 2 eexists. split; reflexivity.
    + unfold getConversations, perform. cbn. rewrite Hs. do 2 eexists. reflexivity.
    + intros cid. unfold loadChatHistory, perform. cbn. rewrite Hs.
      do 2 eexists. reflexivity.
    + intros cid role content info. unfold saveMessageToDb, perform. cbn. rewrite Hs.
      do 2 eexists. repeat split; reflexivity.
  - intros w id. unfold deleteConversation, perform. cbn.
    destruct (conv_delete_error (env w) (backend w) id) as [e|]; cbn;
      do 3 eexists; (split; [reflexivity|]); (split; [reflexivity|]);
      split; congruence.
Qed.

Lemma gateway_without_session_witness :
  let w := world_of empty_chat None (inr "offline") in
  session (backend w) = None /\
  (exists w' t, exec getConversations w = (Returned [], w', t)).
Proof.
  intros w. split; [reflexivity|].
  exact (proj1 (proj2 (proj1 gateway_without_session w eq_refl))).
Defined.

(** The claim as worded fails: without a session, a delete that the backend
    does not refuse returns [true]. *)
Lemma deleteConversation_without_session :
  let w := world_of empty_chat None (inr "offline") in
  session (backend w) = None /\
  fst (fst (exec (deleteConversation "c1") w)) = Returned true.
Proof. split; reflexivity. Qed.

(** [uploadChatAttachment] always returns: [null] exactly when it failed,
    which it does whenever the session is missing or the bucket refuses the
    upload. *)
Lemma uploadChatAttachment_total file w :
  exists r w' t,
    exec (uploadChatAttachment file) w = (Returned r, w', t) /\
    (upload_failed t = true <-> r = None) /\
    (session (backend w) = None -> r = None) /\
    (forall key, In (Stored key false) (marks t) -> r = None).
Proof.
  destruct (uploadChatAttachment_spec file w) as (r & objs & w1 & t & E & Hui & Hg & Hu).
  exists r, w1, t. split; [exact E|]. unfold upload_failed, logged.
  destruct Hu as [Hs|u key Hs|u key Hs]; cbn.
  - repeat split; auto.
  - repeat split; auto.
  - split; [split; discriminate|]. split; [congruence|].
    intros key' [H|[]]. discriminate H.
Qed.

(** ** What the handler asks of the list and of the webhook *)

(** The runs of [sendMessageToWebhook], one goal for each way through it;
    [E] is the equation that names the result of the run. *)
Ltac gateway_paths w file E :=
  unfold sendMessageToWebhook, convertFileToBase64, perform, await in E;
  cbn -[String.append] in E;
  destruct file as [?f|]; cbn -[String.append] in E;
  [ destruct (data_url (env w) _) as [?d|?e] eqn:?Hd; cbn -[String.append] in E | ];
  [ destruct (fetch_result _ _ _ _) as [?resp|?e] eqn:?Hf; cbn -[String.append] in E | |
    destruct (fetch_result _ _ _ _) as [?resp|?e] eqn:?Hf; cbn -[String.append] in E ];
  [ destruct (resp_ok _) eqn:?Hok; cbn -[String.append] in E | | |
    destruct (resp_ok _) eqn:?Hok; cbn -[String.append] in E | ];
  [ destruct (resp_json _) as [?data|] eqn:?Hj; cbn -[String.append] in E | | | |
    destruct (resp_json _) as [?data|] eqn:?Hj; cbn -[String.append] in E | | ];
  [ match goal with x : JSON |- _ => destruct x end; cbn -[String.append] in E | | | | |
    match goal with x : JSON |- _ => destruct x end; cbn -[String.append] in E | | | ];
  inversion E; subst; clear E.

Lemma aside_bind {A B : Type} (p : Prog A) (f : A -> Prog B) :
  aside p -> (forall a, aside (f a)) -> aside (bind p f).
Proof.
  intros Hp Hf. induction Hp as [a|e|X e k He Hk IH]; simpl.
  - apply Hf.
  - constructor.
  - constructor; [exact He|exact IH].
Qed.

Lemma aside_try_catch {A : Type} (p : Prog A) (h : Error -> Prog A) :
  aside p -> (forall e, aside (h e)) -> aside (try_catch p h).
Proof.
  intros Hp Hh. induction Hp as [a|e|X e k He Hk IH]; simpl.
  - constructor.
  - apply Hh.
  - constructor; [exact He|exact IH].
Qed.

Lemma aside_perform {X : Type} (e : Eff X) : notable e = false -> aside (perform e).
Proof. intros H. constructor; [exact H|]. intros x. constructor. Qed.

Ltac aside_walk :=
  repeat first
    [ apply aside_ret
    | apply aside_throw
    | apply aside_perform; reflexivity
    | apply aside_bind; [|intro]
    | apply aside_try_catch; [|intro]
    | match goal with
      | |- aside (match ?x with _ => _ end) => destruct x
      | |- aside (if ?x then _ else _) => destruct x
      end ].

Lemma aside_ensure_conversation activeId content :
  aside (ensure_conversation activeId content).
Proof. unfold ensure_conversation, createConversation. aside_walk. Qed.

Lemma aside_upload_file file : aside (upload_file file).
Proof. unfold upload_file, uploadChatAttachment. aside_walk. Qed.

Lemma aside_saveMessageToDb cid role content info :
  aside (saveMessageToDb cid role content info).
Proof. unfold saveMessageToDb. aside_walk. Qed.

(** A program that makes no such request leaves no trace of one. *)
Lemma aside_exec {A : Type} (p : Prog A) :
  aside p -> forall w, existsb noted (snd (exec p w)) = false.
Proof.
  induction 1 as [a|e|X e k He Hk IH]; intros w; cbn [exec]; try reflexivity.
  destruct (handle e w) as [x w1]. specialize (IH x w1).
  destruct (exec (k x) w1) as [[r w2] t]. cbn in *. rewrite He, IH. reflexivity.
Qed.

Lemma list_updates_app t1 t2 :
  list_updates (t1 ++ t2) = (list_updates t1 ++ list_updates t2)%list.
Proof. apply flat_map_app. Qed.

Lemma posts_app t1 t2 : posts (t1 ++ t2) = (posts t1 ++ posts t2)%list.
Proof. unfold posts. rewrite marks_app. apply filter_app. Qed.

Lemma unnoted (t : list Event) :
  existsb noted t = false ->
  list_updates t = [] /\ posts t = [] /\
  reply_requested t = false /\ error_shown t = false.
Proof.
  unfold posts, reply_requested, error_shown.
  induction t as [|[X e x] t IH]; [repeat split|].
  cbn [existsb noted]. intros H. apply orb_false_elim in H. destruct H as [He Ht].
  destruct (IH Ht) as (H1 & H2 & H3 & H4).
  destruct e; try discriminate He; cbn; try destruct x; cbn; auto.
Qed.

Lemma gateway_notes message cid file w r w' t :
  exec (sendMessageToWebhook message cid file) w = (r, w', t) ->
  list_updates t = [] /\ error_shown t = false /\ reply_requested t = true /\
  length (posts t) = (if readable (env w) file then 1 else 0) /\
  (readable (env w) file = false -> exists e, r = Thrown e).
Proof.
  intros E. unfold readable, posts, error_shown, reply_requested.
  gateway_paths w file E; cbn -[String.append]; rewrite ?Hd;
    repeat split; try reflexivity; try discriminate; eauto.
Qed.

(** STEPS 4 to 6: the gateway is entered, it posts once if the file can
    be read, and the reply is appended to the list exactly when the steps
    return. *)
Lemma reply_steps_notes cur content file w r w' t :
  exec (reply_steps cur content file) w = (r, w', t) ->
  reply_requested t = true /\
  length (posts t) = (if readable (env w) file then 1 else 0) /\
  (readable (env w) file = false -> exists e, r = Thrown e) /\
  match r with
  | Thrown _ => list_updates t = [] /\ error_shown t = false
  | Returned _ =>
      error_shown t = false /\
      exists ai f, list_updates t = [f] /\ appends ai f /\ msg_role ai = assistant /\
                   messages (ui w') = (messages (ui w) ++ [ai])%list
  end.
Proof.
  unfold reply_steps. rewrite exec_bind.
  destruct (exec (sendMessageToWebhook content cur file) w) as [[r1 w1] t1] eqn:E1.
  destruct (gateway_notes _ _ _ _ _ _ _ E1) as (Hl1 & He1 & Hq1 & Hp1 & Hr1).
  destruct (sendMessageToWebhook_spec content cur file w)
    as (r0 & w0 & t0 & pre & E0 & Hui1 & _).
  rewrite E1 in E0. injection E0 as <- <- <-.
  destruct r1 as [v|e].
  - rewrite exec_bind, exec_perform. cbn [handle fst snd].
    rewrite exec_bind, exec_perform. cbn [handle fst snd].
    rewrite exec_bind, exec_perform. cbn [handle fst snd].
    match goal with
    | |- context [exec (saveMessageToDb ?c ?ro ?co ?i) ?w2] =>
        pose proof (aside_exec _ (aside_saveMessageToDb c ro co i) w2) as Hs;
        destruct (saveMessageToDb_spec c ro co i w2) as (rows & w3 & t3 & E3 & Hui3 & _)
    end.
    rewrite E3 in *. cbn [snd] in Hs. cbv beta iota.
    destruct (unnoted _ Hs) as (Hl3 & Hp3 & Hq3 & He3).
    intros E. injection E as <- <- <-.
    unfold reply_requested, error_shown, posts, list_updates in *.
    rewrite !flat_map_app, !marks_app, !filter_app, !existsb_app, !length_app.
    cbn [marks digest flat_map list_update app filter existsb].
    rewrite Hl1, Hl3, Hp3, Hq1, He1, He3, Hp1. cbn.
    split; [reflexivity|]. split; [lia|].
    split; [intros H; destruct (Hr1 H) as (e & He); discriminate He|].
    split; [reflexivity|].
    eexists {| msg_id := _; msg_role := assistant; msg_content := v;
               msg_timestamp := _; msg_attachment := None |}.
    eexists. split; [reflexivity|]. split; [intros prev; reflexivity|].
    split; [reflexivity|]. rewrite Hui3. cbn. rewrite Hui1. reflexivity.
  - intros E. injection E as <- <- <-.
    split; [exact Hq1|]. split; [exact Hp1|]. split; [eauto|]. split; assumption.
Qed.

Lemma adopt_messages created st : messages (adopt created st) = messages st.
Proof. destruct created; reflexivity. Qed.

(** The [try] block: nothing is shown or posted before the gateway is
    entered, and what happens from there is what [reply_steps] does. *)
Lemma send_steps_notes activeId content file w r w' t :
  exec (send_steps activeId content file) w = (r, w', t) ->
  error_shown t = false /\
  (reply_requested t = true ->
   length (posts t) = (if readable (env w) file then 1 else 0) /\
   (readable (env w) file = false -> exists e, r = Thrown e)) /\
  match r with
  | Thrown _ => list_updates t = []
  | Returned _ =>
      reply_requested t = true /\
      exists ai f, list_updates t = [f] /\ appends ai f /\ msg_role ai = assistant /\
                   messages (ui w') = (messages (ui w) ++ [ai])%list
  end.
Proof.
  unfold send_steps. rewrite exec_bind.
  pose proof (aside_exec _ (aside_ensure_conversation activeId content) w) as N1.
  destruct (ensure_conversation_spec activeId content w) as (r1 & w1 & t1 & E1 & Hcases).
  rewrite E1 in *. cbn [snd] in N1.
  destruct (unnoted _ N1) as (Hl1 & Hp1 & Hq1 & He1).
  destruct Hcases as [(_ & -> & _)|(cur & created & -> & _ & Hui1 & Hg1)].
  { intros E. injection E as <- <- <-.
    split; [exact He1|]. split; [rewrite Hq1; discriminate|exact Hl1]. }
  destruct (String.eqb cur "").
  { cbn [exec]. intros E. injection E as <- <- <-. rewrite app_nil_r.
    split; [exact He1|]. split; [rewrite Hq1; discriminate|exact Hl1]. }
  rewrite exec_bind.
  pose proof (aside_exec _ (aside_upload_file file) w1) as N2.
  destruct (upload_file_spec file w1) as (url & objs & w2 & t2 & E2 & Hui2 & Hg2 & _).
  rewrite E2 in *. cbn [snd] in N2.
  destruct (unnoted _ N2) as (Hl2 & Hp2 & Hq2 & He2).
  rewrite exec_bind.
  match goal with
  | |- context [exec (saveMessageToDb ?c ?ro ?co ?i) w2] =>
      pose proof (aside_exec _ (aside_saveMessageToDb c ro co i) w2) as N3;
      destruct (saveMessageToDb_spec c ro co i w2) as (rows & w3 & t3 & E3 & Hui3 & Hg3 & _)
  end.
  rewrite E3 in *. cbn [snd] in N3.
  destruct (unnoted _ N3) as (Hl3 & Hp3 & Hq3 & He3).
  destruct (exec (reply_steps cur content file) w3) as [[r4 w4] t4] eqn:E4.
  destruct (reply_steps_notes _ _ _ _ _ _ _ E4) as (Hq4 & Hp4 & Hr4 & Hlast).
  assert (Henv : env w3 = env w).
  { rewrite (grows_env _ _ _ _ _ Hg3), (grows_env _ _ _ _ _ Hg2).
    apply (grows_env _ _ _ _ _ Hg1). }
  rewrite Henv in *.
  intros E. injection E as <- <- <-.
  unfold reply_requested, error_shown, posts, list_updates in *.
  rewrite !flat_map_app, !marks_app, !filter_app, !existsb_app, !length_app.
  rewrite Hl1, Hl2, Hl3, Hp1, Hp2, Hp3, Hq1, Hq2, Hq3, He1, He2, He3, Hq4. cbn [app orb length plus].
  destruct r4 as [[]|e].
  - destruct Hlast as (He4 & ai & f & Hl4 & Hf & Hrole & Hmsgs).
    split; [exact He4|]. split; [intros _; split; assumption|].
    split; [reflexivity|]. exists ai, f. split; [exact Hl4|]. split; [exact Hf|].
    split; [exact Hrole|]. rewrite Hmsgs, Hui3, Hui2, Hui1, adopt_messages. reflexivity.
  - destruct Hlast as (Hl4 & He4).
    split; [exact He4|]. split; [intros _; split; assumption|exact Hl4].
Qed.

Lemma show_optimistic_notes content file w :
  exists id stamp preview t f,
    exec (show_optimistic content file) w =
    (Returned tt,
     set_ui {| messages :=
                 (messages (ui w) ++
                  [optimistic_message id content stamp file preview])%list;
               inputValue := "";
               isTyping := isTyping (ui w);
               selectedFile := None;
               conversations := conversations (ui w);
               activeConversationId := activeConversationId (ui w);
               fileInputValue :=
                 match fileInputValue (ui w) with
                 | Some _ => Some ""
                 | None => None
                 end |} w, t) /\
    marks t = [] /\
    list_updates t = [f] /\
    appends (optimistic_message id content stamp file preview) f.
Proof.
  unfold show_optimistic, perform.
  destruct file as [f|]; [destruct (String.prefix "image/" (file_type f)) eqn:Hp|];
    cbn; rewrite ?Hp; cbn; do 5 eexists; (split; [reflexivity|]);
    (split; [reflexivity|]); (split; [reflexivity|]); intros prev; reflexivity.
Qed.

(** A run of [handleSendMessage] that passed the guard, taken apart: the
    optimistic update, the [try] block run from the state that update
    leaves, and what the run as a whole shows. *)
Lemma handleSendMessage_unfolded w :
  send_refused (ui w) = false ->
  exists opt f r w2 t2 w' t,
    optimistic (ui w) opt /\ appends opt f /\
    exec (send_steps (activeConversationId (ui w)) (inputValue (ui w))
            (selectedFile (ui w))) (set_ui (started (ui w) opt) w) = (r, w2, t2) /\
    steps_run (activeConversationId (ui w)) (inputValue (ui w)) (selectedFile (ui w))
      (set_ui (started (ui w) opt) w) r w2 (marks t2) /\
    exec handleSendMessage w = (Returned tt, w', t) /\
    w' = set_ui (set_typing false (ui w2)) w2 /\
    marks t = (marks t2 ++ reported r)%list /\
    list_updates t = f :: list_updates t2.
Proof.
  intros Hgo. unfold handleSendMessage.
  rewrite exec_bind, exec_perform. cbn [handle fst snd]. rewrite Hgo.
  rewrite exec_bind.
  destruct (show_optimistic_notes (inputValue (ui w)) (selectedFile (ui w)) w)
    as (id & stamp & preview & t0 & f & E0 & Hm0 & Hl0 & Hf).
  rewrite E0. rewrite exec_bind, exec_perform. cbn [handle fst snd ui set_ui isTyping
    messages inputValue selectedFile conversations activeConversationId fileInputValue
    backend env].
  rewrite exec_finally, exec_try_catch.
  set (opt := optimistic_message id (inputValue (ui w)) stamp (selectedFile (ui w)) preview).
  match goal with
  | |- context [exec (send_steps _ _ _) ?w1] =>
      change w1 with (set_ui (started (ui w) opt) w);
      destruct (send_steps_spec (activeConversationId (ui w)) (inputValue (ui w))
                  (selectedFile (ui w)) (set_ui (started (ui w) opt) w))
        as (r & w2 & t2 & E & Hrun)
  end.
  rewrite E.
  exists opt, f, r, w2, t2.
  destruct r as [[]|err].
  - rewrite exec_perform. cbn [handle fst snd].
    do 2 eexists. split; [do 3 eexists; reflexivity|]. split; [exact Hf|].
    split; [exact E|]. split; [exact Hrun|].
    split; [reflexivity|]. split; [reflexivity|].
    rewrite !marks_app, !list_updates_app, Hm0, Hl0. cbn. rewrite ?app_nil_r.
    split; reflexivity.
  - unfold report. rewrite exec_bind, exec_perform. cbn [handle fst snd].
    rewrite exec_perform. cbn [handle fst snd]. rewrite exec_perform. cbn [handle fst snd].
    do 2 eexists. split; [do 3 eexists; reflexivity|]. split; [exact Hf|].
    split; [exact E|]. split; [exact Hrun|].
    split; [reflexivity|]. split; [reflexivity|].
    rewrite !marks_app, !list_updates_app, Hm0, Hl0. cbn -[String.append].
    rewrite ?app_nil_r. split; reflexivity.
Qed.

(** What a run that passed the guard asks of the list and of the webhook:
    the optimistic message is appended; if the gateway is entered it posts
    once when the file can be read and not at all when it cannot; and the
    reply is appended exactly when no error is shown. *)
Lemma handleSendMessage_notes w r w' t :
  exec handleSendMessage w = (r, w', t) ->
  send_refused (ui w) = false ->
  exists opt f,
    optimistic (ui w) opt /\ appends opt f /\
    (reply_requested t = true ->
     length (posts t) =
       (if readable (env w) (selectedFile (ui w)) then 1 else 0) /\
     (readable (env w) (selectedFile (ui w)) = false -> error_shown t = true)) /\
    ((error_shown t = true /\ list_updates t = [f] /\
      (no_id (activeConversationId (ui w)) = false ->
       messages (ui w') = (messages (ui w) ++ [opt])%list))
     \/
     (error_shown t = false /\
      exists ai g, list_updates t = [f; g] /\ appends ai g /\ msg_role ai = assistant /\
        (no_id (activeConversationId (ui w)) = false ->
         messages (ui w') = (messages (ui w) ++ [opt; ai])%list))).
Proof.
  intros E Hgo.
  destruct (handleSendMessage_unfolded w Hgo)
    as (opt & f & r2 & w2 & t2 & w1 & t1 & Hopt & Hf & E2 & Hrun & E' & -> & Hm & Hl).
  rewrite E' in E. injection E as <- <- <-.
  destruct (send_steps_notes _ _ _ _ _ _ _ E2) as (He2 & Hpost & Hlast).
  exists opt, f. split; [exact Hopt|]. split; [exact Hf|].
  unfold reply_requested, error_shown, posts in *. rewrite Hm, Hl.
  rewrite !existsb_app, !filter_app, length_app.
  cbn [env set_ui] in Hpost.
  assert (Hrep : existsb is_request (reported r2) = false /\
                 filter is_post (reported r2) = [] /\
                 existsb is_error_toast (reported r2) =
                   match r2 with Returned _ => false | Thrown _ => true end).
  { destruct r2; repeat split. }
  destruct Hrep as (Hr1 & Hr2 & Hr3). rewrite Hr1, Hr2, Hr3, He2, orb_false_r.
  cbn [length app orb].
  split.
  { intros Hq. destruct (Hpost Hq) as [Hp Hthrows]. split; [lia|].
    intros Hun. destruct (Hthrows Hun) as (e & ->). reflexivity. }
  destruct r2 as [[]|e].
  - right. destruct Hlast as (_ & ai & g & Hl2 & Hg & Hrole & Hmsgs).
    split; [reflexivity|]. exists ai, g. rewrite Hl2.
    split; [reflexivity|]. split; [exact Hg|]. split; [exact Hrole|].
    intros _. cbn [ui set_ui set_typing messages]. rewrite Hmsgs. cbn.
    rewrite <- app_assoc. reflexivity.
  - left. split; [reflexivity|]. rewrite Hlast. split; [reflexivity|].
    intros Hno. cbn [ui set_ui set_typing messages].
    inversion Hrun as
      [ w3 pre Hno' Hc Hui Hg
      | w3 created pre Hres Hui Hg
      | w3 cur created pre url objs um urows sm gm err Hres Hcur Hat Hsv Hgm Hui Hg
      | ]; subst; try congruence;
      rewrite Hui, adopt_messages; reflexivity.
Qed.

(** ** The send pipeline *)

(** Names the parts of a run of [handleSendMessage] that passed the guard. *)
Ltac run_parts w Hgo E :=
  let opt := fresh "opt" in
  let r1 := fresh "r1" in
  let w2 := fresh "w2" in
  let t2 := fresh "t2" in
  let w1 := fresh "w1" in
  let t1 := fresh "t1" in
  let Hopt := fresh "Hopt" in
  let Hrun := fresh "Hrun" in
  let E' := fresh "E'" in
  let Hm := fresh "Hm" in
  destruct (handleSendMessage_run w Hgo)
    as (opt & r1 & w2 & t2 & w1 & t1 & Hopt & Hrun & E' & -> & Hm);
  rewrite E' in E; injection E as <- <- <-.


Lemma writes_of_app m1 m2 : writes_of (m1 ++ m2) = (writes_of m1 ++ writes_of m2)%list.
Proof. apply flat_map_app. Qed.

(** What one call of [saveMessageToDb] can add and request. *)
Lemma saving_rows cid role content info w rows m :
  saving cid role content info w rows m ->
  Forall (fun row => row_conversation_id row = cid /\ row_role row = role /\
                     row_content row = content /\ row_attachment_info row = info) rows /\
  Forall (fun id => id = cid) (writes_of m) /\
  (rows <> [] \/ writes_of m <> [] -> cid <> "") /\
  (rows = [] ->
   session (backend w) = None \/ cid = "" \/ existsb (is_refused_write role) m = true).
Proof.
  intros H.
  destruct H as [Hs|u Hs Hid|u Hs Hid|u row Hs Hid Hrc Hru Hrr Hrco Hri]; cbn.
  - repeat split; auto. intros [H|H]; contradiction H; reflexivity.
  - repeat split; auto. intros [H|H]; contradiction H; reflexivity.
  - repeat split; auto. intros _. right. right. destruct role; reflexivity.
  - repeat split; auto. discriminate.
Qed.

Lemma upload_failed_attaching file w url objs um :
  attaching file w url objs um ->
  existsb (is_logged upload_label) um = true ->
  exists f, file = Some f /\ url = None /\ objs = [].
Proof.
  intros H Hu. destruct H as [Hf|f r objs m Hf Hup]; [discriminate Hu|].
  exists f. destruct Hup; [auto|auto|discriminate Hu].
Qed.

Lemma Forall_two {A : Type} (P : A -> Prop) (l1 l2 : list A) :
  Forall P l1 -> Forall P l2 -> Forall P (l1 ++ l2).
Proof. intros H1 H2. apply Forall_app. split; assumption. Qed.

(** A send in which the upload failed: the file, what is saved, and that
    the gateway is entered. *)
Lemma upload_failure_run w r w' t :
  exec handleSendMessage w = (r, w', t) ->
  upload_failed t = true ->
  r = Returned tt /\
  reply_requested t = true /\
  isTyping (ui w') = false /\
  exists f ids rows,
    selectedFile (ui w) = Some f /\
    grows w w' ids rows [] /\
    Forall (fun row =>
              row_role row = user ->
              row_attachment_info row =
              Some {| att_name := file_name f; att_type := file_type f;
                      att_previewUrl := None; att_url := None |}) rows /\
    (session (backend w) <> None -> write_refused user t = false ->
     exists row, In row rows /\ row_role row = user).
Proof.
  intros E Hu. unfold upload_failed, logged in Hu.
  destruct (send_refused (ui w)) eqn:Hgo.
  { rewrite (handleSendMessage_refused w Hgo) in E. injection E as <- <- <-.
    discriminate Hu. }
  run_parts w Hgo E.
  rewrite Hm, existsb_app in Hu.
  rewrite (no_log upload_label AtCatch _ eq_refl (reported_step r1)), orb_false_r in Hu.
  unfold reply_requested, write_refused. rewrite Hm.
  inversion Hrun as
      [ w3 pre Hno Hc Hui Hg
      | w3 created pre Hres Hui Hg
      | w3 cur created pre url objs um urows sm gm err Hres Hcur Hat Hsv Hgm Hui Hg
      | w3 cur created pre url objs um urows sm gm ai arows am
           Hres Hcur Hat Hsv Hgm Hrole Hatt Hsa Hui Hg ]; subst.
  - rewrite (no_log upload_label AtCreate _ eq_refl (creation_step _ _ _ _ _ Hc)) in Hu.
    discriminate Hu.
  - rewrite (no_log upload_label AtCreate _ eq_refl (resolution_step _ _ _ _ _ _ Hres)) in Hu.
    discriminate Hu.
  - match goal with H : _ = marks t2 |- _ => rewrite <- H in * end.
    rewrite !existsb_app in Hu.
    rewrite (no_log upload_label AtCreate _ eq_refl (resolution_step _ _ _ _ _ _ Hres)),
      (no_log upload_label AtSave _ eq_refl (saving_step _ _ _ _ _ _ _ Hsv)),
      (gateway_no_log upload_label gm Hgm) in Hu.
    cbn in Hu. rewrite !orb_false_r in Hu.
    destruct (upload_failed_attaching _ _ _ _ _ Hat Hu) as (f & Hf & -> & ->).
    cbn in Hf. rewrite Hf in Hsv. cbn in Hsv.
    destruct (saving_rows _ _ _ _ _ _ _ Hsv) as (Hrows & _ & _ & Hnone).
    split; [reflexivity|]. split.
    { rewrite !existsb_app, (gateway_requested gm Hgm), !orb_true_r. reflexivity. }
    split; [reflexivity|].
    exists f, (new_ids created), urows. split; [exact Hf|].
    split; [eapply grows_set_ui; exact Hg|]. split.
    { eapply Forall_impl; [|exact Hrows]. cbn. intros row (_ & _ & _ & Hi) _. exact Hi. }
    intros Hs Hw. destruct urows as [|row urows].
    + exfalso. destruct (Hnone eq_refl) as [H|[H|H]].
      * apply Hs. exact H.
      * apply Hcur. exact H.
      * rewrite !existsb_app, H, !orb_true_r in Hw. discriminate Hw.
    + exists row. split; [left; reflexivity|].
      inversion Hrows as [|? ? (_ & Hr & _) _]. exact Hr.
  - match goal with H : _ = marks t2 |- _ => rewrite <- H in * end.
    rewrite !existsb_app in Hu.
    rewrite (no_log upload_label AtCreate _ eq_refl (resolution_step _ _ _ _ _ _ Hres)),
      (no_log upload_label AtSave _ eq_refl (saving_step _ _ _ _ _ _ _ Hsv)),
      (no_log upload_label AtSave _ eq_refl (saving_step _ _ _ _ _ _ _ Hsa)),
      (gateway_no_log upload_label gm Hgm) in Hu.
    cbn in Hu. rewrite !orb_false_r in Hu.
    destruct (upload_failed_attaching _ _ _ _ _ Hat Hu) as (f & Hf & -> & ->).
    cbn in Hf. rewrite Hf in Hsv. cbn in Hsv.
    destruct (saving_rows _ _ _ _ _ _ _ Hsv) as (Hrows & _ & _ & Hnone).
    destruct (saving_rows _ _ _ _ _ _ _ Hsa) as (Harows & _ & _ & _).
    split; [reflexivity|]. split.
    { rewrite !existsb_app, (gateway_requested gm Hgm), !orb_true_r. reflexivity. }
    split; [reflexivity|].
    exists f, (new_ids created), (urows ++ arows)%list. split; [exact Hf|].
    split; [eapply grows_set_ui; exact Hg|]. split.
    { apply Forall_two.
      - eapply Forall_impl; [|exact Hrows]. cbn. intros row (_ & _ & _ & Hi) _. exact Hi.
      - eapply Forall_impl; [|exact Harows]. cbn. intros row (_ & Hr & _) Hr'.
        rewrite Hr in Hr'. discriminate Hr'. }
    intros Hs Hw. destruct urows as [|row urows].
    + exfalso. destruct (Hnone eq_refl) as [H|[H|H]].
      * apply Hs. exact H.
      * apply Hcur. exact H.
      * rewrite !existsb_app, H, !orb_true_r in Hw. discriminate Hw.
    + exists row. split; [left; reflexivity|].
      inversion Hrows as [|? ? (_ & Hr & _) _]. exact Hr.
Qed.

(** C4, as amended.  [uploadChatAttachment] always returns, with [null]
    exactly when it failed, as it does without a session; it never throws.
    When it fails during a send, the handler still calls [saveMessageToDb]
    and then the reply gateway.  A file had been selected, no object is
    added to the bucket, and any user message added carries that file's
    name and type with no durable URL and no preview.  The user message is
    added unless the session is missing or the backend refused the
    insert.  The reply is requested, by exactly one POST to the webhook,
    when the browser can read the file to inline it; when it cannot, the
    gateway throws before it posts: nothing is posted and the error is
    shown. *)
Theorem upload_failure_outcome :
  (forall file w0, exists r w1 t1,
      exec (uploadChatAttachment file) w0 = (Returned r, w1, t1) /\
      (upload_failed t1 = true <-> r = None) /\
      (session (backend w0) = None -> r = None) /\
      (forall key, In (Stored key false) (marks t1) -> r = None)) /\
  (forall w r w' t,
      exec handleSendMessage w = (r, w', t) ->
      upload_failed t = true ->
      r = Returned tt /\
      reply_requested t = true /\
      isTyping (ui w') = false /\
      exists f ids rows,
        selectedFile (ui w) = Some f /\
        grows w w' ids rows [] /\
        Forall (fun row =>
                  row_role row = user ->
                  row_attachment_info row =
                  Some {| att_name := file_name f; att_type := file_type f;
                          att_previewUrl := None; att_url := None |}) rows /\
        (session (backend w) <> None -> write_refused user t = false ->
         exists row, In row rows /\ row_role row = user) /\
        (forall d, data_url (env w) f = inl d -> length (posts t) = 1) /\
        (forall e, data_url (env w) f = inr e ->
           posts t = [] /\ error_shown t = true)).
Proof.
  split; [exact uploadChatAttachment_total|].
  intros w r w' t E Hu.
  destruct (upload_failure_run w r w' t E Hu)
    as (Hr & Hq & Hbusy & f & ids & rows & Hf & Hg & Hrows & Hrow).
  split; [exact Hr|]. split; [exact Hq|]. split; [exact Hbusy|].
  exists f, ids, rows. split; [exact Hf|]. split; [exact Hg|]. split; [exact Hrows|].
  split; [exact Hrow|].
  assert (Hgo : send_refused (ui w) = false).
  { destruct (send_refused (ui w)) eqn:Hgo; [|reflexivity].
    rewrite (handleSendMessage_refused w Hgo) in E. injection E as <- <- <-.
    discriminate Hu. }
  destruct (handleSendMessage_notes w r w' t E Hgo) as (_ & _ & _ & _ & Hpost & _).
  destruct (Hpost Hq) as [Hlen Hshown]. rewrite Hf in Hlen, Hshown.
  unfold readable in Hlen, Hshown. split.
  - intros d Hd. rewrite Hd in Hlen. exact Hlen.
  - intros e He. rewrite He in Hlen, Hshown. split; [|apply Hshown; reflexivity].
    destruct (posts t); [reflexivity|discriminate Hlen].
Qed.

Lemma no_create (s : Step) (m : list Mark) :
  step_eqb AtCreate s = false -> all_at s m -> existsb is_create m = false.
Proof. intros Hne. apply (absent _ s _ m is_create_step Hne). Qed.

Lemma saveMessageToDb_no_id role content info w :
  exists w' t,
    exec (saveMessageToDb "" role content info) w = (Returned tt, w', t) /\
    chat_messages_tbl (backend w') = chat_messages_tbl (backend w) /\
    written_ids t = [] /\
    (session (backend w) <> None -> logged no_id_label t = true).
Proof.
  unfold saveMessageToDb, perform, written_ids, logged. cbn.
  destruct (session (backend w)) as [u|]; cbn; do 2 eexists;
    (split; [reflexivity|]); repeat split; auto.
Qed.

(** The ids and rows of one run of the [try] block. *)
Lemma steps_run_writes activeId content file w0 r w2 m :
  steps_run activeId content file w0 r w2 m ->
  exists ids rows objs,
    grows w0 w2 ids rows objs /\
    Forall (fun row => row_conversation_id row <> "") rows /\
    Forall (fun id => id <> "") (writes_of m) /\
    (no_id activeId = true ->
     (ids = [] /\ rows = [] /\ writes_of m = [] /\ r = Thrown creation_failed /\
      existsb is_request m = false /\ ui w2 = ui w0)
     \/
     (exists c post,
        m = Created c :: post /\ existsb is_create post = false /\
        ids = [conv_id c] /\
        activeConversationId (ui w2) = Some (conv_id c) /\
        conversations (ui w2) = c :: conversations (ui w0) /\
        Forall (fun id => id = conv_id c) (writes_of m) /\
        Forall (fun row => row_conversation_id row = conv_id c) rows)).
Proof.
  intros Hrun.
  destruct Hrun as
      [ w3 pre Hno Hc Hui Hg
      | w3 created pre Hres Hui Hg
      | w3 cur created pre url objs um urows sm gm err Hres Hcur Hat Hsv Hgm Hui Hg
      | w3 cur created pre url objs um urows sm gm ai arows am
           Hres Hcur Hat Hsv Hgm Hrole Hatt Hsa Hui Hg ].
  - exists [], [], []. split; [exact Hg|].
    pose proof (creation_step _ _ _ _ _ Hc) as Hst.
    rewrite (no_writes AtCreate pre eq_refl Hst).
    split; [constructor|]. split; [constructor|]. intros _. left.
    repeat split; auto.
    apply (absent _ AtCreate _ pre is_request_step eq_refl Hst).
  - exists (new_ids created), [], []. split; [exact Hg|].
    pose proof (resolution_step _ _ _ _ _ _ Hres) as Hst.
    rewrite (no_writes AtCreate pre eq_refl Hst).
    split; [constructor|]. split; [constructor|]. intros Hno. right.
    inversion Hres as [cur Ha Hcur|u c Hn Hs Hu Ht]; subst.
    + contradiction Hcur; reflexivity.
    + exists c, []. rewrite Hui. cbn. repeat split; auto.
  - destruct (saving_rows _ _ _ _ _ _ _ Hsv) as (Hrows & Hw & _ & _).
    assert (Wm : writes_of (pre ++ um ++ sm ++ gm ++ [Logged webhook_label]) = writes_of sm).
    { rewrite !writes_of_app,
        (no_writes AtCreate pre eq_refl (resolution_step _ _ _ _ _ _ Hres)),
        (no_writes AtUpload um eq_refl (attaching_step _ _ _ _ _ Hat)),
        (no_writes AtReply gm eq_refl (gateway_step gm Hgm)).
      cbn. rewrite app_nil_r. reflexivity. }
    exists (new_ids created), urows, objs. split; [exact Hg|]. rewrite Wm.
    split; [eapply Forall_impl; [|exact Hrows]; cbn; intros row (Hi & _); congruence|].
    split; [eapply Forall_impl; [|exact Hw]; cbn; intros id Hi; congruence|].
    intros Hno. right.
    inversion Hres as [cur' Ha Hcur'|u c Hn Hs Hu Ht]; subst.
    + cbn in Hno. apply String.eqb_eq in Hno. contradiction.
    + exists c, (um ++ sm ++ gm ++ [Logged webhook_label])%list.
      split; [reflexivity|]. split.
      { rewrite !existsb_app,
          (no_create AtUpload um eq_refl (attaching_step _ _ _ _ _ Hat)),
          (no_create AtSave sm eq_refl (saving_step _ _ _ _ _ _ _ Hsv)),
          (no_create AtReply gm eq_refl (gateway_step gm Hgm)). reflexivity. }
      rewrite Hui. cbn. repeat split; auto.
      eapply Forall_impl; [|exact Hrows]. cbn. intros row (Hi & _). exact Hi.
  - destruct (saving_rows _ _ _ _ _ _ _ Hsv) as (Hrows & Hw & _ & _).
    destruct (saving_rows _ _ _ _ _ _ _ Hsa) as (Harows & Hwa & _ & _).
    assert (Wm : writes_of (pre ++ um ++ sm ++ gm ++ am) = (writes_of sm ++ writes_of am)%list).
    { rewrite !writes_of_app,
        (no_writes AtCreate pre eq_refl (resolution_step _ _ _ _ _ _ Hres)),
        (no_writes AtUpload um eq_refl (attaching_step _ _ _ _ _ Hat)),
        (no_writes AtReply gm eq_refl (gateway_step gm Hgm)).
      reflexivity. }
    exists (new_ids created), (urows ++ arows)%list, objs. split; [exact Hg|]. rewrite Wm.
    split.
    { apply Forall_two; (eapply Forall_impl; [|eassumption]); cbn;
        intros row (Hi & _); congruence. }
    split.
    { apply Forall_two; (eapply Forall_impl; [|eassumption]); cbn;
        intros id Hi; congruence. }
    intros Hno. right.
    inversion Hres as [cur' Ha Hcur'|u c Hn Hs Hu Ht]; subst.
    + cbn in Hno. apply String.eqb_eq in Hno. contradiction.
    + exists c, (um ++ sm ++ gm ++ am)%list.
      split; [reflexivity|]. split.
      { rewrite !existsb_app,
          (no_create AtUpload um eq_refl (attaching_step _ _ _ _ _ Hat)),
          (no_create AtSave sm eq_refl (saving_step _ _ _ _ _ _ _ Hsv)),
          (no_create AtSave am eq_refl (saving_step _ _ _ _ _ _ _ Hsa)),
          (no_create AtReply gm eq_refl (gateway_step gm Hgm)). reflexivity. }
      rewrite Hui. cbn. split; [reflexivity|]. split; [reflexivity|].
      split; [reflexivity|]. split.
      { apply Forall_two; assumption. }
      apply Forall_two; (eapply Forall_impl; [|eassumption]); cbn;
        intros row (Hi & _); exact Hi.
Qed.

(** C2.  No message is written under an empty conversation reference.
    [saveMessageToDb] called with the empty id inserts nothing and returns
    (having logged the attempt, when there is a session to get that far).
    In any run of the handler, every message insert requested and every
    row added carries a non-empty conversation id.  When the handler runs
    with no active conversation, then either the creation fails, and no
    message is written, none is even requested, and the error is shown; or
    exactly one conversation is created, before anything else of note
    happens, its id becomes the active one, and every message insert of the
    run is made under that id. *)
Theorem no_write_without_conversation :
  (forall role content info w, exists w' t,
      exec (saveMessageToDb "" role content info) w = (Returned tt, w', t) /\
      chat_messages_tbl (backend w') = chat_messages_tbl (backend w) /\
      written_ids t = [] /\
      (session (backend w) <> None -> logged no_id_label t = true)) /\
  (forall w r w' t,
      exec handleSendMessage w = (r, w', t) ->
      exists ids rows objs,
        grows w w' ids rows objs /\
        Forall (fun row => row_conversation_id row <> "") rows /\
        Forall (fun id => id <> "") (written_ids t) /\
        (send_refused (ui w) = false ->
         no_id (activeConversationId (ui w)) = true ->
         (ids = [] /\ rows = [] /\ written_ids t = [] /\
          error_shown t = true /\ reply_requested t = false /\
          activeConversationId (ui w') = activeConversationId (ui w))
         \/
         (exists c post,
            marks t = Created c :: post /\ existsb is_create post = false /\
            ids = [conv_id c] /\
            activeConversationId (ui w') = Some (conv_id c) /\
            conversations (ui w') = c :: conversations (ui w) /\
            Forall (fun id => id = conv_id c) (written_ids t) /\
            Forall (fun row => row_conversation_id row = conv_id c) rows))).
Proof.
  split; [exact saveMessageToDb_no_id|].
  intros w r w' t E.
  destruct (send_refused (ui w)) eqn:Hgo.
  { rewrite (handleSendMessage_refused w Hgo) in E. injection E as <- <- <-.
    exists [], [], []. split; [apply grows_refl|].
    split; [constructor|]. split; [constructor|]. discriminate. }
  run_parts w Hgo E.
  destruct (steps_run_writes _ _ _ _ _ _ _ Hrun)
    as (ids & rows & objs & Hg & Hrows & Hw & Hcase).
  unfold written_ids, error_shown, reply_requested.
  rewrite Hm, writes_of_app, (no_writes AtCatch _ eq_refl (reported_step r1)), app_nil_r.
  exists ids, rows, objs. split; [eapply grows_set_ui; exact Hg|].
  split; [exact Hrows|]. split; [exact Hw|].
  intros _ Hno. destruct (Hcase Hno) as
      [(-> & -> & Hnw & -> & Hnr & Hui)
      |(c & post & Hpost & Hnc & -> & Hact & Hconv & Hwc & Hrc)].
  - left. rewrite !existsb_app, Hnr. cbn. rewrite Hui. cbn.
    repeat split; auto. apply orb_true_r.
  - right. exists c, (post ++ reported r1)%list. rewrite Hpost in *.
    split; [reflexivity|]. split.
    { rewrite existsb_app, Hnc.
      apply (absent _ AtCatch _ _ is_create_step eq_refl (reported_step r1)). }
    cbn. cbn in Hconv. repeat split; auto.
Qed.

(** ** Sample runs of the send pipeline *)



Lemma upload_failure_outcome_witness :
  exists r w' t,
    exec handleSendMessage world_upload_refused = (r, w', t) /\
    upload_failed t = true /\
    reply_requested t = true /\
    length (posts t) = 1 /\
    length (chat_messages_tbl (backend w')) = 2.
Proof.
  destruct (exec handleSendMessage world_upload_refused) as [[r w'] t] eqn:E.
  exists r, w', t.
  assert (F : upload_failed t = true /\ length (chat_messages_tbl (backend w')) = 2).
  { vm_compute in E. injection E as <- <- <-. split; reflexivity. }
  destruct F as [F L].
  destruct (proj2 upload_failure_outcome world_upload_refused r w' t E F)
    as (_ & Hq & _ & f & ids & rows & Hf & _ & _ & _ & Hposted & _).
  injection Hf as <-.
  repeat split; try assumption.
  apply (Hposted "data:image/png;base64,iVBORw0KGgo="). reflexivity.
Defined.

(** The claim as worded fails twice over.  When the upload fails for want
    of a session, the save that follows writes nothing, while the reply
    is still requested.  And when the file that the bucket refuses cannot
    be read either, the user message is saved but no reply is requested:
    nothing is posted. *)
Lemma upload_failure_without_user_message :
  (exists r w' t,
     exec handleSendMessage world_upload_signed_out = (r, w', t) /\
     upload_failed t = true /\
     length (posts t) = 1 /\
     chat_messages_tbl (backend world_upload_signed_out) = [] /\
     chat_messages_tbl (backend w') = []) /\
  (exists r w' t,
     exec handleSendMessage world_upload_unreadable = (r, w', t) /\
     upload_failed t = true /\
     posts t = [] /\
     length (chat_messages_tbl (backend w')) = 1).
Proof.
  split.
  - destruct (exec handleSendMessage world_upload_signed_out) as [[r w'] t] eqn:E.
    exists r, w', t. vm_compute in E. injection E as <- <- <-.
    repeat split; reflexivity.
  - destruct (exec handleSendMessage world_upload_unreadable) as [[r w'] t] eqn:E.
    exists r, w', t. vm_compute in E. injection E as <- <- <-.
    repeat split; reflexivity.
Qed.

Lemma no_write_without_conversation_witness :
  exists r w' t,
    exec handleSendMessage world_first_message = (r, w', t) /\
    send_refused (ui world_first_message) = false /\
    no_id (activeConversationId (ui world_first_message)) = true /\
    written_ids t = ["id1"; "id1"] /\
    Forall (fun id => id <> "") (written_ids t).
Proof.
  destruct (exec handleSendMessage world_first_message) as [[r w'] t] eqn:E.
  exists r, w', t.
  assert (F : written_ids t = ["id1"; "id1"]).
  { vm_compute in E. injection E as <- <- <-. reflexivity. }
  destruct (proj2 no_write_without_conversation world_first_message r w' t E)
    as (ids & rows & objs & _ & _ & Hw & _).
  repeat split; try reflexivity; assumption.
Defined.

(** ** Saving and loading a history *)

Lemma sort_by_sorted (l : list MessageRow) :
  StronglySorted (fun x y => row_created_at x <= row_created_at y) l ->
  sort_by (fun x y => row_created_at x <=? row_created_at y) l = l.
Proof.
  induction 1 as [|x l Hl IH Hx]; simpl; [reflexivity|].
  rewrite IH. destruct l as [|y l]; simpl; [reflexivity|].
  inversion Hx as [|? ? Hxy _]; subst.
  apply Nat.leb_le in Hxy. rewrite Hxy. reflexivity.
Qed.

Lemma sorted_filter (p : MessageRow -> bool) (l : list MessageRow) :
  StronglySorted (fun x y => row_created_at x <= row_created_at y) l ->
  StronglySorted (fun x y => row_created_at x <= row_created_at y) (filter p l).
Proof.
  induction 1 as [|x l Hl IH Hx]; simpl; [constructor|].
  destruct (p x); [|exact IH].
  constructor; [exact IH|].
  apply Forall_forall. intros y Hy. apply filter_In in Hy.
  rewrite Forall_forall in Hx. apply Hx. apply Hy.
Qed.

Lemma sorted_snoc (l : list MessageRow) (x : MessageRow) :
  StronglySorted (fun x y => row_created_at x <= row_created_at y) l ->
  Forall (fun y => row_created_at y <= row_created_at x) l ->
  StronglySorted (fun x y => row_created_at x <= row_created_at y) (l ++ [x]).
Proof.
  induction 1 as [|y l Hl IH Hy]; intros Hall; simpl.
  - constructor; constructor.
  - inversion Hall as [|? ? Hyx Hrest]; subst.
    constructor; [apply IH; exact Hrest|].
    apply Forall_app. split; [exact Hy|]. constructor; [exact Hyx|constructor].
Qed.

(** Every request leaves a settled backend settled. *)
Lemma handle_settled {X : Type} (e : Eff X) (w : World) :
  settled (backend w) -> settled (backend (snd (handle e w))).
Proof.
  intros [Hs Hc].
  assert (Tick : settled (tick (backend w))).
  { split; [exact Hs|]. eapply Forall_impl; [|exact Hc]. cbn. intros; lia. }
  destruct e; cbn;
    repeat match goal with
           | |- context [match ?x with _ => _ end] => destruct x
           end; cbn; try exact Tick; try (split; assumption).
  split; cbn.
  - apply sorted_snoc; [exact Hs|]. cbn. exact Hc.
  - apply Forall_app. split.
    + eapply Forall_impl; [|exact Hc]. cbn. intros; lia.
    + constructor; [cbn; lia|constructor].
Qed.

Lemma exec_settled {A : Type} (p : Prog A) : forall w,
  settled (backend w) -> settled (backend (snd (fst (exec p w)))).
Proof.
  induction p as [a|e|X e k IH]; intros w Hw; cbn; try exact Hw.
  pose proof (handle_settled e w Hw) as H1.
  destruct (handle e w) as [x w1]. cbn in H1.
  specialize (IH x w1 H1).
  destruct (exec (k x) w1) as [[r w2] t]. exact IH.
Qed.

(** A load in a settled backend that answers the select returns the rows of
    the conversation in table order. *)
Lemma loadChatHistory_settled cid w u :
  session (backend w) = Some u ->
  settled (backend w) ->
  (forall b, msg_select_error (env w) b cid = None) ->
  exists w' t,
    exec (loadChatHistory cid) w =
    (Returned (map message_of_row
                 (filter (fun m => String.eqb (row_conversation_id m) cid)
                    (chat_messages_tbl (backend w)))), w', t).
Proof.
  intros Hs [Hsorted _] Hsel. unfold loadChatHistory, perform. cbn -[sort_by].
  rewrite Hs. cbn -[sort_by]. rewrite Hsel. cbn -[sort_by].
  rewrite sort_by_sorted by (apply sorted_filter; exact Hsorted).
  do 2 eexists. reflexivity.
Qed.

(** One accepted save adds one row, as supplied, and keeps the backend
    settled. *)
Lemma saveMessageToDb_accepted cid role content info w u :
  session (backend w) = Some u ->
  cid <> "" ->
  settled (backend w) ->
  (forall b r c, msg_insert_error (env w) b cid r c = None) ->
  exists row w' t,
    exec (saveMessageToDb cid role content info) w = (Returned tt, w', t) /\
    chat_messages_tbl (backend w') = (chat_messages_tbl (backend w) ++ [row])%list /\
    row_conversation_id row = cid /\
    item_of (message_of_row row) = (role, content, info) /\
    session (backend w') = Some u /\ env w' = env w /\ settled (backend w').
Proof.
  intros Hs Hid [Hsorted Hclock] Hins. unfold saveMessageToDb, perform. cbn.
  rewrite Hs. cbn. destruct (String.eqb_spec cid "") as [->|_]; [contradiction|].
  cbn. rewrite Hins. cbn.
  do 3 eexists. split; [reflexivity|]. cbn.
  split; [reflexivity|]. split; [reflexivity|]. split.
  { unfold item_of, message_of_row. cbn. destruct info as [[n ty p url]|]; reflexivity. }
  split; [exact Hs|]. split; [reflexivity|]. split.
  - apply sorted_snoc; [exact Hsorted|]. cbn.
    eapply Forall_impl; [|exact Hclock]. cbn. intros; lia.
  - apply Forall_app. split.
    + eapply Forall_impl; [|exact Hclock]. cbn. intros; lia.
    + constructor; [cbn; lia|constructor].
Qed.

Lemma save_all_accepted cid items : forall w u,
  session (backend w) = Some u ->
  cid <> "" ->
  settled (backend w) ->
  (forall b r c, msg_insert_error (env w) b cid r c = None) ->
  exists rows w' t,
    exec (save_all cid items) w = (Returned tt, w', t) /\
    chat_messages_tbl (backend w') = (chat_messages_tbl (backend w) ++ rows)%list /\
    Forall (fun row => row_conversation_id row = cid) rows /\
    map (fun row => item_of (message_of_row row)) rows = items /\
    session (backend w') = Some u /\ env w' = env w /\ settled (backend w').
Proof.
  induction items as [|[[role content] info] items IH]; intros w u Hs Hid Hset Hins.
  - exists [], w, []. cbn. rewrite app_nil_r. repeat split; auto. apply Hset. apply Hset.
  - cbn [save_all]. rewrite exec_bind.
    destruct (saveMessageToDb_accepted cid role content info w u Hs Hid Hset Hins)
      as (row & w1 & t1 & E1 & Htbl1 & Hc1 & Hi1 & Hs1 & He1 & Hset1).
    rewrite E1.
    assert (Hins1 : forall b r c, msg_insert_error (env w1) b cid r c = None).
    { rewrite He1. exact Hins. }
    destruct (IH w1 u Hs1 Hid Hset1 Hins1)
      as (rows & w2 & t2 & E2 & Htbl2 & Hc2 & Hi2 & Hs2 & He2 & Hset2).
    rewrite E2.
    exists (row :: rows), w2, (t1 ++ t2)%list.
    split; [reflexivity|]. split.
    { rewrite Htbl2, Htbl1, <- app_assoc. reflexivity. }
    split; [constructor; assumption|]. split.
    { cbn [map]. rewrite Hi1, Hi2. reflexivity. }
    split; [exact Hs2|]. split; [congruence|exact Hset2].
Qed.

Lemma filter_all {A : Type} (p : A -> bool) (l : list A) :
  Forall (fun x => p x = true) l -> filter p l = l.
Proof.
  induction 1 as [|x l Hx _ IH]; simpl; [reflexivity|]. rewrite Hx, IH. reflexivity.
Qed.

(** [loadChatHistory] hands back the descriptor of a row as it is stored. *)
Lemma message_of_row_attachment (row : MessageRow) :
  msg_attachment (message_of_row row) = row_attachment_info row.
Proof.
  unfold message_of_row. cbn. destruct (row_attachment_info row) as [[n ty p u]|]; reflexivity.
Qed.

Lemma dbAttachmentInfo_no_preview file url : no_preview (dbAttachmentInfo file url).
Proof. intros a H. destruct file as [f|]; [|discriminate H]. injection H as <-. reflexivity. Qed.

(** The rows a send adds carry no preview reference. *)
Lemma handleSendMessage_no_preview w r w' t :
  exec handleSendMessage w = (r, w', t) ->
  exists ids rows objs,
    grows w w' ids rows objs /\
    Forall (fun row => no_preview (row_attachment_info row)) rows.
Proof.
  intros E.
  destruct (send_refused (ui w)) eqn:Hgo.
  { rewrite (handleSendMessage_refused w Hgo) in E. injection E as <- <- <-.
    exists [], [], []. split; [apply grows_refl|constructor]. }
  run_parts w Hgo E.
  assert (Hsave : forall cid role content info w0 rows m,
             saving cid role content info w0 rows m -> no_preview info ->
             Forall (fun row => no_preview (row_attachment_info row)) rows).
  { intros cid role content info w0 rows m Hsv Hinfo.
    destruct (saving_rows _ _ _ _ _ _ _ Hsv) as (Hrows & _).
    eapply Forall_impl; [|exact Hrows]. cbn. intros row (_ & _ & _ & ->). exact Hinfo. }
  inversion Hrun as
      [ w3 pre Hno Hc Hui Hg
      | w3 created pre Hres Hui Hg
      | w3 cur created pre url objs um urows sm gm err Hres Hcur Hat Hsv Hgm Hui Hg
      | w3 cur created pre url objs um urows sm gm ai arows am
           Hres Hcur Hat Hsv Hgm Hrole Hatt Hsa Hui Hg ]; subst.
  - exists [], [], []. split; [eapply grows_set_ui; exact Hg|constructor].
  - exists (new_ids created), [], []. split; [eapply grows_set_ui; exact Hg|constructor].
  - exists (new_ids created), urows, objs. split; [eapply grows_set_ui; exact Hg|].
    exact (Hsave _ _ _ _ _ _ _ Hsv (dbAttachmentInfo_no_preview _ _)).
  - exists (new_ids created), (urows ++ arows)%list, objs.
    split; [eapply grows_set_ui; exact Hg|]. apply Forall_app. split.
    + exact (Hsave _ _ _ _ _ _ _ Hsv (dbAttachmentInfo_no_preview _ _)).
    + apply (Hsave _ _ _ _ _ _ _ Hsa). intros a H. discriminate H.
Qed.

(** C6.  With a session, a backend that accepts the inserts and the
    select, and a table in creation order with no row stamped ahead of the
    clock: after any sequence of messages has been saved under one
    conversation, [loadChatHistory] returns what it returned before
    followed by those messages in the order they were saved, each with the
    role, the content and the attachment descriptor it was saved with; and
    when no preview reference was supplied, none is returned.  None is
    ever supplied: the descriptor the handler builds has none, no row a
    send adds carries one, and [loadChatHistory] hands back the descriptor
    of a row as it is stored.  The condition on the table holds of the
    empty backend and is kept by every run. *)
Theorem history_round_trip :
  (forall cid items w u,
      session (backend w) = Some u ->
      cid <> "" ->
      settled (backend w) ->
      (forall b r c, msg_insert_error (env w) b cid r c = None) ->
      (forall b, msg_select_error (env w) b cid = None) ->
      exists before loaded w1 t1 wa ta wb tb,
        exec (loadChatHistory cid) w = (Returned before, wa, ta) /\
        exec (save_all cid items) w = (Returned tt, w1, t1) /\
        exec (loadChatHistory cid) w1 = (Returned (before ++ loaded)%list, wb, tb) /\
        map item_of loaded = items /\
        (Forall (fun item : Item => no_preview (snd item)) items ->
         Forall (fun m => no_preview (msg_attachment m)) loaded)) /\
  (forall file url, no_preview (dbAttachmentInfo file url)) /\
  (forall w r w' t,
      exec handleSendMessage w = (r, w', t) ->
      exists ids rows objs,
        grows w w' ids rows objs /\
        Forall (fun row => no_preview (row_attachment_info row)) rows) /\
  (forall row, msg_attachment (message_of_row row) = row_attachment_info row) /\
  (forall s, settled (empty_backend s)) /\
  (forall (A : Type) (p : Prog A) w,
      settled (backend w) -> settled (backend (snd (fst (exec p w))))).
Proof.
  split; [|split; [exact dbAttachmentInfo_no_preview|
           split; [exact handleSendMessage_no_preview|
           split; [exact message_of_row_attachment|
           split; [intros s; split; constructor|
                   intros A p w; apply exec_settled]]]]].
  intros cid items w u Hs Hid Hset Hins Hsel.
  destruct (loadChatHistory_settled cid w u Hs Hset Hsel) as (wa & ta & Ea).
  destruct (save_all_accepted cid items w u Hs Hid Hset Hins)
    as (rows & w1 & t1 & E1 & Htbl & Hc & Hi & Hs1 & He1 & Hset1).
  assert (Hsel1 : forall b, msg_select_error (env w1) b cid = None).
  { rewrite He1. exact Hsel. }
  destruct (loadChatHistory_settled cid w1 u Hs1 Hset1 Hsel1) as (wb & tb & Eb).
  do 2 eexists. exists w1, t1, wa, ta, wb, tb.
  split; [exact Ea|]. split; [exact E1|]. split.
  { rewrite Eb, Htbl, filter_app, map_app.
    rewrite (filter_all _ rows); [reflexivity|].
    eapply Forall_impl; [|exact Hc]. cbn. intros row ->. apply String.eqb_refl. }
  split; [rewrite map_map; exact Hi|].
  rewrite <- Hi. intros Hitems. rewrite Forall_map in Hitems |- *.
  eapply Forall_impl; [|exact Hitems]. intros row H. exact H.
Qed.

Lemma history_round_trip_witness :
  session (backend world_signed_in) = Some alice /\
  "c1" <> "" /\
  settled (backend world_signed_in) /\
  exists before loaded w1 t1 wa ta wb tb,
    exec (loadChatHistory "c1") world_signed_in = (Returned before, wa, ta) /\
    exec (save_all "c1"
            [(user, JStr "segue o extrato", dbAttachmentInfo (Some photo) (Some "https://storage/extrato.png"));
             (assistant, JStr "Como posso ajudar?", None)])
      world_signed_in = (Returned tt, w1, t1) /\
    exec (loadChatHistory "c1") w1 = (Returned (before ++ loaded)%list, wb, tb) /\
    map item_of loaded =
      [(user, JStr "segue o extrato", dbAttachmentInfo (Some photo) (Some "https://storage/extrato.png"));
       (assistant, JStr "Como posso ajudar?", None)] /\
    Forall (fun m => no_preview (msg_attachment m)) loaded.
Proof.
  assert (Hset : settled (backend world_signed_in)).
  { split; constructor. }
  split; [reflexivity|]. split; [discriminate|]. split; [exact Hset|].
  destruct (proj1 history_round_trip "c1"
              [(user, JStr "segue o extrato",
                dbAttachmentInfo (Some photo) (Some "https://storage/extrato.png"));
               (assistant, JStr "Como posso ajudar?", None)]
              world_signed_in alice eq_refl ltac:(discriminate) Hset
              (fun _ _ _ => eq_refl) (fun _ => eq_refl))
    as (before & loaded & w1 & t1 & wa & ta & wb & tb & Ea & E1 & Eb & Hitems & Hprev).
  exists before, loaded, w1, t1, wa, ta, wb, tb.
  split; [exact Ea|]. split; [exact E1|]. split; [exact Eb|]. split; [exact Hitems|].
  apply Hprev. repeat constructor; intros a H; [injection H as <-; reflexivity|discriminate H].
Defined.

(** ** The busy flag *)

Lemma quiet_bind {A B : Type} (p : Prog A) (f : A -> Prog B) :
  quiet p -> (forall a, quiet (f a)) -> quiet (bind p f).
Proof.
  intros Hp Hf. induction Hp as [a|e|X e k He Hk IH]; simpl.
  - apply Hf.
  - constructor.
  - constructor; [exact He|exact IH].
Qed.

Lemma quiet_try_catch {A : Type} (p : Prog A) (h : Error -> Prog A) :
  quiet p -> (forall e, quiet (h e)) -> quiet (try_catch p h).
Proof.
  intros Hp Hh. induction Hp as [a|e|X e k He Hk IH]; simpl.
  - constructor.
  - apply Hh.
  - constructor; [exact He|exact IH].
Qed.

Lemma quiet_perform {X : Type} (e : Eff X) : writes_busy e = false -> quiet (perform e).
Proof. intros H. constructor; [exact H|]. intros x. constructor. Qed.

Lemma quiet_await {X : Type} (e : Eff (X + Error)) :
  writes_busy e = false -> quiet (await e).
Proof. intros H. constructor; [exact H|]. intros [x|err]; constructor. Qed.

Lemma quiet_reply_text data : quiet (reply_text data).
Proof. destruct data; constructor. Qed.

(** Walks through a program built from [bind], [perform], [await] and
    case distinctions. *)
Ltac quiet_walk :=
  repeat first
    [ apply quiet_ret
    | apply quiet_throw
    | apply quiet_perform; reflexivity
    | apply quiet_await; reflexivity
    | apply quiet_reply_text
    | apply quiet_bind; [|intro]
    | apply quiet_try_catch; [|intro]
    | match goal with
      | |- quiet (match ?x with _ => _ end) => destruct x
      | |- quiet (let '(_, _) := ?x in _) => destruct x
      end ].

Lemma quiet_send_steps activeId content file : quiet (send_steps activeId content file).
Proof.
  unfold send_steps, ensure_conversation, upload_file, reply_steps.
  quiet_walk.
Qed.

Lemma quiet_report err : quiet (report err).
Proof. unfold report. quiet_walk. Qed.

Lemma holding_finally (p : Prog unit) :
  quiet p -> holding (finally p (perform (SetIsTyping false))).
Proof.
  induction 1 as [a|e|X e k He Hk IH]; simpl.
  - apply holding_clear. intros x. reflexivity.
  - apply holding_clear. intros x. reflexivity.
  - apply holding_vis; [exact He|exact IH].
Qed.

Lemma arming_bind {A : Type} (p : Prog A) (f : A -> Prog unit) :
  instant p -> (forall a, arming (f a)) -> arming (bind p f).
Proof.
  intros Hp Hf. induction Hp as [a|e|X e k Ha Hb Hk IH]; simpl.
  - apply Hf.
  - constructor.
  - apply arming_vis; [exact Ha|exact Hb|exact IH].
Qed.

Lemma instant_bind {A B : Type} (p : Prog A) (f : A -> Prog B) :
  instant p -> (forall a, instant (f a)) -> instant (bind p f).
Proof.
  intros Hp Hf. induction Hp as [a|e|X e k Ha Hb Hk IH]; simpl.
  - apply Hf.
  - constructor.
  - apply instant_vis; [exact Ha|exact Hb|exact IH].
Qed.

Lemma instant_perform {X : Type} (e : Eff X) :
  is_async e = false -> writes_busy e = false -> instant (perform e).
Proof. intros Ha Hb. apply instant_vis; [exact Ha|exact Hb|]. intros x. constructor. Qed.

Lemma instant_show_optimistic content file : instant (show_optimistic content file).
Proof.
  unfold show_optimistic.
  repeat first
    [ apply instant_ret
    | apply instant_perform; reflexivity
    | apply instant_bind; [|intro]
    | match goal with
      | |- instant (match ?x with _ => _ end) => destruct x
      end ].
Qed.

Lemma arming_handleSendMessage : arming handleSendMessage.
Proof.
  unfold handleSendMessage.
  apply arming_bind; [apply instant_perform; reflexivity|]. intros st.
  destruct (send_refused st); [constructor|].
  apply arming_bind; [apply instant_show_optimistic|]. intros _.
  unfold perform at 1. cbn [bind].
  apply arming_set. intros []. cbn [bind].
  apply holding_finally. apply quiet_try_catch; [apply quiet_send_steps|].
  intros err. apply quiet_report.
Qed.

(** ** The event loop *)

Lemma handle_keeps_busy {X : Type} (e : Eff X) (w : World) :
  writes_busy e = false -> isTyping (ui (snd (handle e w))) = isTyping (ui w).
Proof.
  intros H. destruct e; try discriminate H; cbn;
    repeat match goal with
           | |- context [match ?x with _ => _ end] => destruct x
           end; reflexivity.
Qed.

(** A task of a program that holds the flag leaves it as it was, unless the
    program ends, and then the flag is down. *)
Lemma settle_holding {A : Type} (p : Prog A) :
  holding p -> forall w,
  if ended (fst (settle p w))
  then isTyping (ui (snd (settle p w))) = false
  else holding (fst (settle p w)) /\
       isTyping (ui (snd (settle p w))) = isTyping (ui w).
Proof.
  induction 1 as [X e k He Hk IH|k Hk]; intros w.
  - cbn [settle]. destruct (is_async e) eqn:Ha.
    + cbn. split; [apply holding_vis; assumption|reflexivity].
    + pose proof (handle_keeps_busy e w He) as Hb.
      destruct (handle e w) as [x w1]. cbn in Hb.
      specialize (IH x w1).
      destruct (ended (fst (settle (k x) w1))); [exact IH|].
      rewrite <- Hb. exact IH.
  - cbn [settle is_async handle]. specialize (Hk tt).
    destruct (k tt); try discriminate Hk; reflexivity.
Qed.

Lemma resume_holding {A : Type} (p : Prog A) (w : World) :
  holding p ->
  if ended (fst (resume p w))
  then isTyping (ui (snd (resume p w))) = false
  else holding (fst (resume p w)) /\
       isTyping (ui (snd (resume p w))) = isTyping (ui w).
Proof.
  intros H. destruct H as [X e k He Hk|k Hk]; cbn [resume].
  - pose proof (handle_keeps_busy e w He) as Hb.
    destruct (handle e w) as [x w1]. cbn in Hb.
    pose proof (settle_holding (k x) (Hk x) w1) as Hs.
    destruct (ended (fst (settle (k x) w1))); [exact Hs|].
    rewrite <- Hb. exact Hs.
  - cbn [handle]. specialize (Hk tt).
    destruct (k tt); try discriminate Hk; reflexivity.
Qed.

(** The first task of a send: it ends at once with the flag as it was, or
    it suspends with the flag up. *)
Lemma settle_arming {A : Type} (p : Prog A) :
  arming p -> forall w,
  if ended (fst (settle p w))
  then isTyping (ui (snd (settle p w))) = isTyping (ui w) \/
       isTyping (ui (snd (settle p w))) = false
  else holding (fst (settle p w)) /\ isTyping (ui (snd (settle p w))) = true.
Proof.
  induction 1 as [a|e|X e k Ha Hb Hk IH|k Hk]; intros w.
  - left. reflexivity.
  - left. reflexivity.
  - cbn [settle]. rewrite Ha.
    pose proof (handle_keeps_busy e w Hb) as Hw.
    destruct (handle e w) as [x w1]. cbn in Hw.
    specialize (IH x w1). rewrite <- Hw. exact IH.
  - cbn [settle is_async handle].
    pose proof (settle_holding (k tt) (Hk tt)
                  (set_ui {| messages := messages (ui w); inputValue := inputValue (ui w);
                             isTyping := true; selectedFile := selectedFile (ui w);
                             conversations := conversations (ui w);
                             activeConversationId := activeConversationId (ui w);
                             fileInputValue := fileInputValue (ui w) |} w)) as Hs.
    destruct (ended (fst (settle (k tt) _))); [right; exact Hs|exact Hs].
Qed.

(** A task is the beginning of the run: running on from where the task
    stopped ends as the whole run does. *)
Lemma settle_exec {A : Type} (p : Prog A) : forall w,
  fst (exec (fst (settle p w)) (snd (settle p w))) = fst (exec p w).
Proof.
  induction p as [a|e|X e k IH]; intros w; cbn [settle]; try reflexivity.
  destruct (is_async e); [reflexivity|].
  cbn [exec]. destruct (handle e w) as [x w1].
  rewrite IH. destruct (exec (k x) w1) as [[r w2] t]. reflexivity.
Qed.

Lemma resume_exec {A : Type} (p : Prog A) (w : World) :
  fst (exec (fst (resume p w)) (snd (resume p w))) = fst (exec p w).
Proof.
  destruct p as [a|e|X e k]; cbn [resume]; try reflexivity.
  cbn [exec]. destruct (handle e w) as [x w1].
  rewrite settle_exec. destruct (exec (k x) w1) as [[r w2] t]. reflexivity.
Qed.

Lemma settle_busy (w : World) :
  isTyping (ui w) = true -> settle handleSendMessage w = (Ret tt, w).
Proof.
  intros H. unfold handleSendMessage, perform. cbn [bind settle is_async handle].
  unfold send_refused. rewrite H, orb_true_r. reflexivity.
Qed.

Lemma guarded_step (s s' : System) : guarded s -> sys_step s s' -> guarded s'.
Proof.
  intros (Hh & Hl & Hf) Hstep.
  destruct Hstep as [w ps|w ps1 p ps2|w w' ps Hsame]; unfold guarded;
    cbn [world in_flight] in *.
  - destruct (isTyping (ui w)) eqn:Hb.
    + rewrite (settle_busy w Hb). cbn [fst snd keep ended app]. rewrite Hb.
      split; [exact Hh|]. split; [exact Hl|exact Hf].
    + assert (ps = []) as ->.
      { destruct ps; [reflexivity|]. exfalso.
        assert (false = true) by (apply Hf; discriminate). discriminate. }
      pose proof (settle_arming handleSendMessage arming_handleSendMessage w) as Hs.
      unfold keep. destruct (ended (fst (settle handleSendMessage w))); cbn [app length].
      * split; [constructor|]. split; [lia|]. split.
        -- intros Ht. destruct Hs as [Hs|Hs]; congruence.
        -- intros Hne. contradiction Hne. reflexivity.
      * destruct Hs as [Hp Ht]. split; [constructor; [exact Hp|constructor]|].
        split; [lia|]. split; [discriminate|intros _; exact Ht].
  - assert (ps1 = [] /\ ps2 = []) as [-> ->].
    { destruct ps1 as [|q ps1]; [|cbn in Hl; rewrite length_app in Hl; cbn in Hl; lia].
      destruct ps2; [split; reflexivity|cbn in Hl; lia]. }
    cbn [app length] in *. inversion Hh as [|? ? Hp _]; subst.
    pose proof (resume_holding p w Hp) as Hs.
    unfold keep. destruct (ended (fst (resume p w))); cbn [app length].
    + split; [constructor|]. split; [lia|]. split.
      * intros Ht. congruence.
      * intros Hne. contradiction Hne. reflexivity.
    + destruct Hs as [Hp' Ht]. split; [constructor; [exact Hp'|constructor]|].
      split; [lia|]. split; [discriminate|].
      intros _. rewrite Ht. apply Hf. discriminate.
  - rewrite Hsame. split; [exact Hh|]. split; [exact Hl|exact Hf].
Qed.

Lemma guarded_reachable (w0 : World) (s : System) :
  isTyping (ui w0) = false -> reachable w0 s -> guarded s.
Proof.
  intros H0. induction 1 as [|s s' _ IH Hstep].
  - unfold guarded. cbn [world in_flight].
    split; [constructor|]. split; [cbn; lia|]. split.
    + intros Ht. congruence.
    + intros Hne. contradiction Hne. reflexivity.
  - eapply guarded_step; eauto.
Qed.

(** C3.  Invoked while the busy flag is set, [handleSendMessage] does
    nothing: it reads its state and returns, the world is unchanged and no
    request is made.  A run that passes the guard always returns with the
    flag cleared, whether its steps succeeded or failed.  And in the life
    of the view, started with the flag down, the flag is up exactly while a
    send is in flight, and at most one send is ever in flight. *)
Theorem busy_flag_guard :
  (forall w, isTyping (ui w) = true ->
     exec handleSendMessage w = (Returned tt, w, [Ev ReadState (ui w)]) /\
     settle handleSendMessage w = (Ret tt, w)) /\
  (forall w r w' t,
     exec handleSendMessage w = (r, w', t) ->
     send_refused (ui w) = false ->
     r = Returned tt /\ isTyping (ui w') = false) /\
  (forall w0 s,
     isTyping (ui w0) = false ->
     reachable w0 s ->
     length (in_flight s) <= 1 /\
     (isTyping (ui (world s)) = true <-> in_flight s <> [])).
Proof.
  split; [|split].
  - intros w H. split; [|apply settle_busy; exact H].
    apply handleSendMessage_refused. unfold send_refused. rewrite H. apply orb_true_r.
  - intros w r w' t E Hgo. run_parts w Hgo E. split; reflexivity.
  - intros w0 s H0 Hr. apply (guarded_reachable w0 s H0 Hr).
Qed.

Lemma busy_flag_guard_witness :
  isTyping (ui world_first_message) = false /\
  reachable world_first_message (after_send (after_send (idle world_first_message))) /\
  length (in_flight (after_send (after_send (idle world_first_message)))) = 1 /\
  length (in_flight (after_send (after_send (idle world_first_message)))) <= 1.
Proof.
  assert (R : reachable world_first_message
                (after_send (after_send (idle world_first_message)))).
  { eapply reach_step; [eapply reach_step; [apply reach_start|]|].
    - apply (step_send world_first_message []).
    - apply (step_send (world (after_send (idle world_first_message)))
               (in_flight (after_send (idle world_first_message)))). }
  split; [reflexivity|]. split; [exact R|]. split; [vm_compute; reflexivity|].
  exact (proj1 (proj2 (proj2 busy_flag_guard) world_first_message _ eq_refl R)).
Defined.

(* ================================================================== *)
(** * Part II, continued. Properties of the rest of the code           *)
(* ================================================================== *)

(** ** The masks *)

Example maskPhone_mobile : maskPhone "11987654321" = "(11) 98765-4321".
Proof. reflexivity. Qed.

Example maskPhone_landline : maskPhone "1132654321" = "(11) 3265-4321".
Proof. reflexivity. Qed.

Example maskPhone_short : maskPhone "1198" = "(11) 98".
Proof. reflexivity. Qed.

Example maskCEP_full : maskCEP "01310100" = "01310-100".
Proof. reflexivity. Qed.

Example maskCEP_overlong : maskCEP "01310-100999" = "01310-100".
Proof. reflexivity. Qed.

(** Rewrites the digit tests of the characters known to be digits. *)
Ltac known_digits :=
  repeat (simpl;
          repeat match goal with
                 | H : is_digit ?c = true |- context [is_digit ?c] => rewrite H
                 | H : all_digits ?s = true |- context [all_digits ?s] => rewrite H
                 | H : is_digit ?c = true |- context [Ascii.eqb ?c "-"] =>
                     rewrite (digit_not_dash c H)
                 end).

(** Splits [all_digits (c1 c2 ... rest) = true] into its parts. *)
Ltac split_digits H :=
  simpl in H;
  repeat match type of H with
         | (_ && _)%bool = true =>
             let Hc := fresh "Hc" in
             apply andb_prop in H; destruct H as [Hc H]
         end.

Lemma digits_only_length (s : string) :
  String.length (digits_only s) <= String.length s.
Proof.
  induction s as [|c t IH]; simpl; [lia|].
  destruct (is_digit c); simpl; lia.
Qed.

(** What [maskCPF] makes of a string of digits: the first eleven of them,
    in at most fourteen characters, and the same as it makes of those
    eleven alone. *)
Lemma maskCPF_of_digits (d : string) :
  all_digits d = true ->
  digits_only (maskCPF d) = String.substring 0 11 d /\
  String.length (maskCPF d) <= 14 /\
  maskCPF (String.substring 0 11 d) = maskCPF d.
Proof.
  intros Hd. unfold maskCPF at 1 2 4. rewrite (digits_only_fixed d Hd).
  do 12 (destruct d as [|? d];
         [ split_digits Hd; unfold maskCPF; known_digits;
           repeat split; try reflexivity; lia | ]).
  split_digits Hd. unfold maskCPF. known_digits.
  repeat split; try reflexivity; lia.
Qed.

Lemma maskCPF_digits_only (s : string) : maskCPF (digits_only s) = maskCPF s.
Proof. unfold maskCPF. rewrite digits_only_idempotent. reflexivity. Qed.

Lemma substring_all_digits (n : nat) (d : string) :
  all_digits d = true -> all_digits (String.substring 0 n d) = true.
Proof.
  revert n. induction d as [|c d IH]; intros n H.
  - destruct n; reflexivity.
  - destruct n as [|n]; [reflexivity|]. simpl in *.
    apply andb_prop in H. destruct H as [Hc Hd]. rewrite Hc, (IH n Hd). reflexivity.
Qed.

Lemma maskCPF_digits (s : string) :
  digits_only (maskCPF s) = String.substring 0 11 (digits_only s).
Proof.
  rewrite <- (maskCPF_digits_only s).
  apply (maskCPF_of_digits (digits_only s) (digits_only_all_digits s)).
Qed.

(** X1.  Whatever is typed, [maskCPF] keeps the first eleven digits and
    nothing else of it, and shows them in at most fourteen characters. *)
Theorem maskCPF_keeps_first_eleven (s : string) :
  digits_only (maskCPF s) = String.substring 0 11 (digits_only s) /\
  String.length (maskCPF s) <= 14.
Proof.
  rewrite <- (maskCPF_digits_only s).
  destruct (maskCPF_of_digits (digits_only s) (digits_only_all_digits s)) as (H1 & H2 & _).
  split; assumption.
Qed.

(** X2.  Masking a masked value changes nothing. *)
Theorem maskCPF_idempotent (s : string) : maskCPF (maskCPF s) = maskCPF s.
Proof.
  rewrite <- (maskCPF_digits_only (maskCPF s)).
  rewrite (maskCPF_digits s).
  destruct (maskCPF_of_digits (digits_only s) (digits_only_all_digits s)) as (_ & _ & H).
  rewrite H. apply maskCPF_digits_only.
Qed.

(** X3.  [validateCPF] judges a masked value by the first eleven digits
    of what was typed: digits past the eleventh, which make the raw input
    invalid, are gone once it is masked. *)
Theorem validateCPF_maskCPF (s : string) :
  validateCPF (maskCPF s) = validateCPF (String.substring 0 11 (digits_only s)).
Proof.
  unfold validateCPF.
  rewrite (maskCPF_digits s).
  rewrite (digits_only_fixed (String.substring 0 11 (digits_only s))).
  - reflexivity.
  - apply substring_all_digits, digits_only_all_digits.
Qed.

Example validateCPF_overlong_raw : validateCPF "5299822472599" = false.
Proof. reflexivity. Qed.

Example validateCPF_overlong_masked : validateCPF (maskCPF "5299822472599") = true.
Proof. reflexivity. Qed.

(** What [maskCEP] makes of a string of digits. *)
Lemma maskCEP_of_digits (d : string) :
  all_digits d = true ->
  digits_only (maskCEP d) = String.substring 0 8 d /\
  String.length (maskCEP d) <= 9 /\
  maskCEP (String.substring 0 8 d) = maskCEP d /\
  (String.length (maskCEP d) = 9 <-> 8 <= String.length d).
Proof.
  intros Hd. unfold maskCEP at 1 2 4 5. rewrite (digits_only_fixed d Hd).
  do 8 (destruct d as [|? d];
        [ split_digits Hd; unfold maskCEP, dash_after_five; known_digits;
          repeat split; try reflexivity; simpl; lia | ]).
  split_digits Hd. unfold maskCEP, dash_after_five. known_digits.
  repeat split; try reflexivity; simpl; try lia.
  all: try (destruct d; reflexivity).
  all: try (destruct d; simpl; lia).
Qed.

Lemma maskCEP_digits_only (s : string) : maskCEP (digits_only s) = maskCEP s.
Proof. unfold maskCEP. rewrite digits_only_idempotent. reflexivity. Qed.

Lemma maskCEP_digits (s : string) :
  digits_only (maskCEP s) = String.substring 0 8 (digits_only s).
Proof.
  rewrite <- (maskCEP_digits_only s).
  apply (maskCEP_of_digits (digits_only s) (digits_only_all_digits s)).
Qed.

(** X4.  [maskCEP] keeps the first eight digits of what is typed and
    nothing else, in at most nine characters. *)
Theorem maskCEP_keeps_first_eight (s : string) :
  digits_only (maskCEP s) = String.substring 0 8 (digits_only s) /\
  String.length (maskCEP s) <= 9.
Proof.
  rewrite <- (maskCEP_digits_only s).
  destruct (maskCEP_of_digits (digits_only s) (digits_only_all_digits s))
    as (H1 & H2 & _).
  split; assumption.
Qed.

(** X5.  Masking a masked postal code changes nothing: the effect of
    [Step2Address] that writes [maskCEP cepValue] back into the field
    comes to rest after one round. *)
Theorem maskCEP_idempotent (s : string) : maskCEP (maskCEP s) = maskCEP s.
Proof.
  rewrite <- (maskCEP_digits_only (maskCEP s)).
  rewrite (maskCEP_digits s).
  destruct (maskCEP_of_digits (digits_only s) (digits_only_all_digits s))
    as (_ & _ & H & _).
  rewrite H. apply maskCEP_digits_only.
Qed.

Lemma substring_length_min (n : nat) (s : string) :
  String.length (String.substring 0 n s) = Nat.min n (String.length s).
Proof.
  revert n. induction s as [|c s IH]; intros [|n]; simpl; auto.
Qed.

(** X6.  On a masked postal code the rule of the schema (nine characters
    at least) and the guard of [handleCepBlur] (exactly eight digits)
    agree: both hold exactly when eight digits or more were typed. *)
Theorem cep_rule_and_lookup_agree (s : string) :
  step2Schema_cep (maskCEP s) = (8 <=? String.length (digits_only s)) /\
  cep_lookup_due (Some (maskCEP s)) = (8 <=? String.length (digits_only s)).
Proof.
  split.
  - unfold step2Schema_cep. rewrite <- (maskCEP_digits_only s).
    destruct (maskCEP_of_digits (digits_only s) (digits_only_all_digits s))
      as (_ & Hle & _ & Hiff).
    destruct (Nat.leb_spec 8 (String.length (digits_only s))) as [H|H].
    + apply Nat.leb_le. apply Hiff in H. lia.
    + apply Nat.leb_gt. destruct (Nat.eq_dec (String.length (maskCEP (digits_only s))) 9) as [E|E].
      * apply Hiff in E. lia.
      * lia.
  - unfold cep_lookup_due. rewrite (maskCEP_digits s).
    pose proof (substring_length_min 8 (digits_only s)) as L.
    destruct (Nat.leb_spec 8 (String.length (digits_only s))) as [H|H].
    + rewrite Nat.min_l in L by lia.
      rewrite L. destruct (String.substring 0 8 (digits_only s)); [discriminate L|reflexivity].
    + rewrite Nat.min_r in L by lia. rewrite L.
      replace (String.length (digits_only s) =? 8) with false
        by (symmetry; apply Nat.eqb_neq; lia).
      apply andb_false_r.
Qed.

Lemma digits_only_dash (s : string) :
  digits_only (dash_before_last_four s) = digits_only s.
Proof.
  induction s as [|a t IH]; [reflexivity|].
  cbn [dash_before_last_four]. destruct (five_digits_left (String a t)).
  - reflexivity.
  - cbn [digits_only]. rewrite IH. reflexivity.
Qed.

Lemma digits_only_paren (s : string) :
  digits_only (paren_area_code s) = digits_only s.
Proof.
  destruct s as [|a [|b [|c r]]]; try reflexivity.
  unfold paren_area_code.
  destruct (is_digit a && is_digit b && is_digit c); reflexivity.
Qed.

Lemma maskPhone_digits (s : string) : digits_only (maskPhone s) = digits_only s.
Proof.
  unfold maskPhone. rewrite digits_only_dash, digits_only_paren.
  apply digits_only_idempotent.
Qed.

(** X7.  [maskPhone] drops no digit and adds none, and masking a masked
    number changes nothing. *)
Theorem maskPhone_keeps_digits (s : string) :
  digits_only (maskPhone s) = digits_only s /\
  maskPhone (maskPhone s) = maskPhone s.
Proof.
  split; [apply maskPhone_digits|].
  unfold maskPhone at 1. rewrite maskPhone_digits. reflexivity.
Qed.

Lemma all_digits_length_dash (r : string) :
  all_digits r = true ->
  String.length (dash_before_last_four r) =
  if 5 <=? String.length r then S (String.length r) else String.length r.
Proof.
  induction r as [|a t IH]; intros H; [reflexivity|].
  simpl in H. apply andb_prop in H. destruct H as [Ha Ht].
  cbn [dash_before_last_four five_digits_left]. rewrite Ha, Ht.
  rewrite andb_true_r. cbn [andb].
  destruct (Nat.eqb_spec (String.length t) 4) as [E|E].
  - cbn [String.length]. rewrite E. reflexivity.
  - cbn [String.length]. rewrite (IH Ht).
    destruct (Nat.leb_spec 5 (String.length t));
      destruct (Nat.leb_spec 5 (S (String.length t))); lia.
Qed.

Lemma dash_skips_area_code (a b : ascii) (r : string) :
  dash_before_last_four
    (String "(" (String a (String b (String ")" (String " " r))))) =
  String "(" (String a (String b (String ")" (String " "
    (dash_before_last_four r))))).
Proof.
  cbn [dash_before_last_four five_digits_left all_digits is_digit].
  replace (is_digit "(") with false by reflexivity.
  replace (is_digit ")") with false by reflexivity.
  replace (is_digit " ") with false by reflexivity.
  cbn [andb]. rewrite !andb_false_r. reflexivity.
Qed.

(** What [maskPhone] makes of a string of digits. *)
Lemma maskPhone_length_of_digits (d : string) :
  all_digits d = true ->
  String.length (maskPhone d) =
  let n := String.length d in
  if n <? 3 then n else if n <? 7 then n + 3 else n + 4.
Proof.
  intros Hd. unfold maskPhone. rewrite (digits_only_fixed d Hd).
  destruct d as [|a [|b [|c r]]]; try reflexivity.
  1,2: cbn [paren_area_code dash_before_last_four five_digits_left
            String.length Nat.eqb all_digits];
       rewrite ?andb_false_r; reflexivity.
  cbn [all_digits] in Hd.
  apply andb_prop in Hd. destruct Hd as [Ha Hd].
  apply andb_prop in Hd. destruct Hd as [Hb Hd].
  pose proof Hd as Hcr.
  apply andb_prop in Hd. destruct Hd as [Hc Hd].
  unfold paren_area_code. rewrite Ha, Hb, Hc. cbn [andb].
  rewrite dash_skips_area_code. cbn [String.length].
  rewrite (all_digits_length_dash (String c r) Hcr).
  cbn [String.length].
  destruct (Nat.leb_spec 5 (S (String.length r)));
    destruct (Nat.ltb_spec (S (S (S (String.length r)))) 3);
    destruct (Nat.ltb_spec (S (S (S (String.length r)))) 7); lia.
Qed.

(** X8.  The length of a masked phone number is fixed by the number of
    digits typed, and the rule of the schema (fourteen characters at
    least) holds of it exactly when ten digits or more were typed. *)
Theorem maskPhone_length (s : string) :
  String.length (maskPhone s) =
    (let n := String.length (digits_only s) in
     if n <? 3 then n else if n <? 7 then n + 3 else n + 4) /\
  step1Schema_phone (maskPhone s) = (10 <=? String.length (digits_only s)).
Proof.
  assert (E : maskPhone s = maskPhone (digits_only s)).
  { unfold maskPhone. rewrite digits_only_idempotent. reflexivity. }
  pose proof (maskPhone_length_of_digits (digits_only s) (digits_only_all_digits s)) as L.
  rewrite <- E in L. split; [exact L|].
  unfold step1Schema_phone. rewrite L. cbv zeta.
  destruct (Nat.ltb_spec (String.length (digits_only s)) 3);
    destruct (Nat.ltb_spec (String.length (digits_only s)) 7);
    destruct (Nat.leb_spec 10 (String.length (digits_only s)));
    try lia; (apply Nat.leb_le || apply Nat.leb_gt); lia.
Qed.

Lemma validateCPF_true (s : string) :
  validateCPF s = true ->
  String.length (digits_only s) = 11 /\ checksum_ok (digits_only s) = true.
Proof.
  unfold validateCPF. cbv zeta.
  destruct (String.eqb (digits_only s) ""); [discriminate|].
  destruct (Nat.eqb_spec (String.length (digits_only s)) 11) as [E|E].
  - cbn [negb orb].
    destruct (existsb (String.eqb (digits_only s)) known_invalid); [discriminate|].
    intros H. split; assumption.
  - cbn [negb orb]. discriminate.
Qed.

(** X9.  The length rule in front of [validateCPF] in the schema never
    decides anything: the field is valid exactly when [validateCPF]
    accepts it.  And of a valid field, [onSubmit] sends exactly eleven
    digits to the duplicate check and to the profile. *)
Theorem step1Schema_cpf_is_validateCPF :
  (forall s, step1Schema_cpf s = validateCPF s) /\
  (forall s, step1Schema_cpf s = true ->
     String.length (cpfLimpo s) = 11 /\
     all_digits (cpfLimpo s) = true /\
     validateCPF (cpfLimpo s) = true).
Proof.
  assert (E : forall s, step1Schema_cpf s = validateCPF s).
  { intros s. unfold step1Schema_cpf. destruct (validateCPF s) eqn:V.
    - apply validateCPF_true in V. destruct V as [L _].
      pose proof (digits_only_length s) as Hle.
      rewrite andb_true_r. apply Nat.leb_le. lia.
    - apply andb_false_r. }
  split; [exact E|]. intros s H. rewrite E in H. unfold cpfLimpo.
  split; [apply (validateCPF_true s H)|]. split; [apply digits_only_all_digits|].
  unfold validateCPF in *. rewrite digits_only_idempotent. exact H.
Qed.

Lemma step1Schema_cpf_is_validateCPF_witness :
  String.length (cpfLimpo "529.982.247-25") = 11.
Proof.
  apply (proj2 step1Schema_cpf_is_validateCPF "529.982.247-25"). reflexivity.
Defined.

Lemma js_eq_same_value (x : jsnum) (a b : Z) :
  js_eq x (Int a) = true -> js_eq x (Int b) = true -> a = b.
Proof.
  destruct x as [|z]; cbn [js_eq]; try discriminate.
  intros Ha Hb. apply Z.eqb_eq in Ha. apply Z.eqb_eq in Hb. congruence.
Qed.

Lemma digit_of_value (c c' : ascii) :
  (Z.of_nat (nat_of_ascii c) - 48 = Z.of_nat (nat_of_ascii c') - 48)%Z -> c = c'.
Proof.
  intros H. assert (E : nat_of_ascii c = nat_of_ascii c') by lia.
  rewrite <- (ascii_nat_embedding c), <- (ascii_nat_embedding c'), E. reflexivity.
Qed.

Lemma same_check_digit (x : jsnum) (c c' : ascii) :
  is_digit c = true -> is_digit c' = true ->
  js_neq x (parseInt_char (String c "")) = false ->
  js_neq x (parseInt_char (String c' "")) = false ->
  c = c'.
Proof.
  unfold js_neq, parseInt_char. intros Hc Hc'. rewrite Hc, Hc'.
  intros H H'. apply negb_false_iff in H. apply negb_false_iff in H'.
  apply digit_of_value. exact (js_eq_same_value x _ _ H H').
Qed.

Lemma checksum_ok_determined (d d' : string) :
  all_digits d = true -> all_digits d' = true ->
  String.length d = 11 -> String.length d' = 11 ->
  checksum_ok d = true -> checksum_ok d' = true ->
  String.substring 0 9 d = String.substring 0 9 d' ->
  d = d'.
Proof.
  intros A A' L L' K K' E.
  do 11 (destruct d as [|? d]; [discriminate L|]).
  destruct d; [|discriminate L].
  do 11 (destruct d' as [|? d']; [discriminate L'|]).
  destruct d'; [|discriminate L'].
  cbn [String.substring] in E. injection E as -> -> -> -> -> -> -> -> ->.
  cbn [all_digits] in A, A'.
  repeat match goal with
  | H : (_ && _)%bool = true |- _ => apply andb_prop in H; destruct H
  end.
  unfold checksum_ok in K, K'.
  cbn [weighted_sum fold_left seq charAt String.get] in K, K'.
  match type of K with
  | (if js_neq ?x _ then _ else _) = _ =>
      destruct (js_neq x (parseInt_char (String a8 ""))) eqn:K1; [discriminate K|]
  end.
  match type of K' with
  | (if js_neq ?x _ then _ else _) = _ =>
      destruct (js_neq x (parseInt_char (String a19 ""))) eqn:K1'; [discriminate K'|]
  end.
  assert (a8 = a19) by (eapply same_check_digit; eassumption). subst.
  match type of K with
  | (if js_neq ?x ?y then _ else _) = _ =>
      destruct (js_neq x y) eqn:K2; [discriminate K|]
  end.
  match type of K' with
  | (if js_neq ?x ?y then _ else _) = _ =>
      destruct (js_neq x y) eqn:K2'; [discriminate K'|]
  end.
  assert (a9 = a20) by (eapply same_check_digit; eassumption). subst.
  reflexivity.
Qed.

(** X10.  The last two digits of a number [validateCPF] accepts are fixed
    by the nine before them: two accepted values that agree on their
    first nine digits have the same digits throughout. *)
Theorem validateCPF_check_digits_determined (s s' : string) :
  validateCPF s = true -> validateCPF s' = true ->
  String.substring 0 9 (digits_only s) = String.substring 0 9 (digits_only s') ->
  digits_only s = digits_only s'.
Proof.
  intros V V' E.
  apply validateCPF_true in V. destruct V as [L K].
  apply validateCPF_true in V'. destruct V' as [L' K'].
  apply checksum_ok_determined; auto using digits_only_all_digits.
Qed.

Lemma validateCPF_check_digits_determined_witness :
  digits_only "529.982.247-25" = digits_only "52998224725".
Proof.
  apply (validateCPF_check_digits_determined "529.982.247-25" "52998224725");
    reflexivity.
Defined.

(** ** The reply gateway, continued *)

Lemma split_on_none (sep : ascii) (s : string) :
  contains_char sep s = false -> split_on sep s = [s].
Proof.
  induction s as [|c t IH]; [reflexivity|].
  cbn [contains_char split_on]. intros H. apply orb_false_elim in H. destruct H as [Hc Ht].
  rewrite Hc, (IH Ht). reflexivity.
Qed.

Lemma split_on_first (sep : ascii) (h p : string) :
  contains_char sep h = false ->
  split_on sep (h ++ String sep p) = h :: split_on sep p.
Proof.
  induction h as [|c t IH]; cbn [contains_char String.append split_on]; intros H.
  - rewrite Ascii.eqb_refl. reflexivity.
  - apply orb_false_elim in H. destruct H as [Hc Ht]. rewrite Hc, (IH Ht). reflexivity.
Qed.

(** X11.  [convertFileToBase64] resolves to what stands after the comma
    of the data URL, when the header has no comma of its own and the
    payload has none; for a result without a comma it resolves to
    [undefined]. *)
Theorem convertFileToBase64_strips_header (file : File) (w : World) :
  (forall header payload : string,
      data_url (env w) file = inl (header ++ "," ++ payload) ->
      contains_char "," header = false ->
      contains_char "," payload = false ->
      fst (fst (exec (convertFileToBase64 file) w)) = Returned (Some payload)) /\
  (forall result : string,
      data_url (env w) file = inl result ->
      contains_char "," result = false ->
      fst (fst (exec (convertFileToBase64 file) w)) = Returned None).
Proof.
  split.
  - intros header payload E Hh Hp.
    unfold convertFileToBase64, await. cbn -[split_on String.append]. rewrite E.
    cbn -[split_on String.append]. change ("," ++ payload) with (String "," payload).
    rewrite (split_on_first _ _ _ Hh), (split_on_none _ _ Hp). reflexivity.
  - intros result E Hr.
    unfold convertFileToBase64, await. cbn -[split_on String.append]. rewrite E.
    cbn -[split_on String.append]. rewrite (split_on_none _ _ Hr). reflexivity.
Qed.

Lemma convertFileToBase64_strips_header_witness :
  fst (fst (exec (convertFileToBase64 photo) world_first_message)) =
  Returned (Some "iVBORw0KGgo=").
Proof.
  apply (proj1 (convertFileToBase64_strips_header photo world_first_message)
           "data:image/png;base64" "iVBORw0KGgo="); reflexivity.
Defined.

(** The one [Requested] mark among those of a run of the gateway. *)
Ltac the_request H :=
  cbn -[String.append] in H;
  repeat match type of H with
         | _ \/ _ => destruct H as [H|H]
         | False => contradiction H
         | Logged _ = _ => discriminate H
         | FileRead = _ => discriminate H
         end;
  match type of H with
  | Requested _ _ = Requested _ _ => injection H as ? ?; subst
  end.

Lemma user_id_or_anonymous (s : option User) :
  match s with
  | Some u => if String.eqb (user_id u) "" then "anonymous" else user_id u
  | None => "anonymous"
  end <> "".
Proof.
  destruct s as [u|]; [|discriminate].
  destruct (String.eqb_spec (user_id u) ""); [discriminate|assumption].
Qed.

(** X12.  Whatever [sendMessageToWebhook] posts carries the message and
    the conversation id it was given, a user id that is never empty (the
    session's, or [anonymous]), and the type and name of the file exactly
    when there is a file; and it posts once at most. *)
Theorem sendMessageToWebhook_payload message cid file w r w' t body ans :
  exec (sendMessageToWebhook message cid file) w = (r, w', t) ->
  In (Requested body ans) (marks t) ->
  p_message body = message /\
  p_conversation_id body = cid /\
  p_user_id body =
    match session (backend w) with
    | Some u => if String.eqb (user_id u) "" then "anonymous" else user_id u
    | None => "anonymous"
    end /\
  p_user_id body <> "" /\
  p_file_type body = option_map file_type file /\
  p_file_name body = option_map file_name file /\
  (file = None -> p_file_content_base64 body = None) /\
  length (filter is_post (marks t)) = 1.
Proof.
  intros E HIn. pose proof (user_id_or_anonymous (session (backend w))) as Hu.
  gateway_paths w file E; the_request HIn; cbn -[String.append];
    repeat split; try reflexivity; try exact Hu; discriminate.
Qed.

Lemma sendMessageToWebhook_payload_witness :
  let w := world_first_message in
  exists r w' t,
    exec (sendMessageToWebhook "oi" "c1" None) w = (r, w', t) /\
    In (Requested plain_payload (inl (ok_response greeting))) (marks t) /\
    p_user_id plain_payload = "u1" /\
    length (filter is_post (marks t)) = 1.
Proof.
  intros w.
  destruct (exec (sendMessageToWebhook "oi" "c1" None) w) as [[r w'] t] eqn:E.
  exists r, w', t.
  assert (HIn : In (Requested plain_payload (inl (ok_response greeting))) (marks t)).
  { vm_compute in E. injection E as <- <- <-. left. reflexivity. }
  split; [reflexivity|]. split; [exact HIn|].
  destruct (sendMessageToWebhook_payload "oi" "c1" None w r w' t plain_payload
              (inl (ok_response greeting)) E HIn)
    as (_ & _ & Hu & _ & _ & _ & _ & Hone).
  split; [exact Hu | exact Hone].
Defined.

(** X13.  [sendMessageToWebhook] throws whenever the exchange fails, and
    logs exactly when it throws: a file that cannot be read is rethrown
    and nothing is posted; a rejected request is rethrown; a response that
    is not a success throws the fixed sentence followed by the status
    text, its body unread; a body that is not JSON throws. *)
Theorem sendMessageToWebhook_failures message cid file w r w' t :
  exec (sendMessageToWebhook message cid file) w = (r, w', t) ->
  (forall f e, file = Some f -> data_url (env w) f = inr e ->
     r = Thrown e /\ filter is_post (marks t) = []) /\
  (forall body e, In (Requested body (inr e)) (marks t) -> r = Thrown e) /\
  (forall body resp, In (Requested body (inl resp)) (marks t) ->
     resp_ok resp = false ->
     r = Thrown ("Erro na comunicação com o servidor: " ++ resp_statusText resp)) /\
  (forall body resp, In (Requested body (inl resp)) (marks t) ->
     resp_ok resp = true -> resp_json resp = None -> exists e, r = Thrown e) /\
  (webhook_failed t = true <-> exists e, r = Thrown e).
Proof.
  intros E.
  assert (Hlog : webhook_failed t = true <-> exists e, r = Thrown e).
  { destruct (sendMessageToWebhook_spec message cid file w)
      as (r0 & w0 & t0 & pre & E0 & _ & _ & Hpre & Hr).
    rewrite E in E0. injection E0 as <- <- <-.
    unfold webhook_failed, logged.
    destruct Hr as [(v & -> & ->)|(e & -> & ->)].
    - rewrite (gateway_no_log _ _ Hpre). split; [discriminate|].
      intros (e & He). discriminate He.
    - rewrite existsb_app. cbn. rewrite orb_true_r.
      split; [eauto|reflexivity]. }
  split; [|split; [|split; [|split; [|exact Hlog]]]].
  - intros f0 e0 -> He. clear Hlog.
    unfold sendMessageToWebhook, convertFileToBase64, perform, await in E.
    cbn -[String.append] in E. rewrite He in E. cbn -[String.append] in E.
    inversion E; subst. split; reflexivity.
  - intros body e HIn. clear Hlog.
    gateway_paths w file E; the_request HIn; congruence.
  - intros body resp HIn Hno. clear Hlog.
    gateway_paths w file E; the_request HIn; first [congruence | reflexivity].
  - intros body resp HIn Hyes Hnone. clear Hlog.
    gateway_paths w file E; the_request HIn; try congruence; eauto.
Qed.

Lemma sendMessageToWebhook_failures_witness :
  let w := world_offline in
  exists r w' t,
    exec (sendMessageToWebhook "oi" "c1" None) w = (r, w', t) /\
    (webhook_failed t = true <-> exists e, r = Thrown e).
Proof.
  intros w.
  destruct (exec (sendMessageToWebhook "oi" "c1" None) w) as [[r w'] t] eqn:E.
  exists r, w', t. split; [reflexivity|].
  exact (proj2 (proj2 (proj2 (proj2
           (sendMessageToWebhook_failures "oi" "c1" None w r w' t E))))).
Defined.

(** ** The persistence gateway, continued *)

Section Sorting.
Context {A : Type} (le : A -> A -> bool).
Hypothesis le_total : forall x y, le x y = false -> le y x = true.
Hypothesis le_trans :
  forall x y z, le x y = true -> le y z = true -> le x z = true.

Lemma insert_by_perm (x : A) (l : list A) : Permutation (insert_by le x l) (x :: l).
Proof.
  induction l as [|y t IH]; cbn [insert_by]; [apply Permutation_refl|].
  destruct (le x y); [apply Permutation_refl|].
  apply perm_trans with (y :: x :: t); [apply perm_skip, IH | apply perm_swap].
Qed.

Lemma sort_by_perm (l : list A) : Permutation (sort_by le l) l.
Proof.
  induction l as [|x t IH]; [apply perm_nil|].
  unfold sort_by. cbn [fold_right]. fold (sort_by le t).
  apply perm_trans with (x :: sort_by le t); [apply insert_by_perm | apply perm_skip, IH].
Qed.

Lemma insert_by_ordered (x : A) (l : list A) :
  StronglySorted (fun a b => le a b = true) l ->
  StronglySorted (fun a b => le a b = true) (insert_by le x l).
Proof.
  induction l as [|y t IH]; cbn [insert_by]; intros Hs.
  - constructor; constructor.
  - inversion Hs as [|? ? Ht Hy]; subst.
    destruct (le x y) eqn:Hxy.
    + constructor; [exact Hs|]. constructor; [exact Hxy|].
      eapply Forall_impl; [|exact Hy]. intros z Hz. cbv beta in Hz.
      exact (le_trans _ _ _ Hxy Hz).
    + constructor; [apply IH, Ht|].
      apply (Permutation_Forall (Permutation_sym (insert_by_perm x t))).
      constructor; [apply le_total, Hxy | exact Hy].
Qed.

Lemma sort_by_ordered (l : list A) :
  StronglySorted (fun a b => le a b = true) (sort_by le l).
Proof.
  induction l as [|x t IH]; [constructor|].
  unfold sort_by. cbn [fold_right]. apply insert_by_ordered, IH.
Qed.
End Sorting.

Lemma strongly_sorted_map {A B : Type} (R : A -> A -> Prop) (Q : B -> B -> Prop)
    (f : A -> B) (l : list A) :
  (forall x y, R x y -> Q (f x) (f y)) ->
  StronglySorted R l -> StronglySorted Q (map f l).
Proof.
  intros H. induction 1 as [|x t Ht IH Hx]; cbn [map]; constructor; [exact IH|].
  apply Forall_map. eapply Forall_impl; [|exact Hx]. intros y. apply H.
Qed.

Lemma rows_ordered (l : list MessageRow) :
  StronglySorted (fun x y => msg_timestamp x <= msg_timestamp y)
    (map message_of_row (sort_by (fun x y => row_created_at x <=? row_created_at y) l)).
Proof.
  apply strongly_sorted_map
    with (R := fun x y => (row_created_at x <=? row_created_at y) = true).
  - intros x y H. apply Nat.leb_le in H. exact H.
  - apply sort_by_ordered.
    + intros x y H. apply Nat.leb_gt in H. apply Nat.leb_le. lia.
    + intros x y z H1 H2. apply Nat.leb_le in H1. apply Nat.leb_le in H2.
      apply Nat.leb_le. lia.
Qed.

Lemma conversations_ordered (l : list Conversation) :
  StronglySorted (fun x y => conv_updated_at y <= conv_updated_at x)
    (sort_by (fun x y => conv_updated_at y <=? conv_updated_at x) l).
Proof.
  rewrite <- (map_id (sort_by _ l)).
  apply strongly_sorted_map
    with (R := fun x y => (conv_updated_at y <=? conv_updated_at x) = true).
  - intros x y H. apply Nat.leb_le in H. exact H.
  - apply sort_by_ordered.
    + intros x y H. apply Nat.leb_gt in H. apply Nat.leb_le. lia.
    + intros x y z H1 H2. apply Nat.leb_le in H1. apply Nat.leb_le in H2.
      apply Nat.leb_le. lia.
Qed.

Lemma loadChatHistory_spec (cid : string) (w : World) :
  exists l w' t,
    exec (loadChatHistory cid) w = (Returned l, w', t) /\
    ui w' = ui w /\
    grows w w' [] [] [] /\
    StronglySorted (fun x y => msg_timestamp x <= msg_timestamp y) l /\
    (forall m, In m l ->
       exists row, In row (chat_messages_tbl (backend w)) /\
                   row_conversation_id row = cid /\ m = message_of_row row) /\
    (forall u, session (backend w) = Some u ->
       msg_select_error (env w) (tick (backend w)) cid = None ->
       Permutation l
         (map message_of_row
            (filter (fun m => String.eqb (row_conversation_id m) cid)
               (chat_messages_tbl (backend w))))) /\
    (logged history_label t = true -> l = []).
Proof.
  unfold loadChatHistory, perform. cbn -[sort_by].
  destruct (session (backend w)) as [u|] eqn:Hs; cbn -[sort_by].
  2:{ do 3 eexists. split; [reflexivity|]. split; [reflexivity|]. split; [grows_now|].
      split; [constructor|]. split; [intros m []|]. split; [discriminate|reflexivity]. }
  destruct (msg_select_error (env w) (tick (backend w)) cid) as [e|] eqn:He;
    cbn -[sort_by].
  - do 3 eexists. split; [reflexivity|]. split; [reflexivity|]. split; [grows_now|].
    split; [constructor|]. split; [intros m []|]. split; [discriminate|reflexivity].
  - do 3 eexists. split; [reflexivity|]. split; [reflexivity|]. split; [grows_now|].
    split; [apply rows_ordered|]. split; [|split].
    + intros m Hm. apply in_map_iff in Hm. destruct Hm as (row & <- & Hrow).
      apply (Permutation_in _ (sort_by_perm _ _)) in Hrow.
      apply filter_In in Hrow. destruct Hrow as [Hin Hc].
      exists row. split; [exact Hin|]. split; [|reflexivity].
      apply String.eqb_eq. exact Hc.
    + intros _ _ _. apply Permutation_map, sort_by_perm.
    + discriminate.
Qed.

(** X14.  [loadChatHistory] always returns, and changes nothing.  What it
    returns are stored messages of the conversation asked for, oldest
    first; with a session and a query the backend accepts, all of them,
    each once, whoever wrote them: the query does not look at the user.
    It returns the empty list whenever it logs a failure. *)
Theorem loadChatHistory_of_conversation (cid : string) (w : World) :
  exists l w' t,
    exec (loadChatHistory cid) w = (Returned l, w', t) /\
    ui w' = ui w /\
    grows w w' [] [] [] /\
    StronglySorted (fun x y => msg_timestamp x <= msg_timestamp y) l /\
    (forall m, In m l ->
       exists row, In row (chat_messages_tbl (backend w)) /\
                   row_conversation_id row = cid /\ m = message_of_row row) /\
    (forall u, session (backend w) = Some u ->
       msg_select_error (env w) (tick (backend w)) cid = None ->
       Permutation l
         (map message_of_row
            (filter (fun m => String.eqb (row_conversation_id m) cid)
               (chat_messages_tbl (backend w))))) /\
    (logged history_label t = true -> l = []).
Proof. exact (loadChatHistory_spec cid w). Qed.

Lemma loadChatHistory_of_conversation_witness :
  exists l w' t,
    exec (loadChatHistory "c1") world_two_threads = (Returned l, w', t) /\
    Permutation l
      (map message_of_row
         (filter (fun m => String.eqb (row_conversation_id m) "c1")
            (chat_messages_tbl (backend world_two_threads)))).
Proof.
  destruct (loadChatHistory_of_conversation "c1" world_two_threads)
    as (l & w' & t & E & _ & _ & _ & _ & Hall & _).
  exists l, w', t. split; [exact E|].
  apply (Hall alice); reflexivity.
Defined.

Lemma getConversations_spec (w : World) :
  exists l w' t,
    exec getConversations w = (Returned l, w', t) /\
    ui w' = ui w /\
    grows w w' [] [] [] /\
    StronglySorted (fun x y => conv_updated_at y <= conv_updated_at x) l /\
    (forall c, In c l ->
       In c (conversations_tbl (backend w)) /\
       exists u, session (backend w) = Some u /\ conv_user_id c = user_id u) /\
    (forall u, session (backend w) = Some u ->
       conv_select_error (env w) (tick (backend w)) (user_id u) = None ->
       Permutation l
         (filter (fun c => String.eqb (conv_user_id c) (user_id u))
            (conversations_tbl (backend w)))) /\
    (logged list_label t = true -> l = []).
Proof.
  unfold getConversations, perform. cbn -[sort_by].
  destruct (session (backend w)) as [u|] eqn:Hs; cbn -[sort_by].
  2:{ do 3 eexists. split; [reflexivity|]. split; [reflexivity|]. split; [grows_now|].
      split; [constructor|]. split; [intros m []|]. split; [discriminate|reflexivity]. }
  destruct (conv_select_error (env w) (tick (backend w)) (user_id u)) as [e|] eqn:He;
    cbn -[sort_by].
  - do 3 eexists. split; [reflexivity|]. split; [reflexivity|]. split; [grows_now|].
    split; [constructor|]. split; [intros m []|]. split; [|reflexivity].
    intros u' Hu'. injection Hu' as <-. rewrite He. discriminate.
  - do 3 eexists. split; [reflexivity|]. split; [reflexivity|]. split; [grows_now|].
    split; [apply conversations_ordered|]. split; [|split].
    + intros c Hc.
      apply (Permutation_in _ (sort_by_perm _ _)) in Hc.
      apply filter_In in Hc. destruct Hc as [Hin Hc].
      split; [exact Hin|]. exists u. split; [reflexivity|].
      apply String.eqb_eq. exact Hc.
    + intros u' Hu' _. injection Hu' as <-. apply sort_by_perm.
    + discriminate.
Qed.

(** X15.  [getConversations] always returns, and changes nothing.  What
    it returns are stored conversations of the session's user, the latest
    activity first; when the backend accepts the query, all of them, each
    once.  It returns the empty list whenever it logs a failure. *)
Theorem getConversations_own_latest_first (w : World) :
  exists l w' t,
    exec getConversations w = (Returned l, w', t) /\
    ui w' = ui w /\
    grows w w' [] [] [] /\
    StronglySorted (fun x y => conv_updated_at y <= conv_updated_at x) l /\
    (forall c, In c l ->
       In c (conversations_tbl (backend w)) /\
       exists u, session (backend w) = Some u /\ conv_user_id c = user_id u) /\
    (forall u, session (backend w) = Some u ->
       conv_select_error (env w) (tick (backend w)) (user_id u) = None ->
       Permutation l
         (filter (fun c => String.eqb (conv_user_id c) (user_id u))
            (conversations_tbl (backend w)))) /\
    (logged list_label t = true -> l = []).
Proof. exact (getConversations_spec w). Qed.

Lemma getConversations_own_latest_first_witness :
  exists l w' t,
    exec getConversations world_two_threads = (Returned l, w', t) /\
    Permutation l
      (filter (fun c => String.eqb (conv_user_id c) (user_id alice))
         (conversations_tbl (backend world_two_threads))).
Proof.
  destruct (getConversations_own_latest_first world_two_threads)
    as (l & w' & t & E & _ & _ & _ & _ & Hall & _).
  exists l, w', t. split; [exact E|].
  apply (Hall alice); reflexivity.
Defined.

(** ** The other handlers of the chat view *)

Lemma handleDeleteConversation_spec (id : string) (w : World) :
  exists w' t,
    exec (handleDeleteConversation id) w = (Returned tt, w', t) /\
    messages (ui w') = messages (ui w) /\
    isTyping (ui w') = isTyping (ui w) /\
    ((conv_delete_error (env w) (backend w) id = None /\
      (forall c, In c (conversations (ui w')) <->
                 In c (conversations (ui w)) /\ conv_id c <> id) /\
      (forall c, In c (conversations_tbl (backend w')) <->
                 In c (conversations_tbl (backend w)) /\ conv_id c <> id) /\
      activeConversationId (ui w') <> Some id /\
      (activeConversationId (ui w) <> Some id ->
       activeConversationId (ui w') = activeConversationId (ui w)) /\
      marks t = [Deleted id; Toasted "Conversa excluída." toast_info])
     \/
     (conv_delete_error (env w) (backend w) id <> None /\
      ui w' = ui w /\
      conversations_tbl (backend w') = conversations_tbl (backend w) /\
      marks t = [Deleted id; Logged delete_label;
                 Toasted "Erro ao excluir conversa." toast_error])).
Proof.
  assert (Hf : forall (l : list Conversation) c,
             In c (filter (fun c => negb (String.eqb (conv_id c) id)) l) <->
             In c l /\ conv_id c <> id).
  { intros l c. rewrite filter_In, negb_true_iff, String.eqb_neq. reflexivity. }
  unfold handleDeleteConversation, deleteConversation, perform. cbn -[filter].
  destruct (conv_delete_error (env w) (backend w) id) as [e|] eqn:He; cbn -[filter].
  - do 2 eexists. split; [reflexivity|]. split; [reflexivity|]. split; [reflexivity|].
    right. split; [discriminate|]. split; [destruct w as [[] ? ?]; reflexivity|].
    split; reflexivity.
  - destruct (activeConversationId (ui w)) as [a|] eqn:Ha; cbn -[filter].
    + destruct (String.eqb_spec a id) as [->|Hne]; cbn -[filter].
      * do 2 eexists. split; [reflexivity|]. split; [reflexivity|]. split; [reflexivity|].
        left. split; [reflexivity|]. split; [apply Hf|]. split; [apply Hf|].
        split; [discriminate|]. split; [|reflexivity].
        intros H. contradiction H. reflexivity.
      * do 2 eexists. split; [reflexivity|]. split; [reflexivity|]. split; [reflexivity|].
        left. split; [reflexivity|]. split; [apply Hf|]. split; [apply Hf|].
        cbn [activeConversationId ui set_ui]. split; [congruence|]. split; reflexivity.
    + do 2 eexists. split; [reflexivity|]. split; [reflexivity|]. split; [reflexivity|].
      left. split; [reflexivity|]. split; [apply Hf|]. split; [apply Hf|].
      cbn [activeConversationId ui set_ui]. split; [discriminate|]. split; reflexivity.
Qed.

(** X16.  [handleDeleteConversation] always returns.  When the backend
    accepts the delete, the conversation leaves the list shown and the
    others stay, it is no longer the active one, and a notice is shown;
    when the backend refuses, the view is left as it was and an error is
    shown.  In neither case are the messages shown touched by the
    handler itself. *)
Theorem handleDeleteConversation_outcome (id : string) (w : World) :
  exists w' t,
    exec (handleDeleteConversation id) w = (Returned tt, w', t) /\
    messages (ui w') = messages (ui w) /\
    isTyping (ui w') = isTyping (ui w) /\
    ((conv_delete_error (env w) (backend w) id = None /\
      (forall c, In c (conversations (ui w')) <->
                 In c (conversations (ui w)) /\ conv_id c <> id) /\
      (forall c, In c (conversations_tbl (backend w')) <->
                 In c (conversations_tbl (backend w)) /\ conv_id c <> id) /\
      activeConversationId (ui w') <> Some id /\
      (activeConversationId (ui w) <> Some id ->
       activeConversationId (ui w') = activeConversationId (ui w)) /\
      marks t = [Deleted id; Toasted "Conversa excluída." toast_info])
     \/
     (conv_delete_error (env w) (backend w) id <> None /\
      ui w' = ui w /\
      conversations_tbl (backend w') = conversations_tbl (backend w) /\
      marks t = [Deleted id; Logged delete_label;
                 Toasted "Erro ao excluir conversa." toast_error])).
Proof. exact (handleDeleteConversation_spec id w). Qed.

Lemma handleDeleteConversation_outcome_witness :
  exists w' t,
    exec (handleDeleteConversation "c1") world_two_threads = (Returned tt, w', t) /\
    map conv_id (conversations (ui w')) = ["c2"] /\
    activeConversationId (ui w') = None.
Proof.
  destruct (handleDeleteConversation_outcome "c1" world_two_threads)
    as (w' & t & E & _).
  exists w', t. split; [exact E|].
  vm_compute in E. injection E as <- _. split; reflexivity.
Defined.

Lemma loadMessages_spec (activeId : option string) (w : World) :
  exists w' t,
    exec (loadMessages activeId) w = (Returned tt, w', t) /\
    (no_id activeId = true ->
       exists stamp, messages (ui w') = [welcome stamp]) /\
    (forall id, activeId = Some id -> id <> "" ->
       StronglySorted (fun x y => msg_timestamp x <= msg_timestamp y)
         (messages (ui w')) /\
       forall m, In m (messages (ui w')) ->
         exists row, In row (chat_messages_tbl (backend w)) /\
                     row_conversation_id row = id /\ m = message_of_row row) /\
    isTyping (ui w') = isTyping (ui w) /\
    activeConversationId (ui w') = activeConversationId (ui w) /\
    conversations (ui w') = conversations (ui w) /\
    grows w w' [] [] [].
Proof.
  assert (Hwelcome : exists w' t,
    exec (stamp <- perform DateNow ;; perform (SetMessages (fun _ => [welcome stamp]))) w
      = (Returned tt, w', t) /\
    (exists stamp, messages (ui w') = [welcome stamp]) /\
    isTyping (ui w') = isTyping (ui w) /\
    activeConversationId (ui w') = activeConversationId (ui w) /\
    conversations (ui w') = conversations (ui w) /\
    grows w w' [] [] []).
  { unfold perform. cbn. do 2 eexists. split; [reflexivity|].
    split; [eexists; reflexivity|]. repeat split; try reflexivity.
    all: cbn; rewrite ?app_nil_r; auto. }
  unfold loadMessages.
  destruct activeId as [id|]; [destruct (String.eqb_spec id "") as [->|Hne]|].
  - destruct Hwelcome as (w' & t & E & Hm & H1 & H2 & H3 & H4).
    exists w', t. split; [exact E|]. split; [intros _; exact Hm|].
    split; [|auto]. intros id' Hid Hne. injection Hid as <-. contradiction Hne. reflexivity.
  - rewrite exec_bind.
    destruct (loadChatHistory_spec id w)
      as (l & w1 & t1 & E1 & Hui & Hg & Hsorted & Hrows & _ & _).
    rewrite E1, exec_perform. cbn [handle fst snd].
    do 2 eexists. split; [reflexivity|].
    split; [|split; [|cbn; rewrite Hui; split; [reflexivity|]; split; [reflexivity|];
                       split; [reflexivity|]]].
    + cbn. intros H. apply String.eqb_eq in H. contradiction.
    + intros id' Hid _. injection Hid as <-. cbn. split; assumption.
    + destruct Hg as [g1 g2 g3 g4 g5 g6]; constructor; assumption.
  - destruct Hwelcome as (w' & t & E & Hm & H1 & H2 & H3 & H4).
    exists w', t. split; [exact E|]. split; [intros _; exact Hm|].
    split; [|auto]. intros id' Hid. discriminate Hid.
Qed.

(** X17.  [loadMessages] always returns and replaces the messages shown,
    whatever they were.  With no active conversation only the welcome
    message is shown; with one, only stored messages of that
    conversation, oldest first: a message shown but not stored, such as
    the optimistic one of a send, is no longer shown.  The rest of the
    view and the backend are left as they were. *)
Theorem loadMessages_replaces (activeId : option string) (w : World) :
  exists w' t,
    exec (loadMessages activeId) w = (Returned tt, w', t) /\
    (no_id activeId = true ->
       exists stamp, messages (ui w') = [welcome stamp]) /\
    (forall id, activeId = Some id -> id <> "" ->
       StronglySorted (fun x y => msg_timestamp x <= msg_timestamp y)
         (messages (ui w')) /\
       forall m, In m (messages (ui w')) ->
         exists row, In row (chat_messages_tbl (backend w)) /\
                     row_conversation_id row = id /\ m = message_of_row row) /\
    isTyping (ui w') = isTyping (ui w) /\
    activeConversationId (ui w') = activeConversationId (ui w) /\
    conversations (ui w') = conversations (ui w) /\
    grows w w' [] [] [].
Proof. exact (loadMessages_spec activeId w). Qed.

Lemma loadMessages_replaces_witness :
  exists w' t,
    exec (loadMessages (Some "c1")) world_two_threads = (Returned tt, w', t) /\
    map msg_id (messages (ui w')) = ["m1"; "m2"].
Proof.
  destruct (loadMessages_replaces (Some "c1") world_two_threads) as (w' & t & E & _).
  exists w', t. split; [exact E|].
  vm_compute in E. injection E as <- _. reflexivity.
Defined.

(** ** A send in which nothing fails *)



Lemma upload_file_accepted file w u :
  session (backend w) = Some u ->
  accepting (env w) ->
  exists url objs w' t,
    exec (upload_file file) w = (Returned url, w', t) /\
    ui w' = ui w /\ grows w w' [] [] objs /\
    match file with
    | Some f => exists key, objs = [(key, f)] /\ url = kept_url (Some (public_url (env w) key))
    | None => objs = [] /\ url = None
    end /\
    existsb is_error_toast (marks t) = false /\
    writes_of (marks t) = [].
Proof.
  intros Hs Ha. unfold upload_file. destruct file as [f|].
  - unfold uploadChatAttachment, perform. cbn -[String.append nat_to_string].
    rewrite Hs. cbn -[String.append nat_to_string].
    rewrite (accepts_uploads _ Ha). cbn -[String.append nat_to_string].
    match goal with
    | |- context [public_url (env w) ?k] =>
        destruct (String.eqb (public_url (env w) k) "") eqn:Hk;
        cbn -[String.append nat_to_string];
        do 4 eexists; (split; [reflexivity|]); (split; [reflexivity|]);
        (split; [grows_now|]); (split; [|split; reflexivity]);
        exists k; (split; [reflexivity|]); unfold kept_url; rewrite Hk; reflexivity
    end.
  - cbn. exists None, [], w, []. split; [reflexivity|]. split; [reflexivity|].
    split; [apply grows_refl|]. split; [split; reflexivity|split; reflexivity].
Qed.

Lemma saveMessageToDb_written cid role content info w u :
  session (backend w) = Some u ->
  cid <> "" ->
  accepting (env w) ->
  exists row w' t,
    exec (saveMessageToDb cid role content info) w = (Returned tt, w', t) /\
    ui w' = ui w /\ grows w w' [] [row] [] /\
    row_conversation_id row = cid /\ row_user_id row = user_id u /\
    row_role row = role /\ row_content row = content /\
    row_attachment_info row = info /\
    marks t = [Wrote cid role info true].
Proof.
  intros Hs Hid Ha. unfold saveMessageToDb, perform. cbn. rewrite Hs. cbn.
  destruct (String.eqb_spec cid "") as [->|_]; [contradiction|].
  cbn. rewrite (accepts_messages _ Ha). cbn.
  do 3 eexists. split; [reflexivity|]. split; [reflexivity|]. split; [grows_now|].
  repeat split.
Qed.

Lemma sendMessageToWebhook_answered message cid file w :
  accepting (env w) ->
  exists v w' t,
    exec (sendMessageToWebhook message cid file) w = (Returned v, w', t) /\
    ui w' = ui w /\ grows w w' [] [] [] /\
    webhook_failed t = false /\
    existsb is_error_toast (marks t) = false /\
    writes_of (marks t) = [].
Proof.
  intros Ha.
  destruct (exec (sendMessageToWebhook message cid file) w) as [[r w'] t] eqn:E.
  destruct (sendMessageToWebhook_spec message cid file w)
    as (r0 & w0 & t0 & pre & E0 & Hui & Hg & Hpre & Hr).
  rewrite E in E0. injection E0 as <- <- <-.
  assert (Hreturns : exists v, r = Returned v).
  { clear Hr Hpre Hg Hui.
    unfold sendMessageToWebhook, convertFileToBase64, perform, await in E.
    cbn -[String.append] in E.
    destruct file as [f|]; cbn -[String.append] in E.
    - destruct (reads_files _ Ha f) as (d & Hd). rewrite Hd in E.
      cbn -[String.append] in E.
      match type of E with
      | context [fetch_result (env w) ?b ?url ?body] =>
          destruct (answers_posts _ Ha b url body) as (resp & data & Hf & Hok & Hj & Hn);
          rewrite Hf in E
      end.
      cbn -[String.append] in E. rewrite Hok in E. cbn -[String.append] in E.
      rewrite Hj in E. destruct data; [contradiction Hn; reflexivity|..];
        cbn -[String.append] in E; inversion E; eauto.
    - match type of E with
      | context [fetch_result (env w) ?b ?url ?body] =>
          destruct (answers_posts _ Ha b url body) as (resp & data & Hf & Hok & Hj & Hn);
          rewrite Hf in E
      end.
      cbn -[String.append] in E. rewrite Hok in E. cbn -[String.append] in E.
      rewrite Hj in E. destruct data; [contradiction Hn; reflexivity|..];
        cbn -[String.append] in E; inversion E; eauto. }
  destruct Hreturns as (v & ->). exists v, w', t. split; [reflexivity|].
  split; [exact Hui|]. split; [exact Hg|].
  destruct Hr as [(v' & _ & Hm)|(e & He & _)]; [|discriminate He].
  unfold webhook_failed, logged. rewrite Hm.
  split; [apply (gateway_no_log _ _ Hpre)|].
  split.
  - apply (requests_only is_error_toast pre); [|exact (proj2 Hpre)].
    intros x Hx. destruct x; try discriminate Hx; reflexivity.
  - destruct Hpre as [_ Hall]. clear Hm. induction pre as [|x pre IH]; [reflexivity|].
    cbn in Hall. apply andb_prop in Hall. destruct Hall as [Hx Hrest].
    destruct x; try discriminate Hx; cbn; apply IH, Hrest.
Qed.

Lemma accepting_grows w w' ids rows objs u :
  grows w w' ids rows objs ->
  session (backend w) = Some u -> accepting (env w) ->
  session (backend w') = Some u /\ accepting (env w').
Proof.
  intros [He Hs _ _ _ _] Hu Ha. rewrite He, Hs. split; assumption.
Qed.

Lemma reply_steps_accepted cur content file w u :
  session (backend w) = Some u ->
  cur <> "" ->
  accepting (env w) ->
  exists ai arow w' t,
    exec (reply_steps cur content file) w = (Returned tt, w', t) /\
    ui w' = append_messages [ai] (ui w) /\
    grows w w' [] [arow] [] /\
    msg_role ai = assistant /\ msg_attachment ai = None /\
    row_conversation_id arow = cur /\ row_user_id arow = user_id u /\
    row_role arow = assistant /\ row_content arow = msg_content ai /\
    row_attachment_info arow = None /\
    existsb is_error_toast (marks t) = false /\
    written_ids t = [cur].
Proof.
  intros Hs Hid Ha. unfold reply_steps. rewrite exec_bind.
  destruct (sendMessageToWebhook_answered content cur file w Ha)
    as (v & w1 & t1 & E1 & Hui1 & Hg1 & _ & Htoast1 & Hw1).
  rewrite E1.
  destruct (accepting_grows _ _ _ _ _ u Hg1 Hs Ha) as [Hs1 Ha1].
  rewrite exec_bind, exec_perform. cbn [handle fst snd].
  rewrite exec_bind, exec_perform. cbn [handle fst snd].
  rewrite exec_bind, exec_perform. cbn [handle fst snd].
  match goal with
  | |- context [exec (saveMessageToDb _ _ _ _) ?w2] =>
      destruct (saveMessageToDb_written cur assistant v None w2 u Hs1 Hid Ha1)
        as (arow & w3 & t3 & E3 & Hui3 & Hg3 & Hc & Hu & Hr & Hv & Hi & Hm3)
  end.
  rewrite E3.
  eexists {| msg_id := _; msg_role := assistant; msg_content := v;
             msg_timestamp := _; msg_attachment := None |}.
  exists arow. do 2 eexists. split; [reflexivity|].
  split; [rewrite Hui3; cbn; rewrite Hui1; reflexivity|].
  split.
  { apply (grows_trans w w1 w3 [] [] [] [arow] [] [] Hg1).
    destruct Hg3 as [g1 g2 g3 g4 g5 g6]. constructor; assumption. }
  cbn [msg_role msg_attachment msg_content].
  repeat (split; [first [reflexivity | assumption]|]).
  unfold written_ids. rewrite !marks_app, Hm3. cbn [marks digest app].
  rewrite ?app_nil_r. split.
  - rewrite existsb_app, Htoast1. reflexivity.
  - rewrite writes_of_app, Hw1. reflexivity.
Qed.

Lemma remaining_steps_accepted cur content file w u :
  session (backend w) = Some u ->
  cur <> "" ->
  accepting (env w) ->
  exists url objs urow ai arow w' t,
    exec (remaining_steps cur content file) w = (Returned tt, w', t) /\
    ui w' = append_messages [ai] (ui w) /\
    grows w w' [] [urow; arow] objs /\
    match file with
    | Some f => exists key, objs = [(key, f)] /\
                            url = kept_url (Some (public_url (env w) key))
    | None => objs = [] /\ url = None
    end /\
    (row_conversation_id urow = cur /\ row_user_id urow = user_id u /\
     row_role urow = user /\ row_content urow = JStr content /\
     row_attachment_info urow = dbAttachmentInfo file url) /\
    (msg_role ai = assistant /\ msg_attachment ai = None) /\
    (row_conversation_id arow = cur /\ row_user_id arow = user_id u /\
     row_role arow = assistant /\ row_content arow = msg_content ai /\
     row_attachment_info arow = None) /\
    existsb is_error_toast (marks t) = false /\
    written_ids t = [cur; cur].
Proof.
  intros Hs Hid Ha. unfold remaining_steps. rewrite exec_bind.
  destruct (upload_file_accepted file w u Hs Ha)
    as (url & objs & w2 & t2 & E2 & Hui2 & Hg2 & Hfile & Ht2 & Hw2).
  rewrite E2.
  destruct (accepting_grows _ _ _ _ _ u Hg2 Hs Ha) as [Hs2 Ha2].
  rewrite exec_bind.
  destruct (saveMessageToDb_written cur user (JStr content)
              (dbAttachmentInfo file url) w2 u Hs2 Hid Ha2)
    as (urow & w3 & t3 & E3 & Hui3 & Hg3 & Hurow1 & Hurow2 & Hurow3 & Hurow4 & Hurow5 & Hm3).
  rewrite E3.
  destruct (accepting_grows _ _ _ _ _ u Hg3 Hs2 Ha2) as [Hs3 Ha3].
  destruct (reply_steps_accepted cur content file w3 u Hs3 Hid Ha3)
    as (ai & arow & w4 & t4 & E4 & Hui4 & Hg4 & Hai1 & Hai2 & Harow1 & Harow2 & Harow3
        & Harow4 & Harow5 & Ht4 & Hw4).
  rewrite E4.
  exists url, objs, urow, ai, arow, w4, (t2 ++ t3 ++ t4)%list.
  split; [reflexivity|].
  split; [rewrite Hui4, Hui3, Hui2; reflexivity|].
  split.
  { pose proof (grows_trans _ _ _ _ _ _ _ _ _ Hg2 Hg3) as G13.
    pose proof (grows_trans _ _ _ _ _ _ _ _ _ G13 Hg4) as G14.
    cbn [app] in G14. rewrite !app_nil_r in G14. exact G14. }
  split; [exact Hfile|].
  split; [repeat split; assumption|]. split; [split; assumption|].
  split; [repeat split; assumption|].
  unfold written_ids in *. rewrite !marks_app, !existsb_app, !writes_of_app.
  rewrite Ht2, Ht4, Hw2, Hw4, Hm3. split; reflexivity.
Qed.


Lemma quiet_env_accepting (data : JSON) :
  data <> JNull -> accepting (quiet_env (inl (ok_response data))).
Proof.
  intros Hn. constructor; try reflexivity.
  - intros b. cbn. discriminate.
  - intros f. eexists. reflexivity.
  - intros b url body. exists (ok_response data), data. repeat split. exact Hn.
Qed.



(** ** The toaster *)

Lemma in_without_nth {A : Type} (l : list A) : forall (i : nat) (x y : A),
  nth_error l i = Some y -> x <> y -> In x l ->
  In x (firstn i l ++ skipn (S i) l)%list.
Proof.
  induction l as [|a l IH]; intros i x y Hn Hne Hin; [contradiction Hin|].
  destruct i as [|i]; cbn in *.
  - injection Hn as ->. destruct Hin as [->|Hin]; [contradiction|exact Hin].
  - destruct Hin as [->|Hin]; [left; reflexivity|].
    right. exact (IH i x y Hn Hne Hin).
Qed.

Lemma toaster_step_covered (s s' : Toasts) :
  toaster_step s s' ->
  (forall t, In t (toasts s) -> In (toast_id t) (timers s)) ->
  forall t, In t (toasts s') -> In (toast_id t) (timers s').
Proof.
  intros Hstep Hinv t Hin. destruct Hstep as [message type now s|i s Hi].
  - cbn in *. apply in_app_iff in Hin. apply in_app_iff.
    destruct Hin as [Hin|[<-|[]]]; [left; apply Hinv, Hin|right; left; reflexivity].
  - unfold expire in *. destruct (nth_error (timers s) i) as [id|] eqn:Hn.
    + cbn in *. apply filter_In in Hin. destruct Hin as [Hin Hne].
      apply negb_true_iff, Nat.eqb_neq in Hne.
      exact (in_without_nth _ _ _ _ Hn Hne (Hinv t Hin)).
    + apply Hinv, Hin.
Qed.

(** X19.  Every toast the [Toaster] shows has its timer pending, so that
    once no timer is pending no toast is shown; and when a timer fires,
    no toast made in the same millisecond stays. *)
Theorem toaster_timers_cover (s : Toasts) :
  toaster_reaches s ->
  (forall t, In t (toasts s) -> In (toast_id t) (timers s)) /\
  (timers s = [] -> toasts s = []) /\
  (forall i id, nth_error (timers s) i = Some id ->
     forall t, In t (toasts (expire i s)) -> toast_id t <> id).
Proof.
  intros Hr.
  assert (Hinv : forall t, In t (toasts s) -> In (toast_id t) (timers s)).
  { induction Hr as [|s s' _ IH Hstep]; [intros t []|].
    exact (toaster_step_covered s s' Hstep IH). }
  split; [exact Hinv|]. split.
  - intros Hnil. destruct (toasts s) as [|t l] eqn:Ht; [reflexivity|].
    specialize (Hinv t (or_introl eq_refl)). rewrite Hnil in Hinv. contradiction Hinv.
  - intros i id Hn t Hin. unfold expire in Hin. rewrite Hn in Hin. cbn in Hin.
    apply filter_In in Hin. destruct Hin as [_ Hne].
    apply negb_true_iff, Nat.eqb_neq in Hne. exact Hne.
Qed.

Lemma toaster_timers_cover_witness :
  let s := expire 0 (handleToast "Conversa excluída." toast_info 7
                       (handleToast "Erro ao excluir conversa." toast_error 7
                          {| toasts := []; timers := [] |})) in
  toasts s = [] /\ timers s = [7] /\
  (forall t, In t (toasts s) -> In (toast_id t) (timers s)).
Proof.
  intros s. split; [reflexivity|]. split; [reflexivity|].
  apply toaster_timers_cover.
  eapply toaster_next; [eapply toaster_next; [eapply toaster_next; [apply toaster_mounted|]|]|].
  - apply toaster_shows.
  - apply toaster_shows.
  - apply toaster_expires. cbn. lia.
Defined.

(** ** A first send and the effect that loads the history *)

Lemma send_until_adopted_spec (w : World) (u : User) :
  send_refused (ui w) = false ->
  no_id (activeConversationId (ui w)) = true ->
  session (backend w) = Some u ->
  accepting (env w) ->
  exists opt c w3,
    optimistic (ui w) opt /\
    send_until_adopted w =
      (send_after_conversation (conv_id c) (inputValue (ui w)) (selectedFile (ui w)), w3) /\
    ui w3 = adopt (Some c) (started (ui w) opt) /\
    grows w w3 [conv_id c] [] [] /\
    conv_id c <> "" /\
    (exists b, conv_id c = fresh_id (env w) b).
Proof.
  intros Hgo Hno Hs Ha.
  pose proof (issues_ids _ Ha (tick (backend w))) as Hid.
  unfold send_until_adopted, handleSendMessage, perform.
  cbn [bind settle is_async handle fst snd]. rewrite Hgo.
  unfold show_optimistic, perform.
  assert (Hfile : exists file, selectedFile (ui w) = file) by eauto.
  destruct Hfile as (file & Hfile). rewrite Hfile.
  assert (Hpreview : exists preview : bool,
            match file with
            | Some f => String.prefix "image/" (file_type f)
            | None => false
            end = preview) by eauto.
  destruct Hpreview as (preview & Hpreview).
  destruct file as [f|]; [rewrite Hpreview; destruct preview|];
    cbn -[cleanTitle String.append nat_to_string remaining_steps report send_steps];
    unfold send_steps, ensure_conversation; rewrite Hno;
    unfold createConversation, perform;
    cbn -[cleanTitle String.append nat_to_string remaining_steps report upload_file
          saveMessageToDb reply_steps];
    rewrite Hs;
    cbn -[cleanTitle String.append nat_to_string remaining_steps report upload_file
          saveMessageToDb reply_steps];
    rewrite (accepts_conversations _ Ha);
    cbn -[cleanTitle String.append nat_to_string remaining_steps report upload_file
          saveMessageToDb reply_steps];
    destruct (String.eqb_spec (fresh_id (env w) (tick (backend w))) "") as [E|_];
    try contradiction;
    match goal with
    | |- context [settle _ ?w0] =>
        match w0 with
        | context [optimistic_message ?a ?b ?c ?d ?e] =>
            exists (optimistic_message a b c d e)
        end;
        exists {| conv_id := fresh_id (env w) (tick (backend w));
                  conv_user_id := user_id u;
                  conv_title := cleanTitle (inputValue (ui w));
                  conv_updated_at := S (clock (backend w)) |};
        exists w0
    end;
    (split; [unfold optimistic; rewrite Hfile; do 3 eexists; reflexivity|]);
    (split; [reflexivity|]);
    (split; [reflexivity|]);
    (split; [grows_now|]);
    (split; [exact Hid|]); eexists; reflexivity.
Qed.

Lemma send_after_conversation_accepted cur content file w u :
  session (backend w) = Some u ->
  cur <> "" ->
  accepting (env w) ->
  exists objs urow ai arow w' t,
    exec (send_after_conversation cur content file) w = (Returned tt, w', t) /\
    ui w' = set_typing false (append_messages [ai] (ui w)) /\
    grows w w' [] [urow; arow] objs /\
    (row_conversation_id urow = cur /\ row_role urow = user /\
     row_content urow = JStr content) /\
    msg_role ai = assistant /\
    (row_conversation_id arow = cur /\ row_role arow = assistant /\
     row_content arow = msg_content ai) /\
    error_shown t = false.
Proof.
  intros Hs Hid Ha. unfold send_after_conversation.
  rewrite exec_finally, exec_try_catch.
  destruct (remaining_steps_accepted cur content file w u Hs Hid Ha)
    as (url & objs & urow & ai & arow & w4 & t4 & E4 & Hui4 & Hg4 & _ & Hurow
        & Hai & Harow & Ht4 & _).
  rewrite E4, exec_perform. cbn [handle fst snd].
  exists objs, urow, ai, arow. do 2 eexists. split; [reflexivity|].
  split; [cbn; rewrite Hui4; reflexivity|].
  split; [apply (grows_set_ui (ui w) _ w w4); destruct w; exact Hg4|].
  split; [destruct Hurow as (? & _ & ? & ? & _); auto|].
  split; [apply Hai|].
  split; [destruct Harow as (? & _ & ? & ? & _); auto|].
  unfold error_shown. rewrite marks_app, existsb_app, Ht4. reflexivity.
Qed.

(** X20.  In a first send in which nothing fails, the new conversation
    becomes the active one while the send is still in flight, which
    schedules the effect that loads its history.  If that effect runs to
    its end before the send receives its next answer, it finds no stored
    message of the new conversation and empties the list: the optimistic
    message is no longer shown.  When the send ends, the reply is the
    only message shown, although the user's message was stored. *)
Theorem first_send_and_history_load (w : World) (u : User) :
  send_refused (ui w) = false ->
  no_id (activeConversationId (ui w)) = true ->
  session (backend w) = Some u ->
  accepting (env w) ->
  (forall b row, In row (chat_messages_tbl (backend w)) ->
     row_conversation_id row <> fresh_id (env w) b) ->
  exists opt cid p3 w3 w4 t4 w5 t5 ai urow arow objs,
    send_until_adopted w = (p3, w3) /\
    optimistic (ui w) opt /\
    messages (ui w3) = (messages (ui w) ++ [opt])%list /\
    isTyping (ui w3) = true /\
    activeConversationId (ui w3) = Some cid /\ cid <> "" /\
    exec (loadMessages (activeConversationId (ui w3))) w3 = (Returned tt, w4, t4) /\
    messages (ui w4) = [] /\
    exec p3 w4 = (Returned tt, w5, t5) /\
    messages (ui w5) = [ai] /\ msg_role ai = assistant /\
    isTyping (ui w5) = false /\ error_shown t5 = false /\
    grows w w5 [cid] [urow; arow] objs /\
    row_conversation_id urow = cid /\ row_role urow = user /\
    row_content urow = JStr (inputValue (ui w)).
Proof.
  intros Hgo Hno Hs Ha Hfresh.
  destruct (send_until_adopted_spec w u Hgo Hno Hs Ha)
    as (opt & c & w3 & Hopt & E3 & Hui3 & Hg3 & Hid & (b & Hb)).
  destruct (accepting_grows _ _ _ _ _ u Hg3 Hs Ha) as [Hs3 Ha3].
  destruct (loadMessages_spec (Some (conv_id c)) w3)
    as (w4 & t4 & E4 & _ & Hrows & Hbusy4 & Hact4 & Hconvs4 & Hg4).
  assert (Hempty : messages (ui w4) = []).
  { destruct (messages (ui w4)) as [|m l] eqn:Hm; [reflexivity|].
    destruct (Hrows (conv_id c) eq_refl Hid) as [_ Hin].
    destruct (Hin m (or_introl eq_refl)) as (row & Hrow & Hc & _).
    rewrite (grows_messages _ _ _ _ _ Hg3), app_nil_r in Hrow.
    rewrite Hb in Hc. contradiction (Hfresh b row Hrow Hc). }
  destruct (accepting_grows _ _ _ _ _ u Hg4 Hs3 Ha3) as [Hs4 Ha4].
  destruct (send_after_conversation_accepted (conv_id c) (inputValue (ui w))
              (selectedFile (ui w)) w4 u Hs4 Hid Ha4)
    as (objs & urow & ai & arow & w5 & t5 & E5 & Hui5 & Hg5 & Hurow & Hai & _ & Hshown).
  exists opt, (conv_id c),
    (send_after_conversation (conv_id c) (inputValue (ui w)) (selectedFile (ui w))),
    w3, w4, t4, w5, t5, ai, urow, arow, objs.
  split; [exact E3|]. split; [exact Hopt|].
  rewrite Hui3. cbn [adopt started messages isTyping activeConversationId].
  split; [reflexivity|]. split; [reflexivity|]. split; [reflexivity|].
  split; [exact Hid|]. split; [exact E4|]. split; [exact Hempty|].
  split; [exact E5|].
  rewrite Hui5. cbn [set_typing append_messages messages isTyping]. rewrite Hempty.
  split; [reflexivity|]. split; [exact Hai|]. split; [reflexivity|].
  split; [exact Hshown|].
  split.
  { pose proof (grows_trans _ _ _ _ _ _ _ _ _ Hg3 Hg4) as G.
    pose proof (grows_trans _ _ _ _ _ _ _ _ _ G Hg5) as G'.
    cbn [app] in G'. rewrite ?app_nil_r in G'. exact G'. }
  destruct Hurow as (? & ? & ?). auto.
Qed.

Lemma first_send_and_history_load_witness :
  exists p3 w3 w4 t4 w5 t5,
    send_until_adopted world_first_message = (p3, w3) /\
    exec (loadMessages (activeConversationId (ui w3))) w3 = (Returned tt, w4, t4) /\
    exec p3 w4 = (Returned tt, w5, t5) /\
    map msg_role (messages (ui w5)) = [assistant] /\
    length (chat_messages_tbl (backend w5)) = 2.
Proof.
  destruct (first_send_and_history_load world_first_message alice eq_refl eq_refl eq_refl
              (quiet_env_accepting greeting ltac:(discriminate))
              (fun b row (H : In row []) => match H with end))
    as (opt & cid & p3 & w3 & w4 & t4 & w5 & t5 & ai & urow & arow & objs & E3 & _ & _ & _
        & _ & _ & E4 & _ & E5 & Hm & Hai & _ & _ & Hg & _).
  exists p3, w3, w4, t4, w5, t5.
  split; [exact E3|]. split; [exact E4|]. split; [exact E5|].
  split; [rewrite Hm; cbn; rewrite Hai; reflexivity|].
  rewrite (grows_messages _ _ _ _ _ Hg). reflexivity.
Defined.

(** ** Saving and listing *)

Lemma touch_id id now c : conv_id (touch id now c) = conv_id c.
Proof. unfold touch. destruct (String.eqb (conv_id c) id); reflexivity. Qed.

Lemma touch_user id now c : conv_user_id (touch id now c) = conv_user_id c.
Proof. unfold touch. destruct (String.eqb (conv_id c) id); reflexivity. Qed.

Lemma touch_updated id now c :
  conv_updated_at (touch id now c) =
  if String.eqb (conv_id c) id then now else conv_updated_at c.
Proof. unfold touch. destruct (String.eqb (conv_id c) id); reflexivity. Qed.

(** X21.  After a message is saved under a conversation of the user's,
    that conversation comes first in what [getConversations] returns,
    when no stored conversation was stamped ahead of the clock. *)
Theorem saved_conversation_listed_first cid role content info w u c :
  session (backend w) = Some u ->
  cid <> "" ->
  accepting (env w) ->
  (forall b, conv_select_error (env w) b (user_id u) = None) ->
  In c (conversations_tbl (backend w)) ->
  conv_id c = cid ->
  conv_user_id c = user_id u ->
  Forall (fun x => conv_updated_at x <= clock (backend w))
    (conversations_tbl (backend w)) ->
  exists w1 t1 first rest w2 t2,
    exec (saveMessageToDb cid role content info) w = (Returned tt, w1, t1) /\
    exec getConversations w1 = (Returned (first :: rest), w2, t2) /\
    conv_id first = cid /\
    Forall (fun x => conv_updated_at x <= conv_updated_at first) rest.
Proof.
  intros Hs Hid Ha Hsel Hc Hcid Hown Hclock.
  destruct (exec (saveMessageToDb cid role content info) w) as [[r1 w1] t1] eqn:E1.
  unfold saveMessageToDb, perform in E1. cbn in E1. rewrite Hs in E1. cbn in E1.
  destruct (String.eqb_spec cid "") as [->|_]; [contradiction|].
  cbn in E1. rewrite (accepts_messages _ Ha) in E1. cbn in E1.
  injection E1 as <- <- <-.
  match goal with
  | |- context [(Returned tt, ?W, ?T) = _] => exists W, T
  end.
  unfold getConversations, perform. cbn -[sort_by]. rewrite Hs.
  cbn -[sort_by]. rewrite Hsel. cbn -[sort_by].
  set (now := S (S (clock (backend w)))).
  set (shown := sort_by _ _).
  assert (Hsorted : StronglySorted (fun x y => conv_updated_at y <= conv_updated_at x) shown)
    by apply conversations_ordered.
  assert (Hin : forall x, In x shown <->
            In x (map (touch cid now) (conversations_tbl (backend w))) /\
            conv_user_id x = user_id u).
  { intros x. unfold shown. split.
    - intros H. apply (Permutation_in _ (sort_by_perm _ _)) in H.
      apply filter_In in H. destruct H as [H1 H2]. apply String.eqb_eq in H2.
      split; assumption.
    - intros [H1 H2]. apply (Permutation_in _ (Permutation_sym (sort_by_perm _ _))).
      apply filter_In. split; [exact H1|]. apply String.eqb_eq. exact H2. }
  assert (Htouched : In (touch cid now c) shown).
  { apply Hin. split; [apply in_map, Hc|]. rewrite touch_user. exact Hown. }
  assert (Hnow : conv_updated_at (touch cid now c) = now).
  { rewrite touch_updated, Hcid, String.eqb_refl. reflexivity. }
  destruct shown as [|first rest] eqn:Hshown; [contradiction Htouched|].
  exists first, rest. do 2 eexists.
  split; [reflexivity|]. split; [reflexivity|].
  apply StronglySorted_inv in Hsorted. destruct Hsorted as [_ Hrest].
  split; [|exact Hrest].
  destruct (proj1 (Hin first) (or_introl eq_refl)) as [Hmap _].
  apply in_map_iff in Hmap. destruct Hmap as (x & Hx & Hxin).
  rewrite <- Hx, touch_id.
  destruct (String.eqb_spec (conv_id x) cid) as [E|Hne]; [exact E|exfalso].
  assert (Hold : conv_updated_at first <= clock (backend w)).
  { rewrite <- Hx, touch_updated.
    destruct (String.eqb_spec (conv_id x) cid) as [E|_]; [contradiction|].
    rewrite Forall_forall in Hclock. apply Hclock, Hxin. }
  destruct Htouched as [Hf|Hr].
  - rewrite Hf, Hnow in Hold. unfold now in Hold. lia.
  - rewrite Forall_forall in Hrest. specialize (Hrest _ Hr). cbv beta in Hrest.
    rewrite Hnow in Hrest. unfold now in Hrest. lia.
Qed.

Lemma saved_conversation_listed_first_witness :
  exists w1 t1 first rest w2 t2,
    exec (saveMessageToDb "c1" user (JStr "oi") None) world_two_threads
      = (Returned tt, w1, t1) /\
    exec getConversations w1 = (Returned (first :: rest), w2, t2) /\
    conv_id first = "c1".
Proof.
  destruct (saved_conversation_listed_first "c1" user (JStr "oi") None
              world_two_threads alice (thread "c1" "oi" 3) eq_refl
              ltac:(discriminate) (quiet_env_accepting greeting ltac:(discriminate))
              (fun _ => eq_refl) (or_introl eq_refl) eq_refl eq_refl
              ltac:(repeat constructor))
    as (w1 & t1 & first & rest & w2 & t2 & E1 & E2 & Hfirst & _).
  exists w1, t1, first, rest, w2, t2. auto.
Defined.

(** ** The guard of the send action *)

Lemma trim_end_keeps (c : ascii) (t : string) :
  is_space c = false -> trim_end (String c t) <> "".
Proof.
  intros Hc. cbn [trim_end]. destruct (trim_end t); [rewrite Hc|]; discriminate.
Qed.

Lemma trim_empty (s : string) : trim s = "" <-> all_space s = true.
Proof.
  unfold trim. induction s as [|c t IH]; [split; reflexivity|].
  cbn [trim_start all_space]. destruct (is_space c) eqn:Hc.
  - exact IH.
  - split; [|discriminate]. intros H. contradiction (trim_end_keeps c t Hc H).
Qed.

(** X22.  A send of nothing but white space, with no file selected, does
    nothing at all: the handler reads its state and returns, the world
    is as it was and no request was made.  With no file selected and no
    send in flight, that is the only text the guard refuses. *)
Theorem blank_message_not_sent (w : World) :
  selectedFile (ui w) = None ->
  (all_space (inputValue (ui w)) = true ->
     exec handleSendMessage w = (Returned tt, w, [Ev ReadState (ui w)])) /\
  (isTyping (ui w) = false ->
     (send_refused (ui w) = true <-> all_space (inputValue (ui w)) = true)).
Proof.
  intros Hfile. split.
  - intros Hblank. apply handleSendMessage_refused. unfold send_refused.
    rewrite Hfile. apply trim_empty in Hblank. rewrite Hblank. reflexivity.
  - intros Hidle. unfold send_refused. rewrite Hfile, Hidle. cbn [is_some negb].
    rewrite orb_false_r, andb_true_r. rewrite String.eqb_eq. apply trim_empty.
Qed.

Lemma blank_message_not_sent_witness :
  let w := world_of (chat_with "   " None None) (Some alice) (inl (ok_response greeting)) in
  exec handleSendMessage w = (Returned tt, w, [Ev ReadState (ui w)]).
Proof.
  intros w. apply (proj1 (blank_message_not_sent w eq_refl)). reflexivity.
Defined.

(** ** The views of the application *)

(** X23.  The [home] view is never shown: whatever happens, starting
    from [login] or from [update_password], no callback that [App] hands
    out and no auth event leads to it.  Every view that is shown has a
    way back to [login]. *)
Theorem home_view_unreachable (v0 : ViewState) (es : list AppEvent) :
  v0 = login \/ v0 = update_password ->
  app_run v0 es <> home /\
  exists back, app_run (app_run v0 es) back = login.
Proof.
  intros Hstart.
  assert (Hnever : forall es v, v <> home -> app_run v es <> home).
  { clear. induction es as [|e rest IH]; intros v Hv; [exact Hv|].
    cbn [app_run]. apply IH.
    destruct e, v; cbn; first [discriminate | exact Hv]. }
  split.
  - apply Hnever. destruct Hstart as [->| ->]; discriminate.
  - destruct (app_run v0 es).
    + exists []. reflexivity.
    + exists [onCancel]. reflexivity.
    + exists [onLogin]. reflexivity.
    + exists [onLogout]. reflexivity.
    + exists [onBack]. reflexivity.
    + exists [onSuccess]. reflexivity.
    + exists [onLogout]. reflexivity.
Qed.

Lemma home_view_unreachable_witness :
  app_run login [onRegisterClick; onSuccess; onLogin; onLoginSuccess] = chat /\
  app_run login [onRegisterClick; onSuccess; onLogin; onLoginSuccess] <> home.
Proof.
  split; [reflexivity|].
  apply (home_view_unreachable login
           [onRegisterClick; onSuccess; onLogin; onLoginSuccess]).
  left. reflexivity.
Defined.

(** ** The effects of the chat view *)

(** X24.  The effect that runs when the view mounts always returns and
    replaces the list of conversations shown by what [getConversations]
    returns: conversations of the session's user, the latest activity
    first, or none when there is no session or the query fails.  The
    rest of the view and the backend are left as they were. *)
Theorem fetchConversations_shows_own (w : World) :
  exists w' t,
    exec fetchConversations w = (Returned tt, w', t) /\
    StronglySorted (fun x y => conv_updated_at y <= conv_updated_at x)
      (conversations (ui w')) /\
    (forall c, In c (conversations (ui w')) ->
       In c (conversations_tbl (backend w)) /\
       exists u, session (backend w) = Some u /\ conv_user_id c = user_id u) /\
    (logged list_label t = true -> conversations (ui w') = []) /\
    messages (ui w') = messages (ui w) /\
    activeConversationId (ui w') = activeConversationId (ui w) /\
    isTyping (ui w') = isTyping (ui w) /\
    grows w w' [] [] [].
Proof.
  unfold fetchConversations. rewrite exec_bind.
  destruct (getConversations_spec w)
    as (l & w1 & t1 & E & Hui & Hg & Hsorted & Hown & _ & Hlog).
  rewrite E, exec_perform. cbn [handle fst snd].
  do 2 eexists. split; [reflexivity|].
  cbn [ui set_ui conversations messages activeConversationId isTyping].
  rewrite Hui.
  split; [exact Hsorted|]. split; [exact Hown|].
  split.
  { intros H. apply Hlog. unfold logged in *. rewrite marks_app in H.
    cbn in H. rewrite app_nil_r in H. exact H. }
  split; [reflexivity|]. split; [reflexivity|]. split; [reflexivity|].
  destruct Hg as [g1 g2 g3 g4 g5 g6]. constructor; assumption.
Qed.

(** X25.  Both ways of leaving a conversation end at the welcome
    message: after [handleNewConversation], and after
    [handleDeleteConversation] of the active conversation when the
    backend accepts the delete, no conversation is active, and the
    effect that loads the history then shows the welcome message and
    nothing else. *)
Theorem back_to_welcome (w : World) :
  (exists w1 t1 w2 t2 stamp,
     exec handleNewConversation w = (Returned tt, w1, t1) /\
     activeConversationId (ui w1) = None /\
     exec (loadMessages (activeConversationId (ui w1))) w1 = (Returned tt, w2, t2) /\
     messages (ui w2) = [welcome stamp] /\
     activeConversationId (ui w2) = None) /\
  (forall id,
     activeConversationId (ui w) = Some id ->
     conv_delete_error (env w) (backend w) id = None ->
     exists w1 t1 w2 t2 stamp,
       exec (handleDeleteConversation id) w = (Returned tt, w1, t1) /\
       activeConversationId (ui w1) = None /\
       exec (loadMessages (activeConversationId (ui w1))) w1 = (Returned tt, w2, t2) /\
       messages (ui w2) = [welcome stamp] /\
       activeConversationId (ui w2) = None).
Proof.
  assert (Hload : forall w1, activeConversationId (ui w1) = None ->
            exists w2 t2 stamp,
              exec (loadMessages (activeConversationId (ui w1))) w1 = (Returned tt, w2, t2) /\
              messages (ui w2) = [welcome stamp] /\
              activeConversationId (ui w2) = None).
  { intros w1 Hnone.
    destruct (loadMessages_spec (activeConversationId (ui w1)) w1)
      as (w2 & t2 & E & Hw & _ & _ & Hact & _).
    rewrite Hnone in Hw. destruct (Hw eq_refl) as (stamp & Hm).
    exists w2, t2, stamp. split; [exact E|]. split; [exact Hm|].
    rewrite Hact. exact Hnone. }
  split.
  - unfold handleNewConversation. rewrite exec_perform. cbn [handle fst snd].
    match goal with
    | |- exists w1 t1 w2 t2 stamp, (_, ?W, ?T) = _ /\ _ =>
        destruct (Hload W eq_refl) as (w2 & t2 & stamp & E & Hm & Hact);
        exists W, T, w2, t2, stamp
    end.
    split; [reflexivity|]. split; [reflexivity|]. split; [exact E|].
    split; assumption.
  - intros id Hactive Hok.
    destruct (handleDeleteConversation_spec id w)
      as (w1 & t1 & E1 & _ & _ & [(_ & _ & _ & Hnot & _)|(Hrefused & _)]);
      [|contradiction].
    assert (Hnone : activeConversationId (ui w1) = None).
    { clear Hnot. unfold handleDeleteConversation, deleteConversation, perform in E1.
      cbn -[filter] in E1. rewrite Hok in E1. cbn -[filter] in E1.
      rewrite Hactive in E1. cbn -[filter] in E1. rewrite String.eqb_refl in E1.
      cbn -[filter] in E1. injection E1 as <- _. reflexivity. }
    destruct (Hload w1 Hnone) as (w2 & t2 & stamp & E & Hm & Hact).
    exists w1, t1, w2, t2, stamp. auto.
Qed.

Lemma back_to_welcome_witness :
  exists w1 t1 w2 t2,
    exec (handleDeleteConversation "c1") world_two_threads = (Returned tt, w1, t1) /\
    exec (loadMessages (activeConversationId (ui w1))) w1 = (Returned tt, w2, t2) /\
    map msg_id (messages (ui w2)) = ["welcome"].
Proof.
  destruct (proj2 (back_to_welcome world_two_threads) "c1" eq_refl eq_refl)
    as (w1 & t1 & w2 & t2 & stamp & E1 & _ & E2 & Hm & _).
  exists w1, t1, w2, t2. split; [exact E1|]. split; [exact E2|].
  rewrite Hm. reflexivity.
Defined.

Lemma fetchConversations_shows_own_witness :
  exists w' t,
    exec fetchConversations world_two_threads = (Returned tt, w', t) /\
    map conv_id (conversations (ui w')) = ["c2"; "c1"].
Proof.
  destruct (fetchConversations_shows_own world_two_threads) as (w' & t & E & _).
  exists w', t. split; [exact E|].
  vm_compute in E. injection E as <- _. reflexivity.
Defined.

(** ** The submission of the onboarding form *)

(** The ways through [onSubmit], one goal for each. *)
Ltac submit_paths data ans :=
  unfold onSubmit, submit_steps, after_check;
  destruct (duplicate_check ans) as [[|]|? ?|?] eqn:?Hcheck;
  [ | destruct (sign_up ans) as [[id|]|? ?|?] eqn:?Hsign;
      [ destruct (String.eqb_spec id "");
        [ | destruct (profile_insert ans) as [[]|? ?|?] eqn:?Hinsert ] | | | ] | | ];
  cbn -[String.append includes profilePayload].

(** X26.  [onSubmit] always ends with the form released, having shown
    exactly one toast.  The toast tells of success exactly when
    [onSuccess] was called, which happens exactly when the CPF was not
    known, the sign-up returned a user id and the profile was
    inserted. *)
Theorem onSubmit_settles (data : OnboardingFormData) (ans : SubmitAnswers) :
  hd_error (onSubmit data ans) = Some (SetIsSubmitting true) /\
  last (onSubmit data ans) (SetIsSubmitting true) = SetIsSubmitting false /\
  length (filter is_toast (onSubmit data ans)) = 1 /\
  existsb is_success_toast (onSubmit data ans) =
    existsb is_on_success (onSubmit data ans) /\
  (existsb is_on_success (onSubmit data ans) = true <->
   duplicate_check ans = Data false /\
   (exists id, sign_up ans = Data (Some id) /\ id <> "") /\
   profile_insert ans = Data tt).
Proof.
  submit_paths data ans;
    (split; [reflexivity|]); (split; [reflexivity|]); (split; [reflexivity|]);
    (split; [reflexivity|]);
    (split; [try discriminate|
             intros (H1 & (id' & H2 & H3) & H4); try congruence]).
  intros _. split; [reflexivity|]. split; [eauto|reflexivity].
Qed.

Lemma onSubmit_settles_witness :
  let ans :=
    {| duplicate_check := Data false; sign_up := Data (Some "u1");
       profile_insert := Data tt |} in
  existsb is_on_success (onSubmit ana ans) = true.
Proof.
  intros ans.
  apply (proj2 (proj2 (proj2 (proj2 (onSubmit_settles ana ans))))).
  split; [reflexivity|]. split; [|reflexivity].
  exists "u1". split; [reflexivity|discriminate].
Defined.

(** X27.  [onSubmit] signs the user up only when the duplicate check
    answered that the CPF is not known, and inserts a profile only for
    the id that the sign-up returned; it does each once at most.  A
    sign-up is not taken back: when the profile insert fails, the user
    was signed up, [onSuccess] is not called and an error is shown. *)
Theorem onSubmit_requests_in_order (data : OnboardingFormData) (ans : SubmitAnswers) :
  (existsb is_sign_up (onSubmit data ans) = true <->
   duplicate_check ans = Data false) /\
  (forall p, In (InsertProfile p) (onSubmit data ans) ->
     duplicate_check ans = Data false /\
     exists id, sign_up ans = Data (Some id) /\ id <> "" /\
                p = profilePayload id data) /\
  length (filter is_sign_up (onSubmit data ans)) <= 1 /\
  length (filter is_insert (onSubmit data ans)) <= 1 /\
  (forall p, In (InsertProfile p) (onSubmit data ans) ->
     profile_insert ans <> Data tt ->
     existsb is_sign_up (onSubmit data ans) = true /\
     existsb is_on_success (onSubmit data ans) = false /\
     existsb is_success_toast (onSubmit data ans) = false /\
     length (filter is_toast (onSubmit data ans)) = 1).
Proof.
  submit_paths data ans;
    (split; [split; [try discriminate; reflexivity | try discriminate; reflexivity]|]);
    (split; [intros p Hp; cbn -[String.append includes profilePayload] in Hp;
             repeat (destruct Hp as [Hp|Hp]; try discriminate Hp);
             try contradiction Hp;
             try (injection Hp as <-; (split; [reflexivity|]); eexists; eauto)|]);
    (split; [cbn; lia|]); (split; [cbn; lia|]);
    intros p Hp Hfail; cbn -[String.append includes profilePayload] in Hp;
    repeat (destruct Hp as [Hp|Hp]; try discriminate Hp);
    try contradiction Hp;
    first [ contradiction Hfail; reflexivity | repeat split ].
Qed.

Lemma onSubmit_requests_in_order_witness :
  let data := ana in
  let ans :=
    {| duplicate_check := Data false; sign_up := Data (Some "u1");
       profile_insert := Failed "duplicate key" None |} in
  In (InsertProfile (profilePayload "u1" data)) (onSubmit data ans) /\
  existsb is_sign_up (onSubmit data ans) = true /\
  existsb is_on_success (onSubmit data ans) = false.
Proof.
  intros data ans.
  assert (Hin : In (InsertProfile (profilePayload "u1" data)) (onSubmit data ans))
    by (right; right; right; left; reflexivity).
  split; [exact Hin|].
  destruct (proj2 (proj2 (proj2 (proj2 (onSubmit_requests_in_order data ans))))
              (profilePayload "u1" data) Hin ltac:(discriminate))
    as (H1 & H2 & _).
  split; assumption.
Defined.

(** X28.  The profile [onSubmit] stores holds digits only in its
    telephone, CPF, RG and postal code.  Its CPF has eleven digits when
    the field passed the schema; its postal code has eight when the
    field was masked and passed the schema; its telephone has every
    digit typed, ten at least, under the same conditions. *)
Theorem profilePayload_digits (id : string) (data : OnboardingFormData) :
  (all_digits (pp_telefone (profilePayload id data)) = true /\
   all_digits (pp_cpf (profilePayload id data)) = true /\
   all_digits (pp_rg (profilePayload id data)) = true /\
   all_digits (pp_cep (profilePayload id data)) = true) /\
  (step1Schema_cpf (cpf data) = true ->
   String.length (pp_cpf (profilePayload id data)) = 11) /\
  (forall typed, cep data = maskCEP typed ->
     step2Schema_cep (cep data) = true ->
     String.length (pp_cep (profilePayload id data)) = 8) /\
  (forall typed, phone data = maskPhone typed ->
     step1Schema_phone (phone data) = true ->
     pp_telefone (profilePayload id data) = digits_only typed /\
     10 <= String.length (pp_telefone (profilePayload id data))).
Proof.
  cbn [profilePayload pp_telefone pp_cpf pp_rg pp_cep]. unfold cpfLimpo.
  split; [repeat split; apply digits_only_all_digits|].
  split; [|split].
  - intros H. unfold step1Schema_cpf in H. apply andb_prop in H.
    destruct H as [_ H]. apply (validateCPF_true _ H).
  - intros typed -> H. rewrite maskCEP_digits, substring_length_min.
    unfold step2Schema_cep in H. rewrite <- (maskCEP_digits_only typed) in H.
    destruct (maskCEP_of_digits (digits_only typed) (digits_only_all_digits typed))
      as (_ & Hle & _ & Hiff).
    apply Nat.leb_le in H.
    assert (E : String.length (maskCEP (digits_only typed)) = 9) by lia.
    apply Hiff in E. lia.
  - intros typed -> H. rewrite maskPhone_digits. split; [reflexivity|].
    unfold step1Schema_phone in H. apply Nat.leb_le in H.
    assert (E : maskPhone typed = maskPhone (digits_only typed)).
    { unfold maskPhone. rewrite digits_only_idempotent. reflexivity. }
    pose proof (maskPhone_length_of_digits (digits_only typed)
                  (digits_only_all_digits typed)) as L.
    rewrite <- E in L. cbv zeta in L. rewrite L in H.
    destruct (Nat.ltb_spec (String.length (digits_only typed)) 3);
      destruct (Nat.ltb_spec (String.length (digits_only typed)) 7); lia.
Qed.

Lemma profilePayload_digits_witness :
  let data := ana in
  String.length (pp_cpf (profilePayload "u1" data)) = 11 /\
  String.length (pp_cep (profilePayload "u1" data)) = 8.
Proof.
  intros data.
  destruct (profilePayload_digits "u1" data) as (_ & Hcpf & Hcep & _).
  split; [apply Hcpf; reflexivity|].
  apply (Hcep "01310100"); reflexivity.
Defined.

(** ** The access log *)

(** X29.  [registerAccessLog] never throws, whatever fails, and always
    asks for exactly one row to be inserted, for the user it was given,
    as [Mobile] or [Desktop].  The row carries the address and the place
    the lookup gave, and the fixed defaults whenever the lookup failed in
    any way. *)
Theorem registerAccessLog_swallows (userId userAgent : string) (lookup : IpAnswer)
    (insert : Answer unit) :
  snd (registerAccessLog userId userAgent lookup insert) = Done /\
  exists row,
    filter is_access_insert (fst (registerAccessLog userId userAgent lookup insert))
      = [AccessInserted row] /\
    log_user_id row = userId /\
    (device_type row = "Mobile" \/ device_type row = "Desktop") /\
    browser row = browserName userAgent /\
    match located lookup with
    | Some data =>
        ip_address row = ip data /\
        location row =
          ip_city data ++ ", " ++ region_code data ++ " - " ++ country_code data
    | None => ip_address row = "0.0.0.0" /\ location row = "Desconhecido"
    end.
Proof.
  unfold registerAccessLog, access_steps, locate, located.
  destruct lookup as [e| |e|data]; [| | |destruct (ip_success data)];
    destruct insert as [[]|m d|e']; cbn -[isMobile browserName String.append];
    (split; [reflexivity|]); eexists; (split; [reflexivity|]);
    cbn -[isMobile browserName String.append];
    (split; [reflexivity|]);
    (split; [destruct (isMobile userAgent); auto|]);
    (split; [reflexivity|]); split; reflexivity.
Qed.

Example registerAccessLog_chrome_on_android :
  let ua := "Mozilla/5.0 (Linux; Android 13) AppleWebKit/537.36 Chrome/120.0 Mobile Safari/537.36" in
  isMobile ua = true /\ browserName ua = "Google Chrome".
Proof. split; reflexivity. Qed.
